(** * kindle2readwise: the export pipeline of [core.py]

    A shallow embedding of class [Kindle2Readwise] (src/kindle2readwise/core.py)
    and the properties of its export pipeline.

    The pipeline talks to three collaborators that live in other modules of the
    repository: the clippings parser, the Readwise API client and the
    highlights DAO.  They are taken as parameters: each of their methods is a
    function on an abstract world [W] that may return a value or raise.  The
    pipeline itself is written in a state-and-exception monad whose state
    survives a raise, as Python's mutable objects do.  A ghost log records
    every call made to a collaborator, in call order. *)

From stdpp Require Import base strings gmap list sorting.
From Stdlib Require Import ZArith Lia.

Local Open Scope string_scope.
Local Open Scope list_scope.
Local Open Scope Z_scope.

(** ** Data model *)

(** [parser.KindleClipping]: the attributes [core.py] reads. *)
Record KindleClipping := mkClipping {
  title : string;
  author : option string;
  content : string;
  location : option string;
  date : option string
}.

(** Modelled from the spec: [models.ExportStats] is declared outside
    [core.py]; section 3 of the specification lists its four counters.  A
    fresh accumulator [ExportStats()] starts with every counter at zero. *)
Record ExportStats := mkStats {
  total_processed : Z;
  new_sent : Z;
  duplicates_skipped : Z;
  failed_to_send : Z
}.

Definition ExportStats_new : ExportStats := mkStats 0 0 0 0.

(** The dictionary [final_stats_dict] built by [_complete_process]; its four
    keys are fixed by a literal. *)
Record SessionStats := mkSessionStats {
  ss_total_processed : Z;
  ss_sent : Z;
  ss_duplicates : Z;
  ss_failed : Z
}.

(** One entry of the list returned by [get_pending_highlights]. *)
Record PendingHighlight := mkPending {
  ph_id : Z;
  ph_title : string;
  ph_author : string;
  ph_highlight : string;
  ph_location : string;
  ph_date : string;
  original_clipping : KindleClipping
}.

(** Exceptions.  [External] stands for whatever a collaborator raises
    ([ParsingError], [DeliveryError], [StorageError], ...); every value of
    this type is an instance of Python's [Exception]. *)
Inductive exn :=
| ValidationError (msg : string)
| ProcessingError (msg : string) (cause : exn)
| External (name msg : string).

(** [str(e)]. *)
Definition exn_str (e : exn) : string :=
  match e with
  | ValidationError m => m
  | ProcessingError m _ => m
  | External _ m => m
  end.

Inductive Res (A : Type) :=
| Ok (a : A)
| Raise (e : exn).
Arguments Ok {A} a.
Arguments Raise {A} e.

(** The identity under which the ledger stores a highlight: the three
    arguments of [highlight_exists]. *)
Definition DedupKey : Type := string * string * string.

(** The ghost log: one event per call to a collaborator, with the arguments
    of the call and what it returned or raised. *)
Inductive event :=
| EvValidateToken (r : Res bool)
| EvParse (r : Res (list KindleClipping))
| EvExists (k : DedupKey) (r : Res bool)
| EvSend (batch : list KindleClipping) (r : Res (gmap string Z))
| EvSave (c : KindleClipping) (export_status : string) (r : Res unit)
| EvStartSession (source : string) (r : Res Z)
| EvCompleteSession (session_id : Z) (final : SessionStats) (status : string)
                    (r : Res unit).

(** ** Python idioms *)

(** [len(l)]. *)
Definition len {A} (l : list A) : Z := Z.of_nat (length l).

(** [l[:k]], with Python's reading of a negative bound. *)
Definition slice_to {A} (l : list A) (k : Z) : list A :=
  if 0 <=? k then take (Z.to_nat k) l
  else take (Z.to_nat (len l + k)) l.

(** Truth value of a list and of a string. *)
Definition truthy_list {A} (l : list A) : bool :=
  match l with [] => false | _ => true end.

Definition truthy_str (s : string) : bool :=
  match s with EmptyString => false | _ => true end.

(** [x or d] for an optional string [x]. *)
Definition str_or (x : option string) (d : string) : string :=
  match x with
  | Some s => if truthy_str s then s else d
  | None => d
  end.

(** [d.get(key, 0)]. *)
Definition dict_get0 (d : gmap string Z) (key : string) : Z :=
  default 0 (d !! key).

Definition key_of (c : KindleClipping) : DedupKey :=
  (title c, str_or (author c) "", content c).

(** ** Collaborators *)

(** The methods [core.py] calls on its collaborators.  [W] is everything
    outside the pipeline object: the file system, the remote service and the
    database. *)
Record Env (W : Type) := mkEnv {
  (* Path.exists *)
  file_exists : W -> bool;
  (* ReadwiseAPIClient.validate_token *)
  validate_token : W -> Res bool * W;
  (* KindleClippingsParser.parse *)
  parse : W -> Res (list KindleClipping) * W;
  (* HighlightsDAO.highlight_exists *)
  highlight_exists : DedupKey -> W -> Res bool * W;
  (* HighlightsDAO.save_highlight *)
  save_highlight : KindleClipping -> string -> W -> Res unit * W;
  (* ReadwiseAPIClient.send_highlights *)
  send_highlights : list KindleClipping -> W -> Res (gmap string Z) * W;
  (* HighlightsDAO.start_export_session *)
  start_export_session : string -> W -> Res Z * W;
  (* HighlightsDAO.complete_export_session *)
  complete_export_session : Z -> SessionStats -> string -> W -> Res unit * W
}.
Arguments file_exists {W} _ _.
Arguments validate_token {W} _ _.
Arguments parse {W} _ _.
Arguments highlight_exists {W} _ _ _.
Arguments save_highlight {W} _ _ _ _.
Arguments send_highlights {W} _ _ _.
Arguments start_export_session {W} _ _ _.
Arguments complete_export_session {W} _ _ _ _ _.

(** ** The pipeline state *)

(** What a run can mutate: the outside world, the ghost log, the
    [ExportStats] object of the run, the one-element list [status_ref], and
    the locals [session_status] and [all_clippings] of [process], which its
    [except] and [finally] clauses read. *)
Record St (W : Type) := mkSt {
  world : W;
  log : list event;
  stats : ExportStats;
  status_ref : string;
  session_status : string;
  all_clippings : list KindleClipping
}.
Arguments mkSt {W} _ _ _ _ _ _.
Arguments world {W} _.
Arguments log {W} _.
Arguments stats {W} _.
Arguments status_ref {W} _.
Arguments session_status {W} _.
Arguments all_clippings {W} _.

Definition init_St {W} (w : W) : St W :=
  mkSt w [] ExportStats_new "success" "success" [].

Definition set_world {W} (w : W) (s : St W) : St W :=
  mkSt w (log s) (stats s) (status_ref s) (session_status s) (all_clippings s).
Definition add_log {W} (ev : event) (s : St W) : St W :=
  mkSt (world s) (log s ++ [ev]) (stats s) (status_ref s) (session_status s)
       (all_clippings s).
Definition set_stats {W} (x : ExportStats) (s : St W) : St W :=
  mkSt (world s) (log s) x (status_ref s) (session_status s) (all_clippings s).
Definition set_status_ref {W} (x : string) (s : St W) : St W :=
  mkSt (world s) (log s) (stats s) x (session_status s) (all_clippings s).
Definition set_session_status {W} (x : string) (s : St W) : St W :=
  mkSt (world s) (log s) (stats s) (status_ref s) x (all_clippings s).
Definition set_all_clippings {W} (x : list KindleClipping) (s : St W) : St W :=
  mkSt (world s) (log s) (stats s) (status_ref s) (session_status s) x.

Definition with_total_processed (n : Z) (x : ExportStats) : ExportStats :=
  mkStats n (new_sent x) (duplicates_skipped x) (failed_to_send x).
Definition with_new_sent (n : Z) (x : ExportStats) : ExportStats :=
  mkStats (total_processed x) n (duplicates_skipped x) (failed_to_send x).
Definition with_duplicates_skipped (n : Z) (x : ExportStats) : ExportStats :=
  mkStats (total_processed x) (new_sent x) n (failed_to_send x).
Definition with_failed_to_send (n : Z) (x : ExportStats) : ExportStats :=
  mkStats (total_processed x) (new_sent x) (duplicates_skipped x) n.

(** ** The monad *)

Definition M (W A : Type) : Type := St W -> Res A * St W.

Definition ret {W A} (a : A) : M W A := fun s => (Ok a, s).

Definition bind {W A B} (m : M W A) (k : A -> M W B) : M W B :=
  fun s =>
    match m s with
    | (Ok a, s') => k a s'
    | (Raise e, s') => (Raise e, s')
    end.

Definition raise {W A} (e : exn) : M W A := fun s => (Raise e, s).

Definition get {W} : M W (St W) := fun s => (Ok s, s).

Definition modify {W} (f : St W -> St W) : M W unit := fun s => (Ok tt, f s).

Declare Scope pipeline_scope.
Delimit Scope pipeline_scope with pipeline.
Notation "x <- m ;; k" := (bind m (fun x => k))
  (at level 100, m at next level, right associativity) : pipeline_scope.
Notation "m ;; k" := (bind m (fun _ => k))
  (at level 100, right associativity) : pipeline_scope.
Local Open Scope pipeline_scope.

(** [try: body except Exception as e: handler(e) finally: final].  An
    exception leaving [final] replaces whatever the first two clauses
    produced. *)
Definition try_except_finally {W A}
    (body : M W A) (handler : exn -> M W A) (final : M W unit) : M W A :=
  fun s =>
    let '(r1, s1) := body s in
    let '(r2, s2) :=
      match r1 with
      | Ok a => (Ok a, s1)
      | Raise e => handler e s1
      end in
    match final s2 with
    | (Ok _, s3) => (r2, s3)
    | (Raise e, s3) => (Raise e, s3)
    end.

(** [try: body except Exception: pass]. *)
Definition try_except_pass {W A} (body : M W A) : M W (option A) :=
  fun s =>
    match body s with
    | (Ok a, s') => (Ok (Some a), s')
    | (Raise _, s') => (Ok None, s')
    end.

(** A call to a collaborator: run on the world, and logged with its
    outcome. *)
Definition call {W A} (ev : Res A -> event) (f : W -> Res A * W) : M W A :=
  fun s =>
    let '(r, w') := f (world s) in
    (r, set_world w' (add_log (ev r) s)).

Definition set_stat {W} (f : ExportStats -> ExportStats) : M W unit :=
  modify (fun s => set_stats (f (stats s)) s).

(** ** The class [Kindle2Readwise] *)

Section Kindle2Readwise.
Context {W : Type}.
Variable E : Env W.
(* self.clippings_file, as text *)
Variable clippings_file : string.
(* self.dry_run *)
Variable dry_run : bool.

Definition validate_setup : M W unit :=
  s <- get ;;
  if negb (file_exists E (world s)) then
    raise (ValidationError ("Clippings file not found: " +:+ clippings_file))
  else if dry_run then ret tt
  else
    valid <- call EvValidateToken (validate_token E) ;;
    if negb valid then raise (ValidationError "Invalid Readwise API token.")
    else ret tt.

(** The loop of [_filter_duplicates]; [new_clippings] and
    [duplicate_count] are its two accumulators. *)
Fixpoint _filter_duplicates_loop (clippings new_clippings : list KindleClipping)
    (duplicate_count : Z) : M W (list KindleClipping * Z) :=
  match clippings with
  | [] => ret (new_clippings, duplicate_count)
  | clipping :: rest =>
      if negb (truthy_str (content clipping)) then
        _filter_duplicates_loop rest new_clippings duplicate_count
      else
        found <- call (EvExists (key_of clipping))
                      (highlight_exists E (key_of clipping)) ;;
        if found then
          _filter_duplicates_loop rest new_clippings (duplicate_count + 1)
        else
          _filter_duplicates_loop rest (new_clippings ++ [clipping])
                                  duplicate_count
  end.

Definition _filter_duplicates (clippings : list KindleClipping)
    : M W (list KindleClipping * Z) :=
  _filter_duplicates_loop clippings [] 0.

(** The loop of [_save_exported_highlights]; [saved_count] only feeds a log
    message. *)
Fixpoint _save_loop (clippings : list KindleClipping) (saved_count : Z)
    : M W Z :=
  match clippings with
  | [] => ret saved_count
  | clipping :: rest =>
      r <- try_except_pass
             (call (EvSave clipping "success")
                   (save_highlight E clipping "success")) ;;
      match r with
      | Some _ => _save_loop rest (saved_count + 1)
      | None => _save_loop rest saved_count
      end
  end.

Definition _save_exported_highlights
    (successfully_sent_clippings : list KindleClipping) : M W unit :=
  if negb (truthy_list successfully_sent_clippings) then ret tt
  else _save_loop successfully_sent_clippings 0 ;; ret tt.

Definition _handle_dry_run_export (new_clippings : list KindleClipping)
    : M W unit :=
  set_stat (with_new_sent (len new_clippings)) ;;
  set_stat (with_failed_to_send 0).

Definition _handle_real_export (new_clippings : list KindleClipping)
    : M W unit :=
  export_result <- call (EvSend new_clippings)
                        (send_highlights E new_clippings) ;;
  let sent_count := dict_get0 export_result "sent" in
  set_stat (with_new_sent sent_count) ;;
  set_stat (with_failed_to_send (dict_get0 export_result "failed")) ;;
  s <- get ;;
  (if 0 <? failed_to_send (stats s)
   then modify (set_status_ref "partial") else ret tt) ;;
  let successfully_sent_clippings := slice_to new_clippings sent_count in
  if truthy_list successfully_sent_clippings
  then _save_exported_highlights successfully_sent_clippings
  else ret tt.

Definition _process_clippings (clippings : list KindleClipping) : M W unit :=
  r <- _filter_duplicates clippings ;;
  let '(new_clippings, duplicate_count) := r in
  set_stat (with_duplicates_skipped duplicate_count) ;;
  set_stat (with_new_sent (len new_clippings)) ;;
  if truthy_list new_clippings then
    if dry_run then _handle_dry_run_export new_clippings
    else _handle_real_export new_clippings
  else set_stat (with_new_sent 0).

Definition _complete_process (session_id : option Z) : M W unit :=
  match session_id with
  | Some sid =>
      if negb dry_run then
        s <- get ;;
        let final_stats_dict :=
          mkSessionStats (total_processed (stats s)) (new_sent (stats s))
                         (duplicates_skipped (stats s))
                         (failed_to_send (stats s)) in
        call (EvCompleteSession sid final_stats_dict (session_status s))
             (complete_export_session E sid final_stats_dict
                                      (session_status s))
      else ret tt
  | None => ret tt
  end.

(** The body of the [try] clause of [process]. *)
Definition process_try : M W unit :=
  parsed <- call EvParse (parse E) ;;
  modify (set_all_clippings parsed) ;;
  set_stat (with_total_processed (len parsed)) ;;
  _process_clippings parsed ;;
  s <- get ;;
  modify (set_session_status (status_ref s)).

(** The [except Exception as e] clause of [process]. *)
Definition process_except (e : exn) : M W unit :=
  modify (set_session_status "error") ;;
  s <- get ;;
  set_stat (with_failed_to_send
              (if truthy_list (all_clippings s) then len (all_clippings s)
               else total_processed (stats s))) ;;
  set_stat (with_new_sent 0) ;;
  raise (ProcessingError ("Processing failed: " +:+ exn_str e) e).

Definition process : M W ExportStats :=
  session_id <-
    (if negb dry_run then
       sid <- call (EvStartSession clippings_file)
                   (start_export_session E clippings_file) ;;
       ret (Some sid)
     else ret None) ;;
  modify (set_stats ExportStats_new) ;;
  modify (set_session_status "success") ;;
  modify (set_status_ref "success") ;;
  modify (set_all_clippings []) ;;
  try_except_finally process_try process_except
                     (_complete_process session_id) ;;
  s <- get ;;
  ret (stats s).

(** The loop of [get_pending_highlights] over [enumerate(clippings)]. *)
Fixpoint _pending_loop (clippings : list KindleClipping) (idx : Z)
    (pending_highlights : list PendingHighlight)
    : M W (list PendingHighlight) :=
  match clippings with
  | [] => ret pending_highlights
  | clipping :: rest =>
      found <- call (EvExists (key_of clipping))
                    (highlight_exists E (key_of clipping)) ;;
      if negb found then
        let highlight_dict :=
          mkPending (idx + 1) (title clipping)
                    (str_or (author clipping) "Unknown")
                    (content clipping)
                    (str_or (location clipping) "Unknown")
                    (str_or (date clipping) "Unknown")
                    clipping in
        _pending_loop rest (idx + 1) (pending_highlights ++ [highlight_dict])
      else _pending_loop rest (idx + 1) pending_highlights
  end.

Definition get_pending_highlights : M W (list PendingHighlight) :=
  clippings <- call EvParse (parse E) ;;
  _pending_loop clippings 0 [].

(** [{h["id"]: h for h in pending_highlights}]: a later entry overwrites an
    earlier one under the same id. *)
Definition id_to_highlight_of (pending_highlights : list PendingHighlight)
    : gmap Z PendingHighlight :=
  foldl (fun m h => <[ph_id h := h]> m) ∅ pending_highlights.

(** [[id_to_highlight[id] for id in selected_ids if id in id_to_highlight]]. *)
Definition select_highlights (id_to_highlight : gmap Z PendingHighlight)
    (selected_ids : list Z) : list PendingHighlight :=
  omap (fun id => id_to_highlight !! id) selected_ids.

Definition process_selected (selected_ids : list Z) : M W ExportStats :=
  parsed <- call EvParse (parse E) ;;
  pending_highlights <- get_pending_highlights ;;
  let id_to_highlight := id_to_highlight_of pending_highlights in
  let selected_highlights := select_highlights id_to_highlight selected_ids in
  let selected_clippings := original_clipping <$> selected_highlights in
  modify (set_stats ExportStats_new) ;;
  set_stat (with_total_processed (len parsed)) ;;
  set_stat (with_new_sent 0) ;;
  s <- get ;;
  set_stat (with_duplicates_skipped
              (total_processed (stats s) - len pending_highlights)) ;;
  set_stat (with_failed_to_send 0) ;;
  (if truthy_list selected_clippings then
     if dry_run then set_stat (with_new_sent (len selected_clippings))
     else
       export_result <- call (EvSend selected_clippings)
                             (send_highlights E selected_clippings) ;;
       let sent_count := dict_get0 export_result "sent" in
       set_stat (with_new_sent sent_count) ;;
       set_stat (with_failed_to_send (dict_get0 export_result "failed")) ;;
       if 0 <? sent_count
       then _save_exported_highlights (slice_to selected_clippings sent_count)
       else ret tt
   else ret tt) ;;
  s <- get ;;
  ret (stats s).

End Kindle2Readwise.

(** ** An in-memory world

    A concrete instance of the collaborators, used to run the pipeline on
    explicit inputs.  The world holds what the database holds: the ledger, as
    the list of keys saved so far, and the session log.  The configuration
    fixes everything else: whether the source file is there and what it
    parses to, whether the token is valid, how the sink answers a batch, and
    which records fail to save. *)
Module InMemory.

Record World := mkWorld {
  ledger : list DedupKey;
  sessions : list (Z * option (SessionStats * string))
}.

Record Config := mkConfig {
  file_present : bool;
  token_valid : bool;
  source : Res (list KindleClipping);
  sink : list KindleClipping -> Res (gmap string Z);
  save_fails : KindleClipping -> bool
}.

Definition env (cfg : Config) : Env World := {|
  file_exists w := file_present cfg;
  validate_token w := (Ok (token_valid cfg), w);
  parse w := (source cfg, w);
  highlight_exists k w := (Ok (bool_decide (k ∈ ledger w)), w);
  save_highlight c st w :=
    if save_fails cfg c
    then (Raise (External "StorageError" "save failed"), w)
    else (Ok tt, mkWorld (ledger w ++ [key_of c]) (sessions w));
  send_highlights b w := (sink cfg b, w);
  start_export_session src w :=
    let sid := len (sessions w) + 1 in
    (Ok sid, mkWorld (ledger w) (sessions w ++ [(sid, None)]));
  complete_export_session sid final st w :=
    (Ok tt, mkWorld (ledger w) (sessions w ++ [(sid, Some (final, st))]))
|}.

(** The answer of a sink that accepts the first [k] records of a batch. *)
Definition answer_first (k : Z) (b : list KindleClipping) : gmap string Z :=
  <["sent" := k]> (<["failed" := len b - k]> ∅).

Definition accept_first (k : Z) (b : list KindleClipping)
    : Res (gmap string Z) :=
  Ok (answer_first k b).

(** A sink that accepts every record. *)
Definition accept_all (b : list KindleClipping) : Res (gmap string Z) :=
  Ok (<["sent" := len b]> (<["failed" := 0]> ∅)).

(** A sink whose transport fails. *)
Definition unreachable (b : list KindleClipping) : Res (gmap string Z) :=
  Raise (External "DeliveryError" "connection refused").

(** A readable source with a valid token and a database that saves. *)
Definition config_of (cs : list KindleClipping)
    (snk : list KindleClipping -> Res (gmap string Z)) : Config :=
  mkConfig true true (Ok cs) snk (fun _ => false).

(** A database whose ledger holds [stored] and that has seen no session. *)
Definition start_with (stored : list DedupKey) : St World :=
  init_St (mkWorld stored []).

Definition clip (t c : string) : KindleClipping :=
  mkClipping t (Some "Author") c (Some "12") None.

(** What the ledger of a world knows. *)
Definition known (w : World) (k : DedupKey) : bool :=
  bool_decide (k ∈ ledger w).

Definition my_clippings : string := "My Clippings.txt".

Definition cA : KindleClipping := clip "Book" "alpha".
Definition cB : KindleClipping := clip "Book" "beta".
Definition cC : KindleClipping := clip "Book" "gamma".
Definition cEmpty : KindleClipping := clip "Book" "".

End InMemory.

(** ** Reading the log *)

Definition is_session (ev : event) : bool :=
  match ev with
  | EvStartSession _ _ | EvCompleteSession _ _ _ _ => true
  | _ => false
  end.

Definition is_complete (ev : event) : bool :=
  match ev with EvCompleteSession _ _ _ _ => true | _ => false end.

Definition is_send (ev : event) : bool :=
  match ev with EvSend _ _ => true | _ => false end.

Definition is_save (ev : event) : bool :=
  match ev with EvSave _ _ _ => true | _ => false end.

(** Events of the calls that a preview may make: parsing the source and
    looking a key up in the ledger. *)
Definition is_lookup (ev : event) : bool :=
  match ev with EvParse _ | EvExists _ _ => true | _ => false end.

(** A lookup that answered "absent": the record is pending. *)
Definition is_absent (ev : event) : bool :=
  match ev with EvExists _ (Ok false) => true | _ => false end.

(** The record and status of a save call. *)
Definition saved_of (ev : event) : option (KindleClipping * string) :=
  match ev with EvSave c st _ => Some (c, st) | _ => None end.

(** The key of a lookup. *)
Definition queried_of (ev : event) : option DedupKey :=
  match ev with EvExists k _ => Some k | _ => None end.

(** The statistics and status recorded into a session. *)
Definition recorded_of (ev : event) : option (SessionStats * string) :=
  match ev with EvCompleteSession _ f st _ => Some (f, st) | _ => None end.

Definition with_success (c : KindleClipping) : KindleClipping * string :=
  (c, "success").

(** The two run-style operations. *)
Inductive run_kind :=
| Process
| ProcessSelected (selected_ids : list Z).

Definition exec {W} (E : Env W) (clippings_file : string) (dry_run : bool)
    (rk : run_kind) : M W ExportStats :=
  match rk with
  | Process => process E clippings_file dry_run
  | ProcessSelected ids => process_selected E dry_run ids
  end.

(** The accounting bound of the specification. *)
Definition stats_bound (total sent dup failed : Z) : Prop :=
  sent + failed <= total - dup.

Definition stats_ok (x : ExportStats) : Prop :=
  stats_bound (total_processed x) (new_sent x) (duplicates_skipped x)
              (failed_to_send x).

Definition session_stats_ok (x : SessionStats) : Prop :=
  stats_bound (ss_total_processed x) (ss_sent x) (ss_duplicates x)
              (ss_failed x).

Definition session_of (x : ExportStats) : SessionStats :=
  mkSessionStats (total_processed x) (new_sent x) (duplicates_skipped x)
                 (failed_to_send x).

(** ** Traces of the loops *)

(** The records [_filter_duplicates] looks at: those with content. *)
Definition valid_clippings (cs : list KindleClipping) : list KindleClipping :=
  filter (fun c => truthy_str (content c) = true) cs.

(** The records without content. *)
Definition invalid_clippings (cs : list KindleClipping)
    : list KindleClipping :=
  filter (fun c => truthy_str (content c) = false) cs.

(** The elements whose lookup answered "absent". *)
Fixpoint absent_of {A} (xs : list A) (bs : list bool) : list A :=
  match xs, bs with
  | x :: xs', b :: bs' =>
      if b then absent_of xs' bs' else x :: absent_of xs' bs'
  | _, _ => []
  end.

(** The number of lookups that answered "found". *)
Definition count_found (bs : list bool) : Z :=
  len (filter (fun b => b = true) bs).

Definition lookup_events (cs : list KindleClipping) (bs : list bool)
    : list event :=
  zip_with (fun c b => EvExists (key_of c) (Ok b)) cs bs.

Definition save_events (cs : list KindleClipping) (rs : list (Res unit))
    : list event :=
  zip_with (fun c r => EvSave c "success" r) cs rs.

(** The descriptor [get_pending_highlights] builds for the record at index
    [idx] of the parsed list. *)
Definition highlight_dict_of (idx : Z) (clipping : KindleClipping)
    : PendingHighlight :=
  mkPending (idx + 1) (title clipping) (str_or (author clipping) "Unknown")
            (content clipping) (str_or (location clipping) "Unknown")
            (str_or (date clipping) "Unknown") clipping.

(** The pending view of a parsed list whose lookups answered [bs], counting
    indices from [idx]. *)
Fixpoint pending_view (cs : list KindleClipping) (bs : list bool) (idx : Z)
    : list PendingHighlight :=
  match cs, bs with
  | c :: cs', b :: bs' =>
      if b then pending_view cs' bs' (idx + 1)
      else highlight_dict_of idx c :: pending_view cs' bs' (idx + 1)
  | _, _ => []
  end.

(** The batch [process_selected] builds from a pending view. *)
Definition selected_clippings_of (pending : list PendingHighlight)
    (selected_ids : list Z) : list KindleClipping :=
  original_clipping <$>
    select_highlights (id_to_highlight_of pending) selected_ids.

(** The parts of the state that no collaborator touches. *)
Definition same_locals {W} (s s' : St W) : Prop :=
  stats s' = stats s /\ status_ref s' = status_ref s /\
  session_status s' = session_status s /\ all_clippings s' = all_clippings s.

(** [s'] extends the log of [s] by events that all satisfy [P], and by
    nothing else. *)
Definition extends {W} (P : event -> Prop) (s s' : St W) : Prop :=
  exists evs, log s' = log s ++ evs /\ Forall P evs.

(** Every run of [m] relates the state it starts in to the state it ends
    in, whether it returns or raises. *)
Definition respects {W A} (R : St W -> St W -> Prop) (m : M W A) : Prop :=
  forall s, R s (m s).2.

(** A step that leaves the world and the log alone. *)
Definition local_ok {W} (R : St W -> St W -> Prop) : Prop :=
  forall s s', world s' = world s -> log s' = log s -> R s s'.

(** A logged call of [f]. *)
Definition call_ok {W A} (R : St W -> St W -> Prop) (ev : Res A -> event)
    (f : W -> Res A * W) : Prop :=
  forall s r w',
    f (world s) = (r, w') -> R s (set_world w' (add_log (ev r) s)).

(** ** The shape of a run

    How far a run got, told by what its collaborators answered.  The stages
    are those of the pipeline: parsing, filtering, dispatching, persisting
    and, for [process], completing the session. *)

(** The end of dispatching and persisting. *)
Inductive dispatch_end :=
| NotSent
| SendRaised (e : exn)
| Sent (export_result : gmap string Z) (rs : list (Res unit)).

(** The slice of the batch that is saved after a send: by
    [_handle_real_export] and by [process_selected]. *)
Definition saved_slice_process (batch : list KindleClipping)
    (export_result : gmap string Z) : list KindleClipping :=
  slice_to batch (dict_get0 export_result "sent").

Definition saved_slice_selected (batch : list KindleClipping)
    (export_result : gmap string Z) : list KindleClipping :=
  if 0 <? dict_get0 export_result "sent"
  then slice_to batch (dict_get0 export_result "sent") else [].

Definition dispatch_events
    (slice : list KindleClipping -> gmap string Z -> list KindleClipping)
    (batch : list KindleClipping) (de : dispatch_end) : list event :=
  match de with
  | NotSent => []
  | SendRaised e => [EvSend batch (Raise e)]
  | Sent d rs => EvSend batch (Ok d) :: save_events (slice batch d) rs
  end.

Definition dispatch_wf
    (slice : list KindleClipping -> gmap string Z -> list KindleClipping)
    (dry_run : bool) (batch : list KindleClipping) (de : dispatch_end)
    : Prop :=
  match de with
  | NotSent => dry_run = true \/ batch = []
  | SendRaised _ => dry_run = false /\ batch <> []
  | Sent d rs =>
      dry_run = false /\ batch <> [] /\ length rs = length (slice batch d)
  end.

(** The end of the [try] clause of [process]. *)
Inductive try_end :=
| ParseRaised (e : exn)
| LookupRaised (cs pre : list KindleClipping) (c : KindleClipping)
               (bs : list bool) (e : exn)
| Filtered (cs : list KindleClipping) (bs : list bool) (de : dispatch_end).

Definition new_clippings_of (cs : list KindleClipping) (bs : list bool)
    : list KindleClipping :=
  absent_of (valid_clippings cs) bs.

Definition try_events (te : try_end) : list event :=
  match te with
  | ParseRaised e => [EvParse (Raise e)]
  | LookupRaised cs pre c bs e =>
      EvParse (Ok cs) :: lookup_events pre bs ++ [EvExists (key_of c) (Raise e)]
  | Filtered cs bs de =>
      EvParse (Ok cs) :: lookup_events (valid_clippings cs) bs ++
      dispatch_events saved_slice_process (new_clippings_of cs bs) de
  end.

Definition try_wf (dry_run : bool) (te : try_end) : Prop :=
  match te with
  | ParseRaised _ => True
  | LookupRaised cs pre c bs _ =>
      (exists post, valid_clippings cs = pre ++ c :: post) /\
      length bs = length pre
  | Filtered cs bs de =>
      length bs = length (valid_clippings cs) /\
      dispatch_wf saved_slice_process dry_run (new_clippings_of cs bs) de
  end.

(** The exception that left the [try] clause, if any. *)
Definition try_error (te : try_end) : option exn :=
  match te with
  | ParseRaised e | LookupRaised _ _ _ _ e | Filtered _ _ (SendRaised e) =>
      Some e
  | Filtered _ _ _ => None
  end.

(** The statistics once the [try] and [except] clauses are over. *)
Definition try_stats (te : try_end) : ExportStats :=
  match te with
  | ParseRaised _ => mkStats 0 0 0 0
  | LookupRaised cs _ _ _ _ => mkStats (len cs) 0 0 (len cs)
  | Filtered cs bs NotSent =>
      mkStats (len cs) (len (new_clippings_of cs bs)) (count_found bs) 0
  | Filtered cs bs (SendRaised _) =>
      mkStats (len cs) 0 (count_found bs) (len cs)
  | Filtered cs bs (Sent d _) =>
      mkStats (len cs) (dict_get0 d "sent") (count_found bs)
              (dict_get0 d "failed")
  end.

(** The local [session_status] once the [try] and [except] clauses are
    over. *)
Definition try_status (te : try_end) : string :=
  match te with
  | Filtered _ _ NotSent => "success"
  | Filtered _ _ (Sent d _) =>
      if 0 <? dict_get0 d "failed" then "partial" else "success"
  | _ => "error"
  end.

(** The end of [process]. *)
Inductive process_end :=
| StartRaised (e : exn)
| Ran (session_id : option Z) (te : try_end) (rc : Res unit).

Definition process_events (clippings_file : string) (pe : process_end)
    : list event :=
  match pe with
  | StartRaised e => [EvStartSession clippings_file (Raise e)]
  | Ran None te _ => try_events te
  | Ran (Some sid) te rc =>
      EvStartSession clippings_file (Ok sid) :: try_events te ++
      [EvCompleteSession sid (session_of (try_stats te)) (try_status te) rc]
  end.

Definition try_result (te : try_end) : Res ExportStats :=
  match try_error te with
  | Some e => Raise (ProcessingError ("Processing failed: " +:+ exn_str e) e)
  | None => Ok (try_stats te)
  end.

Definition process_result (pe : process_end) : Res ExportStats :=
  match pe with
  | StartRaised e => Raise e
  | Ran (Some _) _ (Raise e) => Raise e
  | Ran _ te _ => try_result te
  end.

Definition process_wf (dry_run : bool) (pe : process_end) : Prop :=
  match pe with
  | StartRaised _ => dry_run = false
  | Ran sid te _ =>
      (dry_run = true <-> sid = None) /\ try_wf dry_run te
  end.

(** The end of [process_selected]. *)
Inductive selected_end :=
| SelParseRaised (e : exn)
| SelReparseRaised (cs0 : list KindleClipping) (e : exn)
| SelLookupRaised (cs0 cs pre : list KindleClipping) (c : KindleClipping)
                  (bs : list bool) (e : exn)
| SelPending (cs0 cs : list KindleClipping) (bs : list bool)
             (de : dispatch_end).

Definition selected_events (ids : list Z) (se : selected_end) : list event :=
  match se with
  | SelParseRaised e => [EvParse (Raise e)]
  | SelReparseRaised cs0 e => [EvParse (Ok cs0); EvParse (Raise e)]
  | SelLookupRaised cs0 cs pre c bs e =>
      EvParse (Ok cs0) :: EvParse (Ok cs) :: lookup_events pre bs ++
      [EvExists (key_of c) (Raise e)]
  | SelPending cs0 cs bs de =>
      EvParse (Ok cs0) :: EvParse (Ok cs) :: lookup_events cs bs ++
      dispatch_events saved_slice_selected
        (selected_clippings_of (pending_view cs bs 0) ids) de
  end.

Definition selected_wf (dry_run : bool) (ids : list Z) (se : selected_end)
    : Prop :=
  match se with
  | SelParseRaised _ | SelReparseRaised _ _ => True
  | SelLookupRaised _ cs pre c bs _ =>
      (exists post, cs = pre ++ c :: post) /\ length bs = length pre
  | SelPending _ cs bs de =>
      length bs = length cs /\
      dispatch_wf saved_slice_selected dry_run
        (selected_clippings_of (pending_view cs bs 0) ids) de
  end.

Definition selected_result (ids : list Z) (se : selected_end)
    : Res ExportStats :=
  match se with
  | SelParseRaised e | SelReparseRaised _ e | SelLookupRaised _ _ _ _ _ e
  | SelPending _ _ _ (SendRaised e) => Raise e
  | SelPending cs0 cs bs NotSent =>
      Ok (mkStats (len cs0)
                  (len (selected_clippings_of (pending_view cs bs 0) ids))
                  (len cs0 - len (pending_view cs bs 0)) 0)
  | SelPending cs0 cs bs (Sent d _) =>
      Ok (mkStats (len cs0) (dict_get0 d "sent")
                  (len cs0 - len (pending_view cs bs 0))
                  (dict_get0 d "failed"))
  end.

(** ** Runs and their calls *)

(** The calls a computation makes when started in [s], in call order. *)
Definition events_of {W A} (m : M W A) (s : St W) : list event :=
  drop (length (log s)) (log (m s).2).

(** The pending view that [process_selected] computes when started in [s]:
    what [get_pending_highlights] returns after the first parse, if both
    return. *)
Definition pending_view_in {W} (E : Env W) (s : St W)
    : option (list PendingHighlight) :=
  match call EvParse (parse E) s with
  | (Ok _, s1) =>
      match get_pending_highlights E s1 with
      | (Ok pending, _) => Some pending
      | _ => None
      end
  | _ => None
  end.

Definition selected_pending (se : selected_end)
    : option (list PendingHighlight) :=
  match se with
  | SelPending _ cs bs _ => Some (pending_view cs bs 0)
  | _ => None
  end.

(** [id] is the id of an entry of the pending view. *)
Definition is_pending_id (view : option (list PendingHighlight)) (id : Z)
    : bool :=
  match view with
  | Some pending => bool_decide (id ∈ ph_id <$> pending)
  | None => false
  end.

(** A call whose exception aborts [process]: parsing, a lookup or the send.
    An exception of [save_highlight] is caught where it is raised. *)
Definition is_abort (ev : event) : bool :=
  match ev with
  | EvParse (Raise _) | EvExists _ (Raise _) | EvSend _ (Raise _) => true
  | _ => false
  end.

Definition abort_cause (ev : event) : option exn :=
  match ev with
  | EvParse (Raise e) | EvExists _ (Raise e) | EvSend _ (Raise e) => Some e
  | _ => None
  end.

(** The sink answered a batch of [n] records with two counts that add up to
    [n]. *)
Definition counts_ok (ev : event) : bool :=
  match ev with
  | EvSend b (Ok d) =>
      (0 <=? dict_get0 d "sent") && (0 <=? dict_get0 d "failed") &&
      (dict_get0 d "sent" + dict_get0 d "failed" =? len b)
  | _ => true
  end.

(** The sink did not answer with a negative count of failures. *)
Definition failed_count_ok (ev : event) : bool :=
  match ev with
  | EvSend b (Ok d) => 0 <=? dict_get0 d "failed"
  | _ => true
  end.

(** Modelled from the spec: the caller that sequences the methods of the
    pipeline object is outside [core.py].  Section 4.4 of the specification
    makes INIT, the validation of the preconditions, the first state of a
    run, before PARSING; [process] and [process_selected] do not validate
    by themselves. *)
Definition run {W} (E : Env W) (clippings_file : string) (dry_run : bool)
    (rk : run_kind) : M W ExportStats :=
  validate_setup E clippings_file dry_run ;;
  exec E clippings_file dry_run rk.

(** ** The contract of the ledger

    [highlight_exists] reads the ledger and reflects completed saves: it
    answers without raising and without changing the world, a save that
    returns makes its key known, and no call makes a known key unknown. *)
Record ledger_contract {W} (E : Env W) (stored : W -> DedupKey -> bool)
    : Prop := mkLedgerContract {
  lc_exists : forall k w, highlight_exists E k w = (Ok (stored w k), w);
  lc_save : forall c w w',
    save_highlight E c "success" w = (Ok tt, w') ->
    stored w' (key_of c) = true;
  lc_save_keeps : forall c w k,
    stored w k = true ->
    stored (save_highlight E c "success" w).2 k = true;
  lc_parse_keeps : forall w k,
    stored w k = true -> stored (parse E w).2 k = true;
  lc_send_keeps : forall b w k,
    stored w k = true -> stored (send_highlights E b w).2 k = true;
  lc_start_keeps : forall src w k,
    stored w k = true -> stored (start_export_session E src w).2 k = true;
  lc_complete_keeps : forall sid final st w k,
    stored w k = true ->
    stored (complete_export_session E sid final st w).2 k = true
}.

(** Nothing but the sink's verdict stands between a record and the ledger:
    the source parses to [cs] whenever it is read, the sink accepts every
    record of every batch, and the session calls and the saves return. *)
Record reliable {W} (E : Env W) (cs : list KindleClipping) : Prop :=
  mkReliable {
  rl_parse : forall w, (parse E w).1 = Ok cs;
  rl_send : forall b w, exists d,
    (send_highlights E b w).1 = Ok d /\
    dict_get0 d "sent" = len b /\ dict_get0 d "failed" = 0;
  rl_save : forall c w, (save_highlight E c "success" w).1 = Ok tt;
  rl_start : forall src w, exists sid,
    (start_export_session E src w).1 = Ok sid;
  rl_complete : forall sid final st w,
    (complete_export_session E sid final st w).1 = Ok tt
}.

(** What [start_export_session] answered to the run that ended in [pe]. *)
Definition started {W} (E : Env W) (clippings_file : string) (s : St W)
    (pe : process_end) : Prop :=
  match pe with
  | StartRaised e =>
      (start_export_session E clippings_file (world s)).1 = Raise e
  | Ran (Some sid) _ _ =>
      (start_export_session E clippings_file (world s)).1 = Ok sid
  | Ran None _ _ => True
  end.

(** What the calls of a computation do to a ledger under contract: known
    keys stay known; a save that returned, and a lookup answered "found",
    leave their key known; a lookup answered "absent" found its key
    unknown, and the key was unknown when the computation started. *)
Definition ledger_step {W} (stored : W -> DedupKey -> bool) (s s' : St W)
    : Prop :=
  (forall k, stored (world s) k = true -> stored (world s') k = true) /\
  exists evs, log s' = log s ++ evs /\
    (forall c, EvSave c "success" (Ok tt) ∈ evs ->
       stored (world s') (key_of c) = true) /\
    (forall k, EvExists k (Ok true) ∈ evs -> stored (world s') k = true) /\
    (forall k, EvExists k (Ok false) ∈ evs -> stored (world s) k = false).

(** The keys under which a run called [save_highlight], in call order. *)
Definition saved_keys (evs : list event) : list DedupKey :=
  (fun x => key_of x.1) <$> omap saved_of evs.

(** No two records of the input that can reach the sink share a key, and no
    id is selected twice. *)
Definition parsed_of (ev : event) : option (list KindleClipping) :=
  match ev with EvParse (Ok cs) => Some cs | _ => None end.

Definition distinct_input (rk : run_kind) (evs : list event) : Prop :=
  match rk with
  | Process =>
      Forall (fun cs => NoDup (key_of <$> valid_clippings cs))
             (omap parsed_of evs)
  | ProcessSelected ids =>
      Forall (fun cs => NoDup (key_of <$> cs)) (omap parsed_of evs) /\
      NoDup ids
  end.

(** The outcome an event records is one that the collaborator can produce in
    some world. *)
Definition possible {W} (E : Env W) (ev : event) : Prop :=
  match ev with
  | EvValidateToken r => exists w, (validate_token E w).1 = r
  | EvParse r => exists w, (parse E w).1 = r
  | EvExists k r => exists w, (highlight_exists E k w).1 = r
  | EvSend b r => exists w, (send_highlights E b w).1 = r
  | EvSave c st r => exists w, (save_highlight E c st w).1 = r
  | EvStartSession src r => exists w, (start_export_session E src w).1 = r
  | EvCompleteSession sid final st r =>
      exists w, (complete_export_session E sid final st w).1 = r
  end.

(** The key and the answer of a lookup that answered. *)
Definition answered_of (ev : event) : option (DedupKey * bool) :=
  match ev with EvExists k (Ok b) => Some (k, b) | _ => None end.

(** ** Stages and failures of a run *)


(** What a call raised, if it raised. *)
Definition raised_of (ev : event) : option exn :=
  match ev with
  | EvValidateToken (Raise e) | EvParse (Raise e) | EvExists _ (Raise e)
  | EvSend _ (Raise e) | EvSave _ _ (Raise e) | EvStartSession _ (Raise e)
  | EvCompleteSession _ _ _ (Raise e) => Some e
  | _ => None
  end.

(** A call that raised outside [_save_exported_highlights], the one place
    where the pipeline catches and drops an exception. *)
Definition is_fatal (ev : event) : bool :=
  match ev with
  | EvSave _ _ _ => false
  | _ => bool_decide (is_Some (raised_of ev))
  end.

(** A lookup that answered "found". *)
Definition is_found (ev : event) : bool :=
  match ev with EvExists _ (Ok true) => true | _ => false end.


(** The slice of a batch that a run saves once the sink has answered. *)
Definition saved_slice (rk : run_kind)
    : list KindleClipping -> gmap string Z -> list KindleClipping :=
  match rk with
  | Process => saved_slice_process
  | ProcessSelected _ => saved_slice_selected
  end.

(** ** Failing collaborators

    Variants of the in-memory world in which one collaborator raises. *)
Module Faulty.
Import InMemory.

Definition locked : exn := External "StorageError" "database is locked".

(** A database that cannot open a session. *)
Definition no_session_start (E : Env World) : Env World := {|
  file_exists := file_exists E;
  validate_token := validate_token E;
  parse := parse E;
  highlight_exists := highlight_exists E;
  save_highlight := save_highlight E;
  send_highlights := send_highlights E;
  start_export_session src w := (Raise locked, w);
  complete_export_session := complete_export_session E
|}.

(** A database that cannot close a session. *)
Definition no_session_end (E : Env World) : Env World := {|
  file_exists := file_exists E;
  validate_token := validate_token E;
  parse := parse E;
  highlight_exists := highlight_exists E;
  save_highlight := save_highlight E;
  send_highlights := send_highlights E;
  start_export_session := start_export_session E;
  complete_export_session sid final st w := (Raise locked, w)
|}.

(** A database whose lookups fail. *)
Definition no_lookup (E : Env World) : Env World := {|
  file_exists := file_exists E;
  validate_token := validate_token E;
  parse := parse E;
  highlight_exists k w := (Raise locked, w);
  save_highlight := save_highlight E;
  send_highlights := send_highlights E;
  start_export_session := start_export_session E;
  complete_export_session := complete_export_session E
|}.

End Faulty.

(** * Proofs *)

(** ** Relations that every step of a computation respects *)

Section Respects.
Context {W : Type}.
Variable R : St W -> St W -> Prop.
Context `{!PreOrder R}.

Lemma respects_ret {A} (a : A) : respects R (ret a).
Proof. intros s. simpl. reflexivity. Qed.

Lemma respects_raise {A} e : respects R (@raise W A e).
Proof. intros s. simpl. reflexivity. Qed.

Lemma respects_get : respects R (@get W).
Proof. intros s. simpl. reflexivity. Qed.

Lemma respects_bind {A B} (m : M W A) (k : A -> M W B) :
  respects R m -> (forall a, respects R (k a)) -> respects R (bind m k).
Proof.
  intros Hm Hk s. unfold bind. specialize (Hm s).
  destruct (m s) as [[a | e] s1]; simpl in *; [| done].
  etrans; [exact Hm | apply Hk].
Qed.

Lemma respects_try_except_pass {A} (m : M W A) :
  respects R m -> respects R (try_except_pass m).
Proof.
  intros Hm s. unfold try_except_pass. specialize (Hm s).
  by destruct (m s) as [[a | e] s1].
Qed.

Lemma respects_try_except_finally {A} (body : M W A) handler final :
  respects R body -> (forall e, respects R (handler e)) ->
  respects R final ->
  respects R (try_except_finally body handler final).
Proof.
  intros Hb Hh Hf s. unfold try_except_finally. specialize (Hb s).
  destruct (body s) as [r1 s1]; simpl in Hb.
  assert (H2 : R s
            (match r1 with Ok a => (Ok a, s1) | Raise e => handler e s1 end).2).
  { destruct r1 as [a | e]; [done |]. etrans; [exact Hb | apply Hh]. }
  destruct (match r1 with Ok a => (Ok a, s1) | Raise e => handler e s1 end)
    as [r2 s2]; simpl in H2.
  specialize (Hf s2). destruct (final s2) as [[u | e] s3]; simpl in Hf;
    etrans; eauto.
Qed.

Lemma respects_call {A} (ev : Res A -> event) f :
  call_ok R ev f -> respects R (call ev f).
Proof.
  intros H s. unfold call. destruct (f (world s)) as [r w'] eqn:Hf.
  simpl. by apply H.
Qed.

Hypothesis R_local : local_ok R.

Lemma respects_modify (f : St W -> St W) :
  (forall s, world (f s) = world s /\ log (f s) = log s) ->
  respects R (modify f).
Proof. intros H s. simpl. apply R_local; apply H. Qed.

Lemma respects_set_stat f : respects R (@set_stat W f).
Proof. apply respects_modify. intros s. by split. Qed.

End Respects.

(** Peels one layer of a computation when proving [respects]. *)
Ltac respects_step :=
  lazymatch goal with
  | |- respects _ (bind _ _) => apply respects_bind; [done | | intros ?]
  | |- respects _ (ret _) => by apply respects_ret
  | |- respects _ (raise _) => by apply respects_raise
  | |- respects _ get => by apply respects_get
  | |- respects _ (set_stat _) => by apply respects_set_stat
  | |- respects _ (modify _) =>
      apply respects_modify; try done; intros ?; by split
  | |- respects _ (try_except_pass _) => apply respects_try_except_pass; [done |]
  | |- respects _ (try_except_finally _ _ _) =>
      apply respects_try_except_finally; [done | | intros ? |]
  | |- respects _ (if ?b then _ else _) => destruct b
  | |- respects _ (match ?x with Some _ => _ | None => _ end) => destruct x
  | |- respects _ (let '(_, _) := ?x in _) => destruct x
  end.

(** ** Which relations each method respects *)

Section MethodsRespect.
Context {W : Type}.
Variable E : Env W.
Variable clippings_file : string.
Variable R : St W -> St W -> Prop.
Context `{!PreOrder R}.
Hypothesis R_local : local_ok R.

Hypothesis R_parse : call_ok R EvParse (parse E).
Hypothesis R_exists :
  forall k, call_ok R (EvExists k) (highlight_exists E k).

Lemma respects_filter_loop cs new d :
  respects R (_filter_duplicates_loop E cs new d).
Proof.
  revert new d. induction cs as [| c cs IH]; intros new d; simpl.
  - by apply respects_ret.
  - destruct (negb (truthy_str (content c))); [apply IH |].
    apply respects_bind; [done | by apply respects_call |].
    intros found. destruct found; apply IH.
Qed.

Lemma respects_pending_loop cs idx acc :
  respects R (_pending_loop E cs idx acc).
Proof.
  revert idx acc. induction cs as [| c cs IH]; intros idx acc; simpl.
  - by apply respects_ret.
  - apply respects_bind; [done | by apply respects_call |].
    intros found. destruct (negb found); apply IH.
Qed.

Lemma respects_get_pending_highlights :
  respects R (get_pending_highlights E).
Proof.
  unfold get_pending_highlights.
  apply respects_bind; [done | by apply respects_call |].
  intros cs. apply respects_pending_loop.
Qed.

(** In preview mode [process] only parses and looks keys up. *)
Lemma respects_process_dry_run :
  respects R (process E clippings_file true).
Proof.
  unfold process, process_try, process_except, _process_clippings,
    _complete_process, _filter_duplicates, _handle_dry_run_export. simpl.
  repeat first
    [ apply respects_filter_loop
    | by apply respects_call
    | respects_step ].
Qed.

(** In preview mode [process_selected] only parses and looks keys up. *)
Lemma respects_process_selected_dry_run ids :
  respects R (process_selected E true ids).
Proof.
  unfold process_selected. simpl.
  repeat first
    [ apply respects_get_pending_highlights
    | by apply respects_call
    | respects_step ].
Qed.

Hypothesis R_send :
  forall b, call_ok R (EvSend b) (send_highlights E b).
Hypothesis R_save :
  forall c, call_ok R (EvSave c "success") (save_highlight E c "success").

Lemma respects_save_loop cs n : respects R (_save_loop E cs n).
Proof.
  revert n. induction cs as [| c cs IH]; intros n; simpl.
  - by apply respects_ret.
  - apply respects_bind; [done | |].
    + apply respects_try_except_pass; try done. by apply respects_call.
    + intros [u |]; apply IH.
Qed.

Lemma respects_save_exported_highlights cs :
  respects R (_save_exported_highlights E cs).
Proof.
  unfold _save_exported_highlights.
  destruct (negb (truthy_list cs)); [by apply respects_ret |].
  apply respects_bind; [done | apply respects_save_loop |].
  intros. by apply respects_ret.
Qed.

(** In any mode [process_selected] parses, looks keys up, sends and
    saves, and calls nothing else. *)
Lemma respects_process_selected dry_run ids :
  respects R (process_selected E dry_run ids).
Proof.
  unfold process_selected.
  repeat first
    [ apply respects_get_pending_highlights
    | apply respects_save_exported_highlights
    | by apply respects_call
    | respects_step ].
Qed.

Hypothesis R_start :
  forall src, call_ok R (EvStartSession src) (start_export_session E src).
Hypothesis R_complete :
  forall sid final st,
    call_ok R (EvCompleteSession sid final st)
            (complete_export_session E sid final st).

Lemma respects_process dry_run :
  respects R (process E clippings_file dry_run).
Proof.
  unfold process, process_try, process_except, _process_clippings,
    _complete_process, _filter_duplicates, _handle_dry_run_export,
    _handle_real_export.
  repeat first
    [ apply respects_filter_loop
    | apply respects_save_exported_highlights
    | by apply respects_call
    | respects_step ].
Qed.

Lemma respects_exec dry_run rk :
  respects R (exec E clippings_file dry_run rk).
Proof.
  destruct rk; [apply respects_process | apply respects_process_selected].
Qed.

End MethodsRespect.

(** ** Extending the log *)

Section Extends.
Context {W : Type}.
Variable P : event -> Prop.

#[export] Instance extends_preorder : PreOrder (@extends W P).
Proof.
  split.
  - intros s. exists []. split; [by rewrite app_nil_r | constructor].
  - intros s1 s2 s3 (e1 & H1 & F1) (e2 & H2 & F2). exists (e1 ++ e2). split.
    + rewrite H2, H1. by rewrite <- app_assoc.
    + by apply Forall_app.
Qed.

Lemma extends_local : local_ok (@extends W P).
Proof.
  intros s s' _ Hlog. exists []. split; [by rewrite app_nil_r | constructor].
Qed.

Lemma extends_call {A} (ev : Res A -> event) (f : W -> Res A * W) :
  (forall r, P (ev r)) -> call_ok (extends P) ev f.
Proof.
  intros H s r w' _. exists [ev r]. split; [reflexivity |].
  constructor; [apply H | constructor].
Qed.

End Extends.

(** ** Traces of the loops *)

Section Traces.
Context {W : Type}.
Variable E : Env W.

Lemma valid_clippings_cons_true c cs :
  truthy_str (content c) = true ->
  valid_clippings (c :: cs) = c :: valid_clippings cs.
Proof.
  intros H. unfold valid_clippings. by rewrite filter_cons, decide_True.
Qed.

Lemma valid_clippings_cons_false c cs :
  truthy_str (content c) = false ->
  valid_clippings (c :: cs) = valid_clippings cs.
Proof.
  intros H. unfold valid_clippings. rewrite filter_cons, decide_False; [done |].
  by rewrite H.
Qed.

Lemma count_found_cons b bs :
  count_found (b :: bs) = (if b then 1 else 0) + count_found bs.
Proof.
  unfold count_found, len. rewrite filter_cons.
  destruct b; [rewrite decide_True by done | rewrite decide_False by done];
    simpl; lia.
Qed.

#[export] Instance same_locals_preorder : PreOrder (@same_locals W).
Proof.
  split.
  - intros s. by repeat split.
  - intros s1 s2 s3. unfold same_locals.
    intros (-> & -> & -> & ->) (-> & -> & -> & ->). done.
Qed.

Lemma call_inv {A} (ev : Res A -> event) f (s : St W) r s' :
  call ev f s = (r, s') ->
  exists w', f (world s) = (r, w') /\ s' = set_world w' (add_log (ev r) s).
Proof.
  unfold call. destruct (f (world s)) as [r0 w'] eqn:Hf.
  intros [= <- <-]. by exists w'.
Qed.

Lemma same_locals_call {A} (ev : Res A -> event) (f : W -> Res A * W) :
  call_ok same_locals ev f.
Proof. intros s r w' _. by repeat split. Qed.

Lemma filter_loop_locals cs new d :
  respects same_locals (_filter_duplicates_loop E cs new d).
Proof.
  apply respects_filter_loop; try apply _. intros k. apply same_locals_call.
Qed.

Lemma pending_loop_locals cs idx acc :
  respects same_locals (_pending_loop E cs idx acc).
Proof.
  apply respects_pending_loop; try apply _. intros k. apply same_locals_call.
Qed.

Lemma filter_loop_ok cs : forall new d (s : St W) new' d' s',
  _filter_duplicates_loop E cs new d s = (Ok (new', d'), s') ->
  exists bs,
    length bs = length (valid_clippings cs) /\
    log s' = log s ++ lookup_events (valid_clippings cs) bs /\
    new' = new ++ absent_of (valid_clippings cs) bs /\
    d' = d + count_found bs.
Proof.
  induction cs as [| c cs IH]; intros new d s new' d' s'.
  - simpl. intros [= <- <- <-]. exists []. simpl.
    rewrite !app_nil_r. unfold count_found, len. simpl.
    repeat split; try reflexivity; lia.
  - cbn [_filter_duplicates_loop].
    destruct (truthy_str (content c)) eqn:Hc; cbn [negb].
    + rewrite (valid_clippings_cons_true _ _ Hc). unfold bind.
      destruct (call _ _ s) as [[found | e] s1] eqn:Hcall; [| done].
      apply call_inv in Hcall as (w' & _ & ->).
      intros H. destruct found; apply IH in H as (bs & Hlen & Hlog & -> & ->).
      * exists (true :: bs). rewrite Hlog, count_found_cons. simpl.
        rewrite <- !app_assoc. repeat split; auto with lia.
      * exists (false :: bs). rewrite Hlog, count_found_cons. simpl.
        rewrite <- !app_assoc. repeat split; auto with lia.
    + rewrite (valid_clippings_cons_false _ _ Hc). apply IH.
Qed.

Lemma filter_loop_raise cs : forall new d (s : St W) e s',
  _filter_duplicates_loop E cs new d s = (Raise e, s') ->
  exists pre c post bs,
    valid_clippings cs = pre ++ c :: post /\
    length bs = length pre /\
    log s' = log s ++ lookup_events pre bs ++ [EvExists (key_of c) (Raise e)].
Proof.
  induction cs as [| c cs IH]; intros new d s e s'; [done |].
  cbn [_filter_duplicates_loop].
  destruct (truthy_str (content c)) eqn:Hc; cbn [negb].
  - rewrite (valid_clippings_cons_true _ _ Hc). unfold bind.
    destruct (call _ _ s) as [[found | e0] s1] eqn:Hcall.
    + apply call_inv in Hcall as (w' & _ & ->). intros H.
      assert (exists new1 d1,
                _filter_duplicates_loop E cs new1 d1
                  (set_world w' (add_log (EvExists (key_of c) (Ok found)) s))
                = (Raise e, s')) as (new1 & d1 & H1).
      { destruct found; eauto. }
      apply IH in H1 as (pre & c1 & post & bs & Hv & Hlen & Hlog).
      exists (c :: pre), c1, post, (found :: bs). rewrite Hv, Hlog. simpl.
      rewrite <- !app_assoc. repeat split; auto with lia.
    + apply call_inv in Hcall as (w' & _ & ->). intros [= <- <-].
      exists [], c, (valid_clippings cs), []. simpl. repeat split.
  - rewrite (valid_clippings_cons_false _ _ Hc). apply IH.
Qed.

Lemma pending_loop_ok cs : forall idx acc (s : St W) pending s',
  _pending_loop E cs idx acc s = (Ok pending, s') ->
  exists bs,
    length bs = length cs /\
    log s' = log s ++ lookup_events cs bs /\
    pending = acc ++ pending_view cs bs idx.
Proof.
  induction cs as [| c cs IH]; intros idx acc s pending s'.
  - simpl. intros [= <- <-]. exists []. simpl. by rewrite !app_nil_r.
  - cbn [_pending_loop]. unfold bind.
    destruct (call _ _ s) as [[found | e] s1] eqn:Hcall; [| done].
    apply call_inv in Hcall as (w' & _ & ->).
    intros H. destruct found; cbn [negb] in H;
      apply IH in H as (bs & Hlen & Hlog & ->).
    + exists (true :: bs). rewrite Hlog. simpl.
      rewrite <- !app_assoc. repeat split; auto with lia.
    + exists (false :: bs). rewrite Hlog. simpl.
      rewrite <- !app_assoc. repeat split; auto with lia.
Qed.

Lemma pending_loop_raise cs : forall idx acc (s : St W) e s',
  _pending_loop E cs idx acc s = (Raise e, s') ->
  exists pre c post bs,
    cs = pre ++ c :: post /\
    length bs = length pre /\
    log s' = log s ++ lookup_events pre bs ++ [EvExists (key_of c) (Raise e)].
Proof.
  induction cs as [| c cs IH]; intros idx acc s e s'; [done |].
  cbn [_pending_loop]. unfold bind.
  destruct (call _ _ s) as [[found | e0] s1] eqn:Hcall.
  - apply call_inv in Hcall as (w' & _ & ->). intros H.
    assert (exists acc1,
              _pending_loop E cs (idx + 1) acc1
                (set_world w' (add_log (EvExists (key_of c) (Ok found)) s))
              = (Raise e, s')) as (acc1 & H1).
    { destruct found; cbn [negb] in H; eauto. }
    apply IH in H1 as (pre & c1 & post & bs & Hv & Hlen & Hlog).
    exists (c :: pre), c1, post, (found :: bs). rewrite Hv, Hlog. simpl.
    rewrite <- !app_assoc. repeat split; auto with lia.
  - apply call_inv in Hcall as (w' & _ & ->). intros [= <- <-].
    exists [], c, cs, []. simpl. repeat split.
Qed.

Lemma save_loop_spec cs : forall n (s : St W),
  exists n' rs s',
    _save_loop E cs n s = (Ok n', s') /\
    length rs = length cs /\
    log s' = log s ++ save_events cs rs /\
    same_locals s s'.
Proof.
  induction cs as [| c cs IH]; intros n s; simpl.
  - exists n, [], s. simpl. rewrite app_nil_r. by repeat split.
  - unfold bind, try_except_pass.
    destruct (call _ _ s) as [r s1] eqn:Hcall.
    apply call_inv in Hcall as (w' & _ & ->).
    destruct r as [u | e].
    + destruct (IH (n + 1) (set_world w' (add_log (EvSave c "success" (Ok u)) s)))
        as (n' & rs & s' & Hrun & Hlen & Hlog & Hl).
      exists n', (Ok u :: rs), s'. rewrite Hrun.
      split; [done |]. split; [simpl; by f_equal |]. split.
      * rewrite Hlog. simpl. by rewrite <- app_assoc.
      * exact Hl.
    + destruct (IH n (set_world w' (add_log (EvSave c "success" (Raise e)) s)))
        as (n' & rs & s' & Hrun & Hlen & Hlog & Hl).
      exists n', (Raise e :: rs), s'. rewrite Hrun.
      split; [done |]. split; [simpl; by f_equal |]. split.
      * rewrite Hlog. simpl. by rewrite <- app_assoc.
      * exact Hl.
Qed.

Lemma save_exported_highlights_spec cs (s : St W) :
  exists rs s',
    _save_exported_highlights E cs s = (Ok tt, s') /\
    length rs = length cs /\
    log s' = log s ++ save_events cs rs /\
    same_locals s s'.
Proof.
  unfold _save_exported_highlights. destruct cs as [| c cs].
  - exists [], s. simpl. rewrite app_nil_r. by repeat split.
  - cbn [truthy_list negb]. unfold bind.
    destruct (save_loop_spec (c :: cs) 0 s)
      as (n' & rs & s' & Hrun & Hlen & Hlog & Hl).
    exists rs, s'. rewrite Hrun. by split; [| split; [| split]].
Qed.

Lemma save_if_any_spec cs (s : St W) :
  exists rs s',
    (if truthy_list cs then _save_exported_highlights E cs else ret tt) s
    = (Ok tt, s') /\
    length rs = length cs /\
    log s' = log s ++ save_events cs rs /\
    same_locals s s'.
Proof.
  destruct cs as [| c cs]; [| apply save_exported_highlights_spec].
  exists [], s. simpl. rewrite app_nil_r. by repeat split.
Qed.

End Traces.

(** ** The shape of [process] *)

(** Unfolds the state updates of a run. *)
Ltac st_simpl :=
  cbn [world log stats status_ref session_status all_clippings
       set_world add_log set_stats set_status_ref set_session_status
       set_all_clippings set_stat modify get ret raise bind
       with_total_processed with_new_sent with_duplicates_skipped
       with_failed_to_send total_processed new_sent duplicates_skipped
       failed_to_send fst snd] in *.

Section ProcessShape.
Context {W : Type}.
Variable E : Env W.
Variable clippings_file : string.
Variable dry_run : bool.

Lemma process_try_shape (s : St W) :
  stats s = ExportStats_new -> status_ref s = "success" ->
  all_clippings s = [] ->
  exists te, try_wf dry_run te /\
    let '(r1, s1) := process_try E dry_run s in
    log s1 = log s ++ try_events te /\
    match r1 with
    | Ok _ =>
        try_error te = None /\ stats s1 = try_stats te /\
        status_ref s1 = try_status te /\ session_status s1 = status_ref s1
    | Raise e =>
        try_error te = Some e /\ try_status te = "error" /\
        with_new_sent 0
          (with_failed_to_send
             (if truthy_list (all_clippings s1) then len (all_clippings s1)
              else total_processed (stats s1)) (stats s1)) = try_stats te
    end.
Proof.
  intros Hst Hsr Hac. unfold process_try.
  unfold bind at 1.
  destruct (call EvParse (parse E) s) as [[cs | e] s1] eqn:Hparse;
    apply call_inv in Hparse as (w1 & _ & ->).
  2:{ exists (ParseRaised e). split; [done |]. st_simpl.
      rewrite Hac, Hst. by repeat split. }
  st_simpl. unfold _process_clippings, _filter_duplicates, bind.
  match goal with
  | |- context [_filter_duplicates_loop E cs [] 0 ?s0] =>
      pose proof (filter_loop_locals E cs [] 0 s0) as Hloc;
      destruct (_filter_duplicates_loop E cs [] 0 s0)
        as [[[new d] | e] s2] eqn:Hf
  end.
  2:{ apply filter_loop_raise in Hf as (pre & c & post & bs & Hv & Hlen & Hlog).
      exists (LookupRaised cs pre c bs e). split; [split; eauto |].
      destruct Hloc as (Hs & _ & _ & Ha). st_simpl.
      rewrite Hlog, Ha, Hs, Hst. st_simpl. rewrite <- app_assoc.
      repeat split. by destruct cs. }
  apply filter_loop_ok in Hf as (bs & Hlen & Hlog & -> & ->).
  destruct Hloc as (Hs & Hr & Hss & Ha). st_simpl.
  rewrite app_nil_l in *. fold (new_clippings_of cs bs) in *.
  rewrite Z.add_0_l, Hs, Hst. rewrite <- app_assoc in Hlog.
  destruct (truthy_list (new_clippings_of cs bs)) eqn:Hnew.
  2:{ exists (Filtered cs bs NotSent).
      assert (Hnil : new_clippings_of cs bs = [])
        by (by destruct (new_clippings_of cs bs)).
      split; [split; [done | by right] |]. st_simpl.
      rewrite Hlog, Hr, Hsr, Hnil. simpl. rewrite ?Hnil, app_nil_r.
      by repeat split. }
  destruct dry_run eqn:Hdry.
  { exists (Filtered cs bs NotSent). split; [split; [done | by left] |].
    unfold _handle_dry_run_export. st_simpl.
    rewrite Hlog, Hr, Hsr. simpl. rewrite app_nil_r. by repeat split. }
  assert (Hne : new_clippings_of cs bs <> [])
    by (by destruct (new_clippings_of cs bs)).
  unfold _handle_real_export, bind.
  match goal with
  | |- context [call ?ev ?f ?s0] =>
      destruct (call ev f s0) as [[d | e] s3] eqn:Hsend;
      apply call_inv in Hsend as (w3 & _ & ->)
  end.
  2:{ exists (Filtered cs bs (SendRaised e)). split; [by repeat split |].
      st_simpl. rewrite Hlog, Ha. simpl. rewrite <- app_assoc.
      repeat split. by destruct cs. }
  st_simpl.
  destruct (0 <? dict_get0 d "failed") eqn:Hfail; st_simpl.
  all: match goal with
       | |- context [(if truthy_list ?sl then _ else _) ?s0] =>
           destruct (save_if_any_spec E sl s0)
             as (rs & s4 & Hrun & Hlenrs & Hlog4 & Hs4 & Hr4 & Hss4 & Ha4);
           rewrite Hrun
       end.
  all: exists (Filtered cs bs (Sent d rs)); split; [by repeat split |].
  all: st_simpl; rewrite Hlog4, Hs4, Hr4; st_simpl; rewrite Hlog; simpl.
  all: rewrite Hfail, ?Hr, ?Hsr, <- !app_assoc; by repeat split.
Qed.

Lemma process_shape_let (s : St W) :
  exists pe, process_wf dry_run pe /\ started E clippings_file s pe /\
    let '(r, s') := process E clippings_file dry_run s in
    r = process_result pe /\
    log s' = log s ++ process_events clippings_file pe.
Proof.
  unfold process. destruct dry_run eqn:Hdry; cbn [negb].
  - unfold bind at 1. cbn [ret]. unfold bind, try_except_finally. st_simpl.
    match goal with
    | |- context [process_try E true ?s0] =>
        destruct (process_try_shape s0) as (te & Hwf & H); try done;
        rewrite Hdry in H;
        destruct (process_try E true s0) as [[u | e] s1]
    end.
    + destruct H as (Hlog & Herr & Hstats & _). st_simpl.
      exists (Ran None te (Ok tt)). rewrite Hdry in Hwf.
      split; [by split |]. split; [done |]. simpl. unfold try_result.
      rewrite Herr, Hstats. by split.
    + destruct H as (Hlog & Herr & _ & Hstats). unfold process_except.
      st_simpl. exists (Ran None te (Ok tt)). rewrite Hdry in Hwf.
      split; [by split |]. split; [done |]. simpl. unfold try_result.
      rewrite Herr. by split.
  - unfold bind at 1. unfold bind at 1.
    destruct (call _ _ s) as [[sid | e] s0] eqn:Hstart;
      apply call_inv in Hstart as (w0 & Hstart & ->).
    2:{ exists (StartRaised e). simpl. rewrite Hstart. by repeat split. }
    cbn [ret]. unfold bind, try_except_finally. st_simpl.
    match goal with
    | |- context [process_try E false ?s0] =>
        destruct (process_try_shape s0) as (te & Hwf & H); try done;
        rewrite Hdry in H;
        destruct (process_try E false s0) as [[u | e] s1]
    end.
    + destruct H as (Hlog & Herr & Hstats & Hsr & Hss). st_simpl.
      unfold _complete_process, bind. cbn [negb]. st_simpl.
      match goal with
      | |- context [call ?ev ?f ?s0] =>
          destruct (call ev f s0) as [rc s3] eqn:Hc;
          apply call_inv in Hc as (w3 & _ & ->)
      end.
      exists (Ran (Some sid) te rc). rewrite Hdry in Hwf.
      split; [by split |]. split; [simpl; by rewrite Hstart |].
      destruct rc; st_simpl; rewrite Hlog, Hss, Hsr, Hstats; simpl;
        rewrite <- !app_assoc; unfold try_result; rewrite ?Herr; by split.
    + destruct H as (Hlog & Herr & Hst & Hstats). unfold process_except.
      st_simpl. unfold _complete_process, bind. cbn [negb]. st_simpl.
      match goal with
      | |- context [call ?ev ?f ?s0] =>
          destruct (call ev f s0) as [rc s3] eqn:Hc;
          apply call_inv in Hc as (w3 & _ & ->)
      end.
      exists (Ran (Some sid) te rc). rewrite Hdry in Hwf.
      split; [by split |]. split; [simpl; by rewrite Hstart |].
      unfold with_new_sent, with_failed_to_send, session_of in *.
      destruct rc; st_simpl; rewrite Hlog; simpl;
        rewrite <- !app_assoc; unfold try_result; rewrite ?Herr, Hst;
        rewrite <- Hstats; by split.
Qed.

Theorem process_shape (s : St W) :
  exists pe, process_wf dry_run pe /\ started E clippings_file s pe /\
    (process E clippings_file dry_run s).1 = process_result pe /\
    log (process E clippings_file dry_run s).2 =
      log s ++ process_events clippings_file pe.
Proof.
  destruct (process_shape_let s) as (pe & Hwf & Hst & H). exists pe.
  split; [done |]. split; [done |].
  by destruct (process E clippings_file dry_run s).
Qed.

End ProcessShape.

(** ** The shape of [process_selected] *)

Section SelectedShape.
Context {W : Type}.
Variable E : Env W.
Variable dry_run : bool.

Lemma process_selected_shape_let ids (s : St W) :
  exists se, selected_wf dry_run ids se /\
    pending_view_in E s = selected_pending se /\
    let '(r, s') := process_selected E dry_run ids s in
    r = selected_result ids se /\
    log s' = log s ++ selected_events ids se.
Proof.
  unfold process_selected, pending_view_in, get_pending_highlights, bind.
  destruct (call EvParse (parse E) s) as [[cs0 | e] s1] eqn:Hparse;
    apply call_inv in Hparse as (w1 & _ & ->).
  2:{ by exists (SelParseRaised e). }
  match goal with
  | |- context [call ?ev ?f ?s0] =>
      destruct (call ev f s0) as [[cs | e] s2] eqn:Hre;
      apply call_inv in Hre as (w2 & _ & ->)
  end.
  2:{ exists (SelReparseRaised cs0 e). st_simpl. simpl.
      rewrite <- app_assoc. by repeat split. }
  match goal with
  | |- context [_pending_loop E cs 0 [] ?s0] =>
      destruct (_pending_loop E cs 0 [] s0) as [[pending | e] s3] eqn:Hp
  end.
  2:{ apply pending_loop_raise in Hp as (pre & c & post & bs & Hv & Hlen & Hlog).
      exists (SelLookupRaised cs0 cs pre c bs e). split; [split; eauto |].
      st_simpl. rewrite Hlog. st_simpl. rewrite <- !app_assoc. by split. }
  apply pending_loop_ok in Hp as (bs & Hlen & Hlog & ->).
  rewrite app_nil_l. st_simpl. rewrite <- !app_assoc in Hlog.
  fold (selected_clippings_of (pending_view cs bs 0) ids).
  set (sel := selected_clippings_of (pending_view cs bs 0) ids) in *.
  st_simpl.
  destruct (truthy_list sel) eqn:Hsel.
  2:{ exists (SelPending cs0 cs bs NotSent).
      assert (Hnil : sel = []) by (by destruct sel).
      split; [split; [done | by right] |]. split; [done |].
      st_simpl. simpl. fold sel.
      rewrite Hlog, Hnil. simpl. rewrite app_nil_r. by split. }
  assert (Hne : sel <> []) by (by destruct sel).
  destruct dry_run eqn:Hdry.
  { exists (SelPending cs0 cs bs NotSent).
    split; [split; [done | by left] |]. split; [done |].
    st_simpl. simpl. fold sel.
    rewrite Hlog. simpl. rewrite app_nil_r. by split. }
  match goal with
  | |- context [call ?ev ?f ?s0] =>
      destruct (call ev f s0) as [[d | e] s4] eqn:Hsend;
      apply call_inv in Hsend as (w4 & _ & ->)
  end.
  2:{ exists (SelPending cs0 cs bs (SendRaised e)). split; [by repeat split |].
      split; [done |].
      st_simpl. simpl. fold sel. rewrite Hlog. simpl.
      rewrite <- !app_assoc. by split. }
  st_simpl. destruct (0 <? dict_get0 d "sent") eqn:Hpos.
  - match goal with
    | |- context [_save_exported_highlights E ?sl ?s0] =>
        destruct (save_exported_highlights_spec E sl s0)
          as (rs & s5 & Hrun & Hlenrs & Hlog5 & Hs5 & _);
        rewrite Hrun
    end.
    exists (SelPending cs0 cs bs (Sent d rs)). fold sel.
    split.
    { split; [done |]. split; [done |]. split; [done |].
      unfold saved_slice_selected. by rewrite Hpos. }
    split; [done |].
    st_simpl. rewrite Hlog5, Hs5. st_simpl. rewrite Hlog. simpl. fold sel.
    unfold saved_slice_selected. rewrite Hpos, <- !app_assoc. by split.
  - exists (SelPending cs0 cs bs (Sent d [])). fold sel.
    split.
    { split; [done |]. split; [done |]. split; [done |].
      unfold saved_slice_selected. by rewrite Hpos. }
    split; [done |].
    st_simpl. rewrite Hlog. simpl. fold sel.
    unfold saved_slice_selected. rewrite Hpos, <- !app_assoc. by split.
Qed.

Theorem process_selected_shape ids (s : St W) :
  exists se, selected_wf dry_run ids se /\
    pending_view_in E s = selected_pending se /\
    (process_selected E dry_run ids s).1 = selected_result ids se /\
    log (process_selected E dry_run ids s).2 =
      log s ++ selected_events ids se.
Proof.
  destruct (process_selected_shape_let ids s) as (se & Hwf & Hpv & H).
  exists se. split; [done |]. split; [done |].
  by destruct (process_selected E dry_run ids s).
Qed.

End SelectedShape.

(** ** Reading the traces *)

Section Reading.
Context {W : Type}.

Lemma events_of_app {A} (m : M W A) (s : St W) evs :
  log (m s).2 = log s ++ evs -> events_of m s = evs.
Proof. intros H. unfold events_of. rewrite H. apply drop_app_length. Qed.

Lemma events_of_extends {A} (P : event -> Prop) (m : M W A) (s : St W) :
  respects (extends P) m -> Forall P (events_of m s).
Proof.
  intros H. destruct (H s) as (evs & Hlog & HP).
  by rewrite (events_of_app _ _ _ Hlog).
Qed.

Lemma saved_of_lookup_events cs bs :
  omap saved_of (lookup_events cs bs) = [].
Proof.
  revert bs. induction cs as [| c cs IH]; intros [| b bs]; simpl; auto.
Qed.

Lemma saved_of_save_events cs : forall rs,
  length rs = length cs ->
  omap saved_of (save_events cs rs) = with_success <$> cs.
Proof.
  induction cs as [| c cs IH]; intros [| r rs] Hlen; simpl in *; try done.
  f_equal. apply IH. lia.
Qed.

Lemma Forall_lookup_events (P : event -> Prop) cs bs :
  (forall k b, P (EvExists k (Ok b))) -> Forall P (lookup_events cs bs).
Proof.
  intros HP. revert bs.
  induction cs as [| c cs IH]; intros [| b bs]; simpl; constructor; auto.
Qed.

Lemma Forall_save_events (P : event -> Prop) cs rs :
  (forall c r, P (EvSave c "success" r)) -> Forall P (save_events cs rs).
Proof.
  intros HP. revert rs.
  induction cs as [| c cs IH]; intros [| r rs]; simpl; constructor; auto.
Qed.

Lemma absent_lookup_events {A} (f : A -> DedupKey) (xs : list A) : forall bs,
  length (filter (fun ev => is_absent ev = true)
                 (zip_with (fun x b => EvExists (f x) (Ok b)) xs bs))
  = length (absent_of xs bs).
Proof.
  induction xs as [| x xs IH]; intros [| b bs]; simpl; try done.
  rewrite filter_cons. case_decide as Hd; destruct b; simpl in Hd; try done.
  simpl. f_equal. apply IH.
Qed.

Lemma absent_of_count {A} (xs : list A) : forall bs,
  length bs = length xs ->
  len (absent_of xs bs) + count_found bs = len xs.
Proof.
  induction xs as [| x xs IH]; intros [| b bs] Hlen; simpl in *; try done.
  rewrite count_found_cons. specialize (IH bs). unfold len in *.
  destruct b; simpl; lia.
Qed.

Lemma absent_of_sublist {A} (xs : list A) bs : absent_of xs bs `sublist_of` xs.
Proof.
  revert bs. induction xs as [| x xs IH]; intros [| b bs]; simpl.
  - constructor.
  - constructor.
  - apply sublist_nil_l.
  - destruct b; [apply sublist_cons | apply sublist_skip]; apply IH.
Qed.

Lemma valid_clippings_sublist cs : valid_clippings cs `sublist_of` cs.
Proof. apply sublist_filter. Qed.

Lemma new_clippings_sublist cs bs : new_clippings_of cs bs `sublist_of` cs.
Proof.
  unfold new_clippings_of.
  etrans; [apply absent_of_sublist | apply valid_clippings_sublist].
Qed.

Lemma valid_invalid_length cs :
  len (valid_clippings cs) = len cs - len (invalid_clippings cs).
Proof.
  unfold valid_clippings, invalid_clippings, len.
  induction cs as [| c cs IH]; [done |].
  rewrite !filter_cons.
  destruct (truthy_str (content c)); repeat case_decide; try done;
    simpl; lia.
Qed.

End Reading.

(** ** Selecting from the pending view *)

Section Selection.

Lemma id_to_highlight_fold pending : forall (m : gmap Z PendingHighlight) id,
  is_Some (foldl (fun m h => <[ph_id h := h]> m) m pending !! id) <->
  is_Some (m !! id) \/ id ∈ ph_id <$> pending.
Proof.
  induction pending as [| h pending IH]; intros m id; simpl.
  - rewrite elem_of_nil. tauto.
  - rewrite IH, elem_of_cons, lookup_insert_is_Some.
    destruct (decide (ph_id h = id)) as [Heq | Hne].
    + split; [intros _; right; by left | intros _; left; by left].
    + split.
      * intros [[? | [_ ?]] | ?]; [done | by left | right; by right].
      * intros [? | [? | ?]]; [left; right; by split | done | by right].
Qed.

Lemma id_to_highlight_is_Some pending id :
  is_Some (id_to_highlight_of pending !! id) <-> id ∈ ph_id <$> pending.
Proof.
  unfold id_to_highlight_of. rewrite id_to_highlight_fold.
  rewrite lookup_empty. split; [intros [[? [=]] | ?]; done | by right].
Qed.

(** Ids outside the pending view select nothing. *)
Lemma select_highlights_filter pending ids :
  select_highlights (id_to_highlight_of pending) ids =
  select_highlights (id_to_highlight_of pending)
    (filter (fun id => is_pending_id (Some pending) id = true) ids).
Proof.
  unfold select_highlights.
  induction ids as [| id ids IH]; [done |].
  rewrite filter_cons. simpl.
  destruct (id_to_highlight_of pending !! id) as [h |] eqn:Hl.
  - rewrite decide_True.
    + simpl. rewrite Hl. by f_equal.
    + apply bool_decide_eq_true, id_to_highlight_is_Some. by rewrite Hl.
  - rewrite decide_False; [done |].
    rewrite bool_decide_eq_true, <- id_to_highlight_is_Some, Hl.
    by intros [? [=]].
Qed.

Lemma select_highlights_length pending ids :
  length (select_highlights (id_to_highlight_of pending) ids) =
  length (filter (fun id => is_pending_id (Some pending) id = true) ids).
Proof.
  unfold select_highlights.
  induction ids as [| id ids IH]; [done |].
  rewrite filter_cons. simpl.
  destruct (id_to_highlight_of pending !! id) as [h |] eqn:Hl.
  - rewrite decide_True.
    + simpl. by f_equal.
    + apply bool_decide_eq_true, id_to_highlight_is_Some. by rewrite Hl.
  - rewrite decide_False; [done |].
    rewrite bool_decide_eq_true, <- id_to_highlight_is_Some, Hl.
    by intros [? [=]].
Qed.

End Selection.

(** ** Selective export keeps no session and ignores foreign ids *)

Section SelectedClaims.
Context {W : Type}.
Variable E : Env W.
Variable dry_run : bool.

Lemma process_selected_ignores_foreign_ids ids (s : St W) :
  process_selected E dry_run ids s =
  process_selected E dry_run
    (filter (fun id => is_pending_id (pending_view_in E s) id = true) ids) s.
Proof.
  unfold process_selected, pending_view_in, bind.
  destruct (call EvParse (parse E) s) as [[cs0 | e] s1]; [| done].
  destruct (get_pending_highlights E s1) as [[pending | e] s2]; [| done].
  by rewrite <- select_highlights_filter.
Qed.

(** C10: [process_selected], in either mode, never calls
    [start_export_session] or [complete_export_session]; what it reports
    is the [ExportStats] it returns.  A selected id that is not the id of
    an entry of the current pending view changes nothing: the run ends in
    the same result and the same state, with the same counts, as the run
    on the selection without that id, and raises nothing of its own. *)
Theorem C10_selected_keeps_no_session ids (s : St W) :
  Forall (fun ev => is_session ev = false)
         (events_of (process_selected E dry_run ids) s) /\
  process_selected E dry_run ids s =
  process_selected E dry_run
    (filter (fun id => is_pending_id (pending_view_in E s) id = true) ids) s.
Proof.
  split; [| apply process_selected_ignores_foreign_ids].
  apply events_of_extends.
  apply respects_process_selected; try apply _.
  - apply extends_local.
  - by apply extends_call.
  - intros k. by apply extends_call.
  - intros b. by apply extends_call.
  - intros c. by apply extends_call.
Qed.

End SelectedClaims.

(** ** Preview runs *)

Section Preview.
Context {W : Type}.
Variable E : Env W.
Variable clippings_file : string.

Lemma pending_view_length cs : forall bs idx,
  length (pending_view cs bs idx) = length (absent_of cs bs).
Proof.
  induction cs as [| c cs IH]; intros [| b bs] idx; simpl; try done.
  destruct b; simpl; by rewrite IH.
Qed.

Lemma preview_only_looks_up rk :
  respects (extends (fun ev => is_lookup ev = true))
           (exec E clippings_file true rk).
Proof.
  destruct rk as [| ids]; simpl.
  - apply respects_process_dry_run; try apply _.
    + apply extends_local.
    + by apply extends_call.
    + intros k. by apply extends_call.
  - apply respects_process_selected_dry_run; try apply _.
    + apply extends_local.
    + by apply extends_call.
    + intros k. by apply extends_call.
Qed.

Lemma preview_process_stats (s : St W) st :
  (process E clippings_file true s).1 = Ok st ->
  failed_to_send st = 0 /\
  new_sent st =
    len (filter (fun ev => is_absent ev = true)
                (events_of (process E clippings_file true) s)).
Proof.
  destruct (process_shape E clippings_file true s)
    as (pe & Hwf & _ & Hr & Hlog).
  rewrite (events_of_app _ _ _ Hlog), Hr. clear Hr Hlog.
  destruct pe as [e | sid te rc]; [done |].
  destruct Hwf as [[Hsid _] Hwf]. rewrite Hsid by done. simpl.
  unfold try_result.
  destruct te as [e | cs pre c bs e | cs bs [| e | d rs]]; simpl; try done.
  - intros [= <-]. simpl. split; [done |].
    rewrite app_nil_r, filter_cons, decide_False by done.
    unfold len, new_clippings_of, lookup_events.
    by rewrite absent_lookup_events.
  - by destruct Hwf as (_ & ? & _).
Qed.

Lemma preview_selected_stats ids (s : St W) st :
  (process_selected E true ids s).1 = Ok st ->
  failed_to_send st = 0 /\
  exists pending,
    pending_view_in E s = Some pending /\
    len pending =
      len (filter (fun ev => is_absent ev = true)
                  (events_of (process_selected E true ids) s)) /\
    new_sent st =
      len (filter (fun id => is_pending_id (Some pending) id = true) ids).
Proof.
  destruct (process_selected_shape E true ids s)
    as (se & Hwf & Hpv & Hr & Hlog).
  rewrite (events_of_app _ _ _ Hlog), Hr, Hpv. clear Hr Hlog Hpv.
  destruct se as [e | cs0 e | cs0 cs pre c bs e | cs0 cs bs [| e | d rs]];
    simpl; try done.
  - intros [= <-]. simpl. split; [done |].
    exists (pending_view cs bs 0). split; [done |].
    rewrite app_nil_r, !filter_cons, !decide_False by done.
    unfold len, selected_clippings_of, lookup_events.
    rewrite absent_lookup_events, pending_view_length, length_fmap.
    by rewrite select_highlights_length.
  - by destruct Hwf as (_ & ? & _).
Qed.

(** C3, as amended: a run in preview mode, [process] or
    [process_selected], never calls [start_export_session],
    [complete_export_session], [send_highlights] or [save_highlight].
    When it returns, [failed_to_send] is 0; in [process], [new_sent] is
    the pending count the run computed, the number of lookups answered
    "absent"; in [process_selected], [new_sent] is the number of selected
    ids that are ids of the pending view, not the size of that view. *)
Theorem C3_preview_makes_no_change rk (s : St W) :
  Forall (fun ev => is_session ev = false /\ is_send ev = false /\
                    is_save ev = false)
         (events_of (exec E clippings_file true rk) s) /\
  forall st, (exec E clippings_file true rk s).1 = Ok st ->
    failed_to_send st = 0 /\
    match rk with
    | Process =>
        new_sent st =
          len (filter (fun ev => is_absent ev = true)
                      (events_of (exec E clippings_file true rk) s))
    | ProcessSelected ids =>
        exists pending,
          pending_view_in E s = Some pending /\
          len pending =
            len (filter (fun ev => is_absent ev = true)
                        (events_of (exec E clippings_file true rk) s)) /\
          new_sent st =
            len (filter (fun id => is_pending_id (Some pending) id = true)
                        ids)
    end.
Proof.
  split.
  - eapply Forall_impl; [apply events_of_extends, preview_only_looks_up |].
    by intros [].
  - intros st Hst. destruct rk as [| ids]; simpl in *.
    + by apply preview_process_stats.
    + by apply preview_selected_stats.
Qed.

End Preview.

(** ** The pending view *)

Section PendingView.
Context {W : Type}.
Variable E : Env W.

Lemma pending_view_originals (f : KindleClipping -> bool) cs : forall idx,
  original_clipping <$> pending_view cs (f <$> cs) idx =
  filter (fun c => f c = false) cs.
Proof.
  induction cs as [| c cs IH]; intros idx; [done |].
  simpl. rewrite filter_cons.
  destruct (f c) eqn:Hf; case_decide; try done; simpl; by rewrite IH.
Qed.

Lemma pending_view_positions cs : forall bs idx h,
  h ∈ pending_view cs bs idx ->
  exists i : nat,
    cs !! i = Some (original_clipping h) /\
    ph_id h = idx + Z.of_nat i + 1 /\
    h = highlight_dict_of (idx + Z.of_nat i) (original_clipping h).
Proof.
  induction cs as [| c cs IH]; intros [| b bs] idx h; simpl;
    try (by intros ?%elem_of_nil).
  intros Hin.
  assert (h = highlight_dict_of idx c \/ h ∈ pending_view cs bs (idx + 1))
    as [-> | Hin'].
  { destruct b; [by right | by apply elem_of_cons in Hin]. }
  - exists 0%nat. simpl. rewrite Z.add_0_r. by repeat split.
  - apply IH in Hin' as (i & Hl & Hid & Hh). exists (S i). simpl.
    split; [done |]. split; [lia |].
    rewrite Hh at 1. f_equal. lia.
Qed.

Lemma pending_view_sorted cs : forall bs idx,
  StronglySorted Z.lt (ph_id <$> pending_view cs bs idx).
Proof.
  induction cs as [| c cs IH]; intros [| b bs] idx; simpl;
    try constructor.
  destruct b; [apply IH |]. simpl. constructor; [apply IH |].
  apply Forall_forall. intros id (h & -> & Hin)%list_elem_of_fmap.
  apply pending_view_positions in Hin as (i & _ & -> & _). lia.
Qed.

(** While the ledger stands still, the loop of [get_pending_highlights]
    computes the pending view of the parsed list. *)
Lemma pending_loop_fixed_ledger (ex : DedupKey -> bool) w cs :
  (forall k, highlight_exists E k w = (Ok (ex k), w)) ->
  forall idx acc (s : St W),
    world s = w ->
    exists s',
      _pending_loop E cs idx acc s =
        (Ok (acc ++ pending_view cs ((fun c => ex (key_of c)) <$> cs) idx),
         s') /\
      world s' = w.
Proof.
  intros Hex. induction cs as [| c cs IH]; intros idx acc s Hw.
  - exists s. simpl. by rewrite app_nil_r.
  - cbn [_pending_loop]. unfold bind, call. rewrite Hw, Hex.
    destruct (ex (key_of c)) eqn:Hc; cbn [negb].
    + edestruct (IH (idx + 1) acc) as (s' & -> & Hw'); [done |].
      exists s'. split; [| done]. simpl. by rewrite Hc.
    + edestruct (IH (idx + 1) (acc ++ [highlight_dict_of idx c]))
        as (s' & -> & Hw'); [done |].
      exists s'. split; [| done]. simpl. rewrite Hc.
      by rewrite <- app_assoc.
Qed.

(** C7, as amended: for a source that parses to [cs] and a ledger that
    answers [ex], [get_pending_highlights] returns one descriptor per
    parsed record that the ledger does not hold, in parse order.  The id
    of a descriptor is the 1-based position of its record in the parsed
    list, not its position in the pending view: ids increase strictly but
    skip the positions of stored records.  A source of 3 records of
    which 1 is stored yields exactly 2 descriptors; their ids are 1,2
    only when the stored record is the last one, and 2,3 or 1,3 when it
    is the first or the second. *)
Theorem C7_pending_ids_are_parse_positions (ex : DedupKey -> bool)
    (s : St W) cs w :
  parse E (world s) = (Ok cs, w) ->
  (forall k, highlight_exists E k w = (Ok (ex k), w)) ->
  exists pending s',
    get_pending_highlights E s = (Ok pending, s') /\
    original_clipping <$> pending =
      filter (fun c => ex (key_of c) = false) cs /\
    (forall h, h ∈ pending ->
       1 <= ph_id h <= len cs /\
       cs !! Z.to_nat (ph_id h - 1) = Some (original_clipping h) /\
       h = highlight_dict_of (ph_id h - 1) (original_clipping h)) /\
    StronglySorted Z.lt (ph_id <$> pending) /\
    (forall c1 c2 c3,
       cs = [c1; c2; c3] ->
       length (filter (fun c => ex (key_of c) = true) cs) = 1%nat ->
       length pending = 2%nat /\
       ph_id <$> pending =
         if ex (key_of c1) then [2; 3]
         else if ex (key_of c2) then [1; 3] else [1; 2]).
Proof.
  intros Hparse Hex. unfold get_pending_highlights, bind, call.
  rewrite Hparse.
  destruct (pending_loop_fixed_ledger ex w cs Hex 0 []
              (set_world w (add_log (EvParse (Ok cs)) s)) eq_refl)
    as (s' & Hrun & _).
  rewrite app_nil_l in Hrun.
  eexists _, s'. split; [exact Hrun |].
  split; [apply pending_view_originals |].
  split; [| split; [apply pending_view_sorted |]].
  - intros h Hin.
    apply pending_view_positions in Hin as (i & Hl & Hid & Hh).
    assert (i < length cs)%nat by (by eapply lookup_lt_Some).
    unfold len. replace (ph_id h - 1) with (Z.of_nat i) by lia.
    rewrite Nat2Z.id. split; [lia |]. split; [done |].
    by rewrite Z.add_0_l in Hh.
  - intros c1 c2 c3 -> Hone. revert Hone. simpl.
    rewrite !filter_cons, filter_nil.
    destruct (ex (key_of c1)), (ex (key_of c2)), (ex (key_of c3));
      repeat case_decide; try done.
Qed.

End PendingView.

(** ** The session of [process] *)

Section Session.
Context {W : Type}.
Variable E : Env W.
Variable clippings_file : string.

Lemma Forall_dispatch_events (P : event -> Prop) slice batch de :
  (forall b r, P (EvSend b r)) -> (forall c r, P (EvSave c "success" r)) ->
  Forall P (dispatch_events slice batch de).
Proof.
  intros Hsend Hsave. destruct de as [| e | d rs]; simpl.
  - constructor.
  - constructor; [apply Hsend | constructor].
  - constructor; [apply Hsend | by apply Forall_save_events].
Qed.

Lemma Forall_try_events (P : event -> Prop) te :
  (forall r, P (EvParse r)) -> (forall k r, P (EvExists k r)) ->
  (forall b r, P (EvSend b r)) -> (forall c r, P (EvSave c "success" r)) ->
  Forall P (try_events te).
Proof.
  intros Hparse Hex Hsend Hsave.
  destruct te as [e | cs pre c bs e | cs bs de]; simpl.
  - constructor; [apply Hparse | constructor].
  - constructor; [apply Hparse |]. apply Forall_app. split.
    + apply Forall_lookup_events. intros; apply Hex.
    + constructor; [apply Hex | constructor].
  - constructor; [apply Hparse |]. apply Forall_app. split.
    + apply Forall_lookup_events. intros; apply Hex.
    + by apply Forall_dispatch_events.
Qed.

Lemma abort_cause_lookup_events cs bs :
  omap abort_cause (lookup_events cs bs) = [].
Proof.
  revert bs. induction cs as [| c cs IH]; intros [| b bs]; simpl; auto.
Qed.

Lemma abort_cause_save_events cs rs :
  omap abort_cause (save_events cs rs) = [].
Proof.
  revert rs. induction cs as [| c cs IH]; intros [| r rs]; simpl; auto.
Qed.

(** The calls of the [try] clause hold the exception that aborted it, and
    no other. *)
Lemma abort_cause_try_events te :
  omap abort_cause (try_events te) = option_list (try_error te).
Proof.
  destruct te as [e | cs pre c bs e | cs bs [| e | d rs]]; simpl;
    rewrite ?omap_app, ?abort_cause_lookup_events; simpl;
    rewrite ?abort_cause_save_events; done.
Qed.

Lemma is_abort_cause ev : is_abort ev = true <-> is_Some (abort_cause ev).
Proof.
  destruct ev as [r | r | k r | b r | c st r | src r | sid f st r];
    try destruct r; simpl; split; try done; by intros [? [=]].
Qed.

Lemma Exists_abort evs :
  Exists (fun ev => is_abort ev = true) evs <-> omap abort_cause evs <> [].
Proof.
  induction evs as [| ev evs IH]; simpl.
  - rewrite Exists_nil. tauto.
  - rewrite Exists_cons, IH, is_abort_cause.
    destruct (abort_cause ev) as [e |]; split; try done.
    + intros _. left. by eexists.
    + intros [[? [=]] | ?]; done.
    + intros ?. by right.
Qed.

(** C4, as amended: in a run of [process] outside preview mode in which
    [start_export_session] returned a session id,
    [complete_export_session] is called exactly once, for that id, as the
    last call of the run, before [process] returns or raises.  The status
    it records is "error" exactly when an exception aborted processing,
    "partial" exactly when nothing aborted and [failed_to_send] is
    positive, and "success" exactly when nothing aborted and
    [failed_to_send] is not positive: that is [failed_to_send = 0] when
    the sink did not answer with a negative count of failures.  What
    [process] then does depends on the completion call.  When it returns
    and an exception had aborted processing, [process] raises a
    [ProcessingError] whose cause is that exception; when it returns and
    nothing had aborted, [process] returns the statistics that were
    recorded.  When the completion call raises, [process] raises that
    exception instead of either. *)
Theorem C4_session_completed_once (s : St W) sid w :
  start_export_session E clippings_file (world s) = (Ok sid, w) ->
  exists evs final status rc,
    events_of (process E clippings_file false) s =
      EvStartSession clippings_file (Ok sid) :: evs ++
      [EvCompleteSession sid final status rc] /\
    Forall (fun ev => is_complete ev = false) evs /\
    (status = "error" <-> Exists (fun ev => is_abort ev = true) evs) /\
    (status = "partial" <->
       ~ Exists (fun ev => is_abort ev = true) evs /\ 0 < ss_failed final) /\
    (status = "success" <->
       ~ Exists (fun ev => is_abort ev = true) evs /\ ss_failed final <= 0) /\
    (Forall (fun ev => failed_count_ok ev = true) evs ->
     (status = "success" <->
        ~ Exists (fun ev => is_abort ev = true) evs /\ ss_failed final = 0))
    /\
    (forall e, e ∈ omap abort_cause evs ->
       omap abort_cause evs = [e] /\
       (rc = Ok tt ->
        (process E clippings_file false s).1 =
          Raise (ProcessingError ("Processing failed: " +:+ exn_str e) e)))
    /\
    (~ Exists (fun ev => is_abort ev = true) evs -> rc = Ok tt ->
       exists st, (process E clippings_file false s).1 = Ok st /\
                  session_of st = final) /\
    (forall e, rc = Raise e ->
       (process E clippings_file false s).1 = Raise e).
Proof.
  intros Hstart.
  destruct (process_shape E clippings_file false s)
    as (pe & Hwf & Hst & Hr & Hlog).
  apply events_of_app in Hlog. rewrite Hlog in *. rewrite Hr. clear Hr Hlog.
  destruct pe as [e | [sid' |] te rc]; simpl in Hst;
    rewrite ?Hstart in Hst; simpl in Hst; try done.
  2:{ destruct Hwf as [[_ Hn] _]. by specialize (Hn eq_refl). }
  injection Hst as <-. destruct Hwf as [_ Hwf].
  exists (try_events te), (session_of (try_stats te)), (try_status te), rc.
  split; [done |]. split; [by apply Forall_try_events |].
  rewrite !Exists_abort, abort_cause_try_events.
  assert (Hrc : forall e, rc = Raise e ->
            process_result (Ran (Some sid) te rc) = Raise e)
    by (by intros e ->).
  destruct te as [e | cs pre c bs e | cs bs [| e | d rs]];
    cbn [try_error try_status try_stats session_of ss_failed failed_to_send
         option_list].
  1,2,4:
    (split; [split; [by intros _ | done] |];
     split; [split; [done | by intros [[] _]] |];
     split; [split; [done | by intros [[] _]] |];
     split; [intros _; split; [done | by intros [[] _]] |];
     split; [intros e0 ->%list_elem_of_singleton;
             split; [done | by intros ->] |];
     split; [by intros [] | done]).
  - split; [split; [done | intros H; by destruct H] |].
    split; [split; [done | intros [_ ?]; lia] |].
    split; [split; [intros _; split; [intros H; by apply H | done] | done] |].
    split; [intros _; split;
              [intros _; split; [intros H; by apply H | done] | done] |].
    split; [by intros ? ?%elem_of_nil |].
    split; [| done]. intros _ ->. by eexists.
  - destruct (0 <? dict_get0 d "failed") eqn:Hpos;
      [apply Z.ltb_lt in Hpos | apply Z.ltb_ge in Hpos].
    + split; [split; [done | intros H; by destruct H] |].
      split; [split; [intros _; split; [intros H; by apply H | done] | done] |].
      split; [split; [done | intros [_ ?]; lia] |].
      split; [intros _; split; [done | intros [_ ?]; lia] |].
      split; [by intros ? ?%elem_of_nil |].
      split; [| done]. intros _ ->. by eexists.
    + split; [split; [done | intros H; by destruct H] |].
      split; [split; [done | intros [_ ?]; lia] |].
      split; [split; [intros _; split; [intros H; by apply H | done] | done] |].
      split.
      { intros Hcounts. simpl in Hcounts.
        apply Forall_cons in Hcounts as [_ Hcounts].
        apply Forall_app in Hcounts as [_ Hcounts].
        apply Forall_cons in Hcounts as [Hf _]. simpl in Hf.
        apply Z.leb_le in Hf.
        split; [intros _; split; [intros H; by apply H | lia] | done]. }
      split; [by intros ? ?%elem_of_nil |].
      split; [| done]. intros _ ->. by eexists.
Qed.

End Session.

(** ** Validation *)

Section Validation.
Context {W : Type}.
Variable E : Env W.
Variable clippings_file : string.
Variable dry_run : bool.

Lemma validate_setup_missing_file (s : St W) :
  file_exists E (world s) = false ->
  validate_setup E clippings_file dry_run s =
    (Raise (ValidationError ("Clippings file not found: " +:+ clippings_file)),
     s).
Proof. intros H. unfold validate_setup, bind, get. by rewrite H. Qed.

Lemma validate_setup_invalid_token (s : St W) :
  file_exists E (world s) = true -> dry_run = false ->
  (validate_token E (world s)).1 = Ok false ->
  validate_setup E clippings_file dry_run s =
    (Raise (ValidationError "Invalid Readwise API token."),
     set_world (validate_token E (world s)).2
               (add_log (EvValidateToken (Ok false)) s)).
Proof.
  intros Hf -> Ht. unfold validate_setup, bind, get, call. rewrite Hf.
  cbn [negb]. destruct (validate_token E (world s)) as [r w'].
  simpl in Ht. by subst r.
Qed.

(** C5: a run starts by validating its preconditions.  When the source
    file does not exist, or when, outside preview mode, the token is not
    valid, the run fails with a [ValidationError] whose message names
    that precondition.  It fails inside [validate_setup]: in the first
    case no collaborator has been called and the state is the one the run
    started in; in the second the only call made is [validate_token].  No
    session is opened, nothing is sent and nothing is saved. *)
Theorem C5_validation_precedes_run rk (s : St W) :
  file_exists E (world s) = false \/
  (dry_run = false /\ (validate_token E (world s)).1 = Ok false) ->
  exists msg s',
    run E clippings_file dry_run rk s = (Raise (ValidationError msg), s') /\
    validate_setup E clippings_file dry_run s =
      (Raise (ValidationError msg), s') /\
    (file_exists E (world s) = false /\
     msg = "Clippings file not found: " +:+ clippings_file /\ s' = s
     \/
     file_exists E (world s) = true /\
     msg = "Invalid Readwise API token." /\
     s' = set_world (validate_token E (world s)).2
                    (add_log (EvValidateToken (Ok false)) s)) /\
    Forall (fun ev => is_session ev = false /\ is_send ev = false /\
                      is_save ev = false)
           (events_of (run E clippings_file dry_run rk) s).
Proof.
  intros Hunmet.
  destruct (file_exists E (world s)) eqn:Hfile.
  - destruct Hunmet as [? | [Hdry Htoken]]; [done |].
    pose proof (validate_setup_invalid_token s Hfile Hdry Htoken) as Hv.
    eexists _, _. unfold events_of, run, bind. rewrite Hv.
    split; [done |]. split; [done |]. split; [by right |].
    simpl. rewrite drop_app_length. by repeat constructor.
  - pose proof (validate_setup_missing_file s Hfile) as Hv.
    eexists _, _. unfold events_of, run, bind. rewrite Hv.
    split; [done |]. split; [done |]. split; [by left |].
    simpl. rewrite drop_all. constructor.
Qed.

End Validation.

(** ** The accounting bound *)

Section Accounting.
Context {W : Type}.
Variable E : Env W.
Variable clippings_file : string.
Variable dry_run : bool.

Lemma selected_le_pending pending ids :
  NoDup ids ->
  len (selected_clippings_of pending ids) <= len pending.
Proof.
  intros Hnd. unfold len, selected_clippings_of.
  rewrite length_fmap, select_highlights_length.
  apply inj_le.
  rewrite <- (length_fmap ph_id pending).
  apply submseteq_length, NoDup_submseteq; [by apply NoDup_filter |].
  intros id [Hin _]%list_elem_of_filter. simpl in Hin.
  by apply bool_decide_eq_true in Hin.
Qed.

Lemma counts_ok_send b d :
  counts_ok (EvSend b (Ok d)) = true ->
  0 <= dict_get0 d "sent" /\ 0 <= dict_get0 d "failed" /\
  dict_get0 d "sent" + dict_get0 d "failed" = len b.
Proof.
  simpl. rewrite !andb_true_iff, !Z.leb_le, Z.eqb_eq. tauto.
Qed.

Lemma dispatch_counts slice batch d rs evs :
  Forall (fun ev => counts_ok ev = true)
         (evs ++ dispatch_events slice batch (Sent d rs)) ->
  0 <= dict_get0 d "sent" /\ 0 <= dict_get0 d "failed" /\
  dict_get0 d "sent" + dict_get0 d "failed" = len batch.
Proof.
  intros [_ H]%Forall_app. simpl in H.
  apply Forall_cons in H as [H _]. by apply counts_ok_send.
Qed.

Lemma new_clippings_count cs bs :
  length bs = length (valid_clippings cs) ->
  len (new_clippings_of cs bs) + count_found bs <= len cs.
Proof.
  intros Hlen. unfold new_clippings_of.
  rewrite (absent_of_count _ _ Hlen).
  pose proof (sublist_length _ _ (valid_clippings_sublist cs)).
  unfold len. lia.
Qed.

(** The statistics of a [try] clause that nothing aborted keep the
    bound. *)
Lemma try_stats_ok te :
  try_wf dry_run te -> try_error te = None ->
  Forall (fun ev => counts_ok ev = true) (try_events te) ->
  stats_ok (try_stats te).
Proof.
  destruct te as [e | cs pre c bs e | cs bs [| e | d rs]]; try done.
  - intros [Hlen _] _ _. unfold stats_ok, stats_bound. simpl.
    pose proof (new_clippings_count cs bs Hlen). lia.
  - intros [Hlen _] _ Hc. unfold stats_ok, stats_bound. simpl in *.
    apply Forall_cons in Hc as [_ Hc].
    apply dispatch_counts in Hc as (_ & _ & Hsum).
    pose proof (new_clippings_count cs bs Hlen). lia.
Qed.

(** The statistics that the [except] clause leaves behind. *)
Lemma try_stats_error te e :
  try_error te = Some e ->
  try_status te = "error" /\ new_sent (try_stats te) = 0 /\
  failed_to_send (try_stats te) = total_processed (try_stats te).
Proof. by destruct te as [? | ? ? ? ? ? | ? ? [| ? | ? ?]]. Qed.

Lemma try_status_error te :
  try_status te = "error" -> is_Some (try_error te).
Proof.
  destruct te as [? | ? ? ? ? ? | ? ? [| ? | d ?]]; simpl; try done.
  by destruct (0 <? dict_get0 d "failed").
Qed.

Lemma recorded_of_try_events te : omap recorded_of (try_events te) = [].
Proof.
  induction (Forall_try_events (fun ev => recorded_of ev = None) te)
    as [| ev evs Hev _ IH]; try done.
  simpl. by rewrite Hev.
Qed.

Lemma recorded_of_selected_events ids se :
  omap recorded_of (selected_events ids se) = [].
Proof.
  assert (Forall (fun ev => recorded_of ev = None) (selected_events ids se))
    as H.
  { destruct se as [e | cs0 e | cs0 cs pre c bs e | cs0 cs bs de]; simpl;
      repeat first
        [ done
        | apply Forall_cons; split
        | apply Forall_app; split
        | apply Forall_lookup_events
        | apply Forall_dispatch_events
        | apply Forall_nil ]. }
  induction H as [| ev evs Hev _ IH]; [done |]. simpl. by rewrite Hev.
Qed.

(** C6, as amended: take a run, [process] or [process_selected], in which
    the sink, if it answered, answered a batch of [n] records with two
    counts that add up to [n], and in which no id was selected twice.
    The [ExportStats] that the run returns satisfies
    [new_sent + failed_to_send <= total_processed - duplicates_skipped],
    and so do the statistics recorded into the session when nothing
    aborted the run.  When an exception aborted [process], the session
    records [new_sent = 0] and [failed_to_send = total_processed] next to
    the duplicates counted so far; the bound is not claimed there. *)
Theorem C6_stats_bound rk (s : St W) :
  Forall (fun ev => counts_ok ev = true)
         (events_of (exec E clippings_file dry_run rk) s) ->
  match rk with Process => True | ProcessSelected ids => NoDup ids end ->
  (forall st, (exec E clippings_file dry_run rk s).1 = Ok st -> stats_ok st)
  /\
  (forall final status,
     (final, status) ∈
       omap recorded_of (events_of (exec E clippings_file dry_run rk) s) ->
     (status <> "error" -> session_stats_ok final) /\
     (status = "error" ->
        ss_sent final = 0 /\ ss_failed final = ss_total_processed final)).
Proof.
  intros Hcounts Hids. destruct rk as [| ids]; simpl in *.
  - destruct (process_shape E clippings_file dry_run s)
      as (pe & Hwf & _ & Hr & Hlog).
    apply events_of_app in Hlog. rewrite Hlog in *. rewrite Hr.
    clear Hr Hlog.
    destruct pe as [e | [sid |] te rc]; simpl in *.
    + split; [done |]. by intros ? ? ?%elem_of_nil.
    + destruct Hwf as [_ Hwf].
      apply Forall_cons in Hcounts as [_ Hcounts].
      apply Forall_app in Hcounts as [Hcounts _].
      rewrite omap_app, recorded_of_try_events. simpl. split.
      * intros st. destruct rc; [| done]. unfold try_result.
        destruct (try_error te) eqn:Herr; [done |]. intros [= <-].
        by eapply try_stats_ok.
      * intros final status Hin%list_elem_of_singleton.
        injection Hin as -> ->. split.
        -- intros Hne. destruct (try_error te) eqn:Herr.
           ++ by apply try_stats_error in Herr as [? _].
           ++ by apply (try_stats_ok te).
        -- intros [e Herr]%try_status_error.
           by apply try_stats_error in Herr as (_ & ? & ?).
    + destruct Hwf as [_ Hwf]. rewrite recorded_of_try_events. split.
      * intros st. unfold try_result.
        destruct (try_error te) eqn:Herr; [done |]. intros [= <-].
        by eapply try_stats_ok.
      * by intros ? ? ?%elem_of_nil.
  - destruct (process_selected_shape E dry_run ids s)
      as (se & Hwf & _ & Hr & Hlog).
    apply events_of_app in Hlog. rewrite Hlog in *. rewrite Hr.
    clear Hr Hlog. split.
    + intros st.
      destruct se as [e | cs0 e | cs0 cs pre c bs e | cs0 cs bs [| e | d rs]];
        simpl; try done; intros [= <-]; unfold stats_ok, stats_bound; simpl.
      * pose proof (selected_le_pending (pending_view cs bs 0) ids Hids).
        lia.
      * simpl in Hcounts. do 2 apply Forall_cons in Hcounts as [_ Hcounts].
        apply dispatch_counts in Hcounts as (_ & _ & Hsum).
        pose proof (selected_le_pending (pending_view cs bs 0) ids Hids).
        lia.
    + rewrite recorded_of_selected_events. by intros ? ? ?%elem_of_nil.
Qed.

End Accounting.

(** ** Dispatching and persisting *)

(** Folds the list instance of [omap] back after simplification. *)
Ltac refold_omap :=
  repeat match goal with
         | |- context [list_omap ?A ?B ?f] =>
             change (list_omap A B f) with (@omap list _ A B f)
         end.

Section Dispatch.
Context {W : Type}.
Variable E : Env W.
Variable clippings_file : string.

Lemma elem_of_lookup_events ev cs bs :
  ev ∈ lookup_events cs bs ->
  exists c b, ev = EvExists (key_of c) (Ok b) /\ c ∈ cs.
Proof.
  revert bs. induction cs as [| c cs IH]; intros [| b bs]; simpl;
    try (by intros ?%elem_of_nil).
  intros [-> | Hin]%elem_of_cons.
  - exists c, b. split; [done | by left].
  - apply IH in Hin as (c' & b' & -> & Hc). exists c', b'.
    split; [done | by right].
Qed.

Lemma elem_of_save_events ev cs rs :
  ev ∈ save_events cs rs ->
  exists c r, ev = EvSave c "success" r /\ c ∈ cs.
Proof.
  revert rs. induction cs as [| c cs IH]; intros [| r rs]; simpl;
    try (by intros ?%elem_of_nil).
  intros [-> | Hin]%elem_of_cons.
  - exists c, r. split; [done | by left].
  - apply IH in Hin as (c' & r' & -> & Hc). exists c', r'.
    split; [done | by right].
Qed.

Lemma send_in_dispatch_events slice batch de b d :
  EvSend b (Ok d) ∈ dispatch_events slice batch de ->
  exists rs, de = Sent d rs /\ b = batch.
Proof.
  destruct de as [| e | d' rs]; simpl.
  - by intros ?%elem_of_nil.
  - by intros [= ]%list_elem_of_singleton.
  - intros [[= -> ->] | (c & r & [=] & _)%elem_of_save_events]%elem_of_cons.
    by exists rs.
Qed.

Lemma send_in_try_events te b d :
  EvSend b (Ok d) ∈ try_events te ->
  exists cs bs rs,
    te = Filtered cs bs (Sent d rs) /\ b = new_clippings_of cs bs.
Proof.
  destruct te as [e | cs pre c bs e | cs bs de]; simpl.
  - by intros [= ]%list_elem_of_singleton.
  - intros [[=] | [Hin | Hin]%elem_of_app]%elem_of_cons.
    + by apply elem_of_lookup_events in Hin as (? & ? & [=] & _).
    + by apply list_elem_of_singleton in Hin.
  - intros [[=] | [Hin | Hin]%elem_of_app]%elem_of_cons.
    + by apply elem_of_lookup_events in Hin as (? & ? & [=] & _).
    + apply send_in_dispatch_events in Hin as (rs & -> & ->).
      by exists cs, bs, rs.
Qed.

Lemma saved_of_dispatch_events slice dry_run batch de :
  dispatch_wf slice dry_run batch de ->
  omap saved_of (dispatch_events slice batch de) =
  match de with
  | Sent d _ => with_success <$> slice batch d
  | _ => []
  end.
Proof.
  destruct de as [| e | d rs]; simpl; try done.
  intros (_ & _ & Hlen). by apply saved_of_save_events.
Qed.

Lemma slice_to_take {A} (l : list A) k :
  0 <= k -> slice_to l k = take (Z.to_nat k) l.
Proof.
  intros Hk. unfold slice_to. by rewrite (proj2 (Z.leb_le 0 k) Hk).
Qed.

Lemma saved_slice_selected_take batch d :
  0 <= dict_get0 d "sent" ->
  saved_slice_selected batch d = take (Z.to_nat (dict_get0 d "sent")) batch.
Proof.
  intros Hk. unfold saved_slice_selected.
  destruct (0 <? dict_get0 d "sent") eqn:Hpos.
  - by apply slice_to_take.
  - apply Z.ltb_ge in Hpos.
    by replace (dict_get0 d "sent") with 0 by lia.
Qed.

Lemma id_to_highlight_fold_lookup pending :
  forall (m : gmap Z PendingHighlight) id h,
    foldl (fun m h => <[ph_id h := h]> m) m pending !! id = Some h ->
    m !! id = Some h \/ (h ∈ pending /\ ph_id h = id).
Proof.
  induction pending as [| h0 pending IH]; intros m id h; simpl; [by left |].
  intros [Hm | [Hin Hid]]%IH.
  - apply lookup_insert_Some in Hm as [[<- <-] | [_ Hm]].
    + right. split; [by left | done].
    + by left.
  - right. split; [by right | done].
Qed.

Lemma id_to_highlight_lookup pending id h :
  id_to_highlight_of pending !! id = Some h ->
  h ∈ pending /\ ph_id h = id.
Proof.
  intros [Hm | ?]%id_to_highlight_fold_lookup; [| done].
  by rewrite lookup_empty in Hm.
Qed.

(** The selected entries come in the order of the selected ids. *)
Lemma select_highlights_ids pending ids :
  ph_id <$> select_highlights (id_to_highlight_of pending) ids =
  filter (fun id => is_pending_id (Some pending) id = true) ids.
Proof.
  unfold select_highlights.
  induction ids as [| id ids IH]; [done |].
  rewrite filter_cons. simpl.
  destruct (id_to_highlight_of pending !! id) as [h |] eqn:Hl.
  - rewrite decide_True.
    + simpl. apply id_to_highlight_lookup in Hl as [_ ->]. by f_equal.
    + apply bool_decide_eq_true, id_to_highlight_is_Some. by rewrite Hl.
  - rewrite decide_False; [done |].
    rewrite bool_decide_eq_true, <- id_to_highlight_is_Some, Hl.
    by intros [? [=]].
Qed.

Lemma select_highlights_elem_of pending ids h :
  h ∈ select_highlights (id_to_highlight_of pending) ids -> h ∈ pending.
Proof.
  unfold select_highlights.
  intros (id & _ & Hl)%list_elem_of_omap.
  by apply id_to_highlight_lookup in Hl as [? _].
Qed.

(** C2, as amended: outside preview mode, when the sink answers a batch
    [b] of [n] records with [sent = k] and [failed = n - k], both counts
    being non-negative, the save calls of the run are exactly the first
    [k] records of [b], in the order of [b], each with status "success";
    the other [n - k] positions of the batch are not saved.  This holds
    in [process] and in [process_selected].  In [process] the batch is a
    subsequence of the parsed list, so submission order is parse order.
    In [process_selected] the batch lists the selected entries of the
    pending view in the order of the selected ids, which need not be
    parse order. *)
Theorem C2_first_k_saved rk (s : St W) b d :
  EvSend b (Ok d) ∈ events_of (exec E clippings_file false rk) s ->
  counts_ok (EvSend b (Ok d)) = true ->
  omap saved_of (events_of (exec E clippings_file false rk) s) =
    with_success <$> take (Z.to_nat (dict_get0 d "sent")) b /\
  match rk with
  | Process =>
      forall cs,
        EvParse (Ok cs) ∈ events_of (exec E clippings_file false rk) s ->
        b `sublist_of` cs
  | ProcessSelected ids =>
      exists pending sel,
        pending_view_in E s = Some pending /\
        b = original_clipping <$> sel /\
        (forall h, h ∈ sel -> h ∈ pending) /\
        ph_id <$> sel =
          filter (fun id => is_pending_id (Some pending) id = true) ids
  end.
Proof.
  intros Hsend (Hk & _ & _)%counts_ok_send. destruct rk as [| ids]; simpl in *.
  - destruct (process_shape E clippings_file false s)
      as (pe & Hwf & _ & _ & Hlog).
    apply events_of_app in Hlog. rewrite Hlog in *. clear Hlog.
    destruct pe as [e | [sid |] te rc]; simpl in *.
    + by apply list_elem_of_singleton in Hsend.
    + destruct Hwf as [_ Hwf].
      apply elem_of_cons in Hsend as [[=] | Hsend].
      apply elem_of_app in Hsend as [Hsend | Hsend];
        [| by apply list_elem_of_singleton in Hsend].
      apply send_in_try_events in Hsend as (cs & bs & rs & -> & ->).
      destruct Hwf as [Hlen Hdw]. simpl. split.
      * refold_omap. rewrite !omap_app, saved_of_lookup_events. simpl.
        refold_omap. rewrite app_nil_r.
        destruct Hdw as (_ & _ & Hrs).
        rewrite (saved_of_save_events _ _ Hrs).
        unfold saved_slice_process. by rewrite slice_to_take.
      * intros cs' [[=] | Hin]%elem_of_cons.
        apply elem_of_cons in Hin as [[= ->] | Hin];
          [apply new_clippings_sublist |].
        exfalso. revert Hin. rewrite !elem_of_app.
        intros [[Hin | Hin] | Hin].
        -- by apply elem_of_lookup_events in Hin as (? & ? & [=] & _).
        -- apply elem_of_cons in Hin as [[=] | Hin].
           by apply elem_of_save_events in Hin as (? & ? & [=] & _).
        -- by apply list_elem_of_singleton in Hin.
    + destruct Hwf as [[_ Hn] _]. by specialize (Hn eq_refl).
  - destruct (process_selected_shape E false ids s)
      as (se & Hwf & Hpv & _ & Hlog).
    apply events_of_app in Hlog. rewrite Hlog in *. clear Hlog.
    destruct se as [e | cs0 e | cs0 cs pre c bs e | cs0 cs bs de];
      simpl in *.
    + by apply list_elem_of_singleton in Hsend.
    + apply elem_of_cons in Hsend as [[=] | Hsend].
      by apply list_elem_of_singleton in Hsend.
    + exfalso. revert Hsend. rewrite !elem_of_cons, elem_of_app.
      intros [[=] | [[=] | [Hin | Hin]]].
      * by apply elem_of_lookup_events in Hin as (? & ? & [=] & _).
      * by apply list_elem_of_singleton in Hin.
    + assert (exists rs, de = Sent d rs /\
                b = selected_clippings_of (pending_view cs bs 0) ids)
        as (rs & -> & ->).
      { revert Hsend. rewrite !elem_of_cons, elem_of_app.
        intros [[=] | [[=] | [Hin | Hin]]].
        - by apply elem_of_lookup_events in Hin as (? & ? & [=] & _).
        - by apply send_in_dispatch_events in Hin. }
      destruct Hwf as (Hlen & _ & _ & Hrs). split.
      * refold_omap. rewrite omap_app, saved_of_lookup_events. simpl.
        refold_omap. rewrite (saved_of_save_events _ _ Hrs).
        by rewrite saved_slice_selected_take.
      * exists (pending_view cs bs 0),
          (select_highlights (id_to_highlight_of (pending_view cs bs 0)) ids).
        split; [done |]. split; [done |].
        split; [apply select_highlights_elem_of |].
        apply select_highlights_ids.
Qed.

End Dispatch.

(** ** The ledger under contract *)

Section Ledger.
Context {W : Type}.
Variable E : Env W.
Variable clippings_file : string.
Variable stored : W -> DedupKey -> bool.

#[export] Instance ledger_step_preorder : PreOrder (@ledger_step W stored).
Proof.
  split.
  - intros s. split; [done |]. exists []. rewrite app_nil_r.
    split; [done |]. repeat split; by intros ? ?%elem_of_nil.
  - intros s1 s2 s3 (Hm1 & e1 & Hl1 & Hs1 & Hf1 & Ha1)
      (Hm2 & e2 & Hl2 & Hs2 & Hf2 & Ha2).
    split; [by auto |]. exists (e1 ++ e2).
    split; [by rewrite Hl2, Hl1, <- app_assoc |].
    split; [| split].
    + intros c [? | ?]%elem_of_app; auto.
    + intros k [? | ?]%elem_of_app; auto.
    + intros k [? | Hin]%elem_of_app; [by auto |].
      apply Ha2 in Hin. destruct (stored (world s1) k) eqn:Hk; [| done].
      apply Hm1 in Hk. congruence.
Qed.

Lemma ledger_step_local : local_ok (ledger_step stored).
Proof.
  intros s s' Hw Hl. split; [by rewrite Hw |]. exists [].
  rewrite app_nil_r. split; [done |].
  repeat split; by intros ? ?%elem_of_nil.
Qed.

Lemma ledger_step_call (s : St W) ev w' :
  (forall k, stored (world s) k = true -> stored w' k = true) ->
  (forall c, ev = EvSave c "success" (Ok tt) -> stored w' (key_of c) = true) ->
  (forall k, ev = EvExists k (Ok true) -> stored w' k = true) ->
  (forall k, ev = EvExists k (Ok false) -> stored (world s) k = false) ->
  ledger_step stored s (set_world w' (add_log ev s)).
Proof.
  intros Hm Hs Hf Ha. split; [done |]. exists [ev]. split; [done |].
  repeat split; intros ? Heq%list_elem_of_singleton; symmetry in Heq; auto.
Qed.

Hypothesis contract : ledger_contract E stored.

Lemma ledger_step_exec dry_run rk :
  respects (ledger_step stored) (exec E clippings_file dry_run rk).
Proof.
  destruct contract as [Hex Hsave Hsk Hpk Hsendk Hstk Hck].
  apply respects_exec; try apply _.
  - apply ledger_step_local.
  - intros s r w' Hf. apply ledger_step_call; try done.
    intros k Hk. apply (Hpk _ k) in Hk. by rewrite Hf in Hk.
  - intros k s r w' Hf. rewrite Hex in Hf. injection Hf as <- <-.
    apply ledger_step_call; try done.
    + by intros k' [= <- ->].
    + by intros k' [= <- ->].
  - intros b s r w' Hf. apply ledger_step_call; try done.
    intros k Hk. apply (Hsendk b _ k) in Hk. by rewrite Hf in Hk.
  - intros c s r w' Hf. apply ledger_step_call; try done.
    + intros k Hk. apply (Hsk c _ k) in Hk. by rewrite Hf in Hk.
    + intros c' [= <- ->]. by eapply Hsave.
  - intros src s r w' Hf. apply ledger_step_call; try done.
    intros k Hk. apply (Hstk src _ k) in Hk. by rewrite Hf in Hk.
  - intros sid final st s r w' Hf. apply ledger_step_call; try done.
    intros k Hk. apply (Hck sid final st _ k) in Hk. by rewrite Hf in Hk.
Qed.

(** What a run leaves in the ledger and what it found there. *)
Lemma ledger_after_run dry_run rk (s : St W) :
  let evs := events_of (exec E clippings_file dry_run rk) s in
  let s' := (exec E clippings_file dry_run rk s).2 in
  (forall k, stored (world s) k = true -> stored (world s') k = true) /\
  (forall c, EvSave c "success" (Ok tt) ∈ evs ->
     stored (world s') (key_of c) = true) /\
  (forall k, EvExists k (Ok true) ∈ evs -> stored (world s') k = true) /\
  (forall k, EvExists k (Ok false) ∈ evs -> stored (world s) k = false).
Proof.
  destruct (ledger_step_exec dry_run rk s) as (Hm & evs & Hl & H).
  simpl. by rewrite (events_of_app _ _ _ Hl).
Qed.

End Ledger.

(** ** What is saved, and when *)

Section Saves.
Context {W : Type}.
Variable E : Env W.
Variable clippings_file : string.
Variable dry_run : bool.

Lemma slice_to_sublist {A} (l : list A) k : slice_to l k `sublist_of` l.
Proof. unfold slice_to. destruct (0 <=? k); apply sublist_take. Qed.

Lemma saved_slice_selected_sublist batch d :
  saved_slice_selected batch d `sublist_of` batch.
Proof.
  unfold saved_slice_selected.
  destruct (0 <? dict_get0 d "sent");
    [apply slice_to_sublist | apply sublist_nil_l].
Qed.

Lemma saved_by_dispatch slice batch de :
  (forall d, slice batch d `sublist_of` batch) ->
  dispatch_wf slice dry_run batch de ->
  exists l, omap saved_of (dispatch_events slice batch de) =
              with_success <$> l /\ l `sublist_of` batch.
Proof.
  intros Hsl Hwf. rewrite (saved_of_dispatch_events _ _ _ _ Hwf).
  destruct de as [| e | d rs].
  - exists []. split; [done | apply sublist_nil_l].
  - exists []. split; [done | apply sublist_nil_l].
  - exists (slice batch d). split; [done | apply Hsl].
Qed.

(** The records [process] saves: part of the new records, in order. *)
Lemma saved_by_process pe :
  process_wf dry_run pe ->
  exists l,
    omap saved_of (process_events clippings_file pe) = with_success <$> l /\
    (l = [] \/
     exists sid cs bs de rc,
       pe = Ran sid (Filtered cs bs de) rc /\
       l `sublist_of` new_clippings_of cs bs).
Proof.
  intros Hwf.
  destruct pe as [e | sid [e | cs pre c bs e | cs bs de] rc].
  1: by exists []; split; [| left].
  1-2: exists []; split; [| by left]; destruct sid; simpl; refold_omap;
       rewrite ?omap_app, ?saved_of_lookup_events; done.
  destruct Hwf as [_ [Hlen Hdw]].
  destruct (saved_by_dispatch saved_slice_process (new_clippings_of cs bs) de)
    as (l & Hl & Hsub); [intros d; apply slice_to_sublist | done |].
  exists l. split; [| right; by exists sid, cs, bs, de, rc].
  destruct sid; simpl; refold_omap;
    rewrite ?omap_app, ?saved_of_lookup_events, Hl; simpl;
    by rewrite ?app_nil_r.
Qed.

(** The records [process_selected] saves: part of the selection, in
    order. *)
Lemma saved_by_process_selected ids se :
  selected_wf dry_run ids se ->
  exists l,
    omap saved_of (selected_events ids se) = with_success <$> l /\
    (l = [] \/
     exists cs0 cs bs de,
       se = SelPending cs0 cs bs de /\
       l `sublist_of` selected_clippings_of (pending_view cs bs 0) ids).
Proof.
  intros Hwf.
  destruct se as [e | cs0 e | cs0 cs pre c bs e | cs0 cs bs de].
  1-3: exists []; split; [| by left]; simpl; refold_omap;
       rewrite ?omap_app, ?saved_of_lookup_events; done.
  destruct Hwf as [Hlen Hdw].
  destruct (saved_by_dispatch saved_slice_selected
              (selected_clippings_of (pending_view cs bs 0) ids) de)
    as (l & Hl & Hsub);
    [intros d; apply saved_slice_selected_sublist | done |].
  exists l. split; [| right; by exists cs0, cs, bs, de].
  simpl; refold_omap. by rewrite ?omap_app, ?saved_of_lookup_events, Hl.
Qed.

Lemma absent_lookup_event cs : forall bs c,
  c ∈ absent_of cs bs ->
  EvExists (key_of c) (Ok false) ∈ lookup_events cs bs.
Proof.
  induction cs as [| c0 cs IH]; intros [| b bs] c; simpl;
    try (by intros ?%elem_of_nil).
  destruct b.
  - intros Hin. right. by apply IH.
  - intros [-> | Hin]%elem_of_cons; [by left | right; by apply IH].
Qed.

Lemma pending_lookup_event cs : forall bs idx h,
  h ∈ pending_view cs bs idx ->
  EvExists (key_of (original_clipping h)) (Ok false) ∈ lookup_events cs bs.
Proof.
  induction cs as [| c0 cs IH]; intros [| b bs] idx h; simpl;
    try (by intros ?%elem_of_nil).
  destruct b.
  - intros Hin. right. by eapply IH.
  - intros [-> | Hin]%elem_of_cons; [by left | right; by eapply IH].
Qed.

Lemma saved_of_elem (evs : list event) c st r :
  EvSave c st r ∈ evs -> (c, st) ∈ omap saved_of evs.
Proof. intros Hin. apply list_elem_of_omap. by exists (EvSave c st r). Qed.

(** Every save of a run follows, in the same run, a lookup of the same key
    that answered "absent". *)
Lemma save_follows_absent_lookup rk (s : St W) c st r :
  EvSave c st r ∈ events_of (exec E clippings_file dry_run rk) s ->
  EvExists (key_of c) (Ok false)
    ∈ events_of (exec E clippings_file dry_run rk) s.
Proof.
  intros Hin%saved_of_elem. revert Hin. destruct rk as [| ids]; simpl.
  - destruct (process_shape E clippings_file dry_run s)
      as (pe & Hwf & _ & _ & Hlog).
    apply events_of_app in Hlog. rewrite Hlog. clear Hlog.
    destruct (saved_by_process pe Hwf) as (l & -> & Hl).
    intros (c' & [= <- _] & Hc)%list_elem_of_fmap.
    destruct Hl as [-> | (sid & cs & bs & de & rc & -> & Hsub)];
      [by apply elem_of_nil in Hc |].
    eapply elem_of_sublist in Hc; [| exact Hsub].
    apply absent_lookup_event in Hc.
    destruct sid; simpl; rewrite ?elem_of_cons, !elem_of_app; tauto.
  - destruct (process_selected_shape E dry_run ids s)
      as (se & Hwf & _ & _ & Hlog).
    apply events_of_app in Hlog. rewrite Hlog. clear Hlog.
    destruct (saved_by_process_selected ids se Hwf) as (l & -> & Hl).
    intros (c' & [= <- _] & Hc)%list_elem_of_fmap.
    destruct Hl as [-> | (cs0 & cs & bs & de & -> & Hsub)];
      [by apply elem_of_nil in Hc |].
    eapply elem_of_sublist in Hc; [| exact Hsub].
    unfold selected_clippings_of in Hc.
    apply list_elem_of_fmap in Hc as (h & -> & Hh).
    apply select_highlights_elem_of, pending_lookup_event in Hh.
    simpl. rewrite !elem_of_cons, !elem_of_app. tauto.
Qed.

End Saves.

(** ** At most one save per key *)

Section AtMostOnce.
Context {W : Type}.
Variable E : Env W.
Variable clippings_file : string.
Variable dry_run : bool.

Lemma saved_keys_with_success (l : list KindleClipping) :
  (fun x : KindleClipping * string => key_of x.1) <$> (with_success <$> l) =
  key_of <$> l.
Proof. by rewrite <- list_fmap_compose. Qed.

Lemma selected_keys_NoDup cs bs ids :
  NoDup (key_of <$> cs) -> NoDup ids ->
  NoDup (key_of <$> selected_clippings_of (pending_view cs bs 0) ids).
Proof.
  intros Hcs Hids. unfold selected_clippings_of.
  rewrite <- list_fmap_compose. apply NoDup_fmap_2_strong.
  - intros h1 h2 Hh1%select_highlights_elem_of Hh2%select_highlights_elem_of.
    apply pending_view_positions in Hh1 as (i1 & Hl1 & _ & Heq1).
    apply pending_view_positions in Hh2 as (i2 & Hl2 & _ & Heq2).
    simpl. intros Hkey.
    assert (i1 = i2) as <-.
    { eapply (NoDup_lookup _ _ _ _ Hcs);
        rewrite list_lookup_fmap; [by rewrite Hl1 | rewrite Hl2].
      simpl. by rewrite Hkey. }
    rewrite Heq1, Heq2. congruence.
  - apply (NoDup_fmap_1 ph_id). rewrite select_highlights_ids.
    by apply NoDup_filter.
Qed.

(** Within one run: distinct keys in, distinct keys saved. *)
Lemma saved_keys_NoDup rk (s : St W) :
  distinct_input rk (events_of (exec E clippings_file dry_run rk) s) ->
  NoDup (saved_keys (events_of (exec E clippings_file dry_run rk) s)).
Proof.
  unfold saved_keys. destruct rk as [| ids]; simpl.
  - destruct (process_shape E clippings_file dry_run s)
      as (pe & Hwf & _ & _ & Hlog).
    apply events_of_app in Hlog. rewrite Hlog. clear Hlog.
    destruct (saved_by_process clippings_file dry_run pe Hwf)
      as (l & -> & Hl).
    rewrite saved_keys_with_success. intros Hin.
    destruct Hl as [-> | (sid & cs & bs & de & rc & -> & Hsub)];
      [constructor |].
    eapply sublist_NoDup; [| by apply fmap_sublist].
    eapply sublist_NoDup; [| apply fmap_sublist, absent_of_sublist].
    rewrite Forall_forall in Hin. apply Hin, list_elem_of_omap.
    exists (EvParse (Ok cs)). split; [| done].
    destruct sid; simpl; rewrite ?elem_of_cons; tauto.
  - destruct (process_selected_shape E dry_run ids s)
      as (se & Hwf & _ & _ & Hlog).
    apply events_of_app in Hlog. rewrite Hlog. clear Hlog.
    destruct (saved_by_process_selected dry_run ids se Hwf)
      as (l & -> & Hl).
    rewrite saved_keys_with_success. intros [Hin Hids].
    destruct Hl as [-> | (cs0 & cs & bs & de & -> & Hsub)];
      [constructor |].
    eapply sublist_NoDup; [| by apply fmap_sublist].
    apply selected_keys_NoDup; [| done].
    rewrite Forall_forall in Hin. apply Hin, list_elem_of_omap.
    exists (EvParse (Ok cs)). split; [| done].
    simpl. rewrite !elem_of_cons. tauto.
Qed.

(** C1, as amended: the pipeline checks a record against the ledger, not
    against the other records of the batch.  In every run, [process] or
    [process_selected], a save follows a lookup of the same key that
    answered "absent" in that run.  Within a run no two save calls carry
    an equal DedupKey provided the parsed records that can reach the sink
    have pairwise distinct keys and, in [process_selected], no id is
    selected twice.  Across two runs on a ledger whose lookups reflect
    completed saves, no key saved with success by the first run is saved
    again by the second. *)
Theorem C1_at_most_one_save (stored : W -> DedupKey -> bool) rk1 rk2
    (s : St W) :
  let evs1 := events_of (exec E clippings_file dry_run rk1) s in
  let s1 := (exec E clippings_file dry_run rk1 s).2 in
  let evs2 := events_of (exec E clippings_file dry_run rk2) s1 in
  (forall c st r, EvSave c st r ∈ evs1 ->
                  EvExists (key_of c) (Ok false) ∈ evs1) /\
  (distinct_input rk1 evs1 -> NoDup (saved_keys evs1)) /\
  (ledger_contract E stored ->
   forall c1 c2 st2 r2,
     EvSave c1 "success" (Ok tt) ∈ evs1 -> EvSave c2 st2 r2 ∈ evs2 ->
     key_of c1 <> key_of c2).
Proof.
  intros evs1 s1 evs2. split; [| split].
  - intros c st r. apply save_follows_absent_lookup.
  - apply saved_keys_NoDup.
  - intros Hc c1 c2 st2 r2 H1 H2 Heq.
    destruct (ledger_after_run E clippings_file stored Hc dry_run rk1 s)
      as (_ & Hsaved & _ & _).
    destruct (ledger_after_run E clippings_file stored Hc dry_run rk2 s1)
      as (_ & _ & _ & Habsent).
    apply Hsaved in H1.
    apply save_follows_absent_lookup, Habsent in H2.
    fold s1 in H1. rewrite Heq in H1. congruence.
Qed.

End AtMostOnce.

(** ** Running twice *)

Section Idempotence.
Context {W : Type}.
Variable E : Env W.
Variable clippings_file : string.

Lemma possible_call {A} (ev : Res A -> event) (f : W -> Res A * W) :
  (forall w, possible E (ev (f w).1)) ->
  call_ok (extends (possible E)) ev f.
Proof.
  intros H s r w' Hf. exists [ev r]. split; [done |].
  constructor; [| constructor]. specialize (H (world s)).
  by rewrite Hf in H.
Qed.

(** The log of a run records outcomes that the collaborators produced. *)
Lemma possible_exec dry_run rk (s : St W) :
  Forall (possible E) (events_of (exec E clippings_file dry_run rk) s).
Proof.
  apply events_of_extends.
  apply respects_exec; try apply _; try apply extends_local;
    intros; apply possible_call; intros w0; by exists w0.
Qed.

Lemma lookup_or_absent cs : forall bs c,
  length bs = length cs -> c ∈ cs ->
  EvExists (key_of c) (Ok true) ∈ lookup_events cs bs \/ c ∈ absent_of cs bs.
Proof.
  induction cs as [| c0 cs IH]; intros [| b bs] c Hlen; simpl in *;
    try done; try (by intros ?%elem_of_nil).
  intros [-> | Hin]%elem_of_cons.
  - destruct b; [left; by left | right; by left].
  - destruct (IH bs c) as [? | ?]; [lia | done | left; by right |].
    right. destruct b; [done | by right].
Qed.

Lemma save_event_of cs : forall rs c,
  length rs = length cs -> c ∈ cs ->
  exists r, EvSave c "success" r ∈ save_events cs rs.
Proof.
  induction cs as [| c0 cs IH]; intros [| r rs] c Hlen; simpl in *;
    try done; try (by intros ?%elem_of_nil).
  intros [-> | Hin]%elem_of_cons.
  - exists r. by left.
  - destruct (IH rs c) as [r' ?]; [lia | done |]. exists r'. by right.
Qed.

Variable stored : W -> DedupKey -> bool.
Variable cs : list KindleClipping.
Hypothesis contract : ledger_contract E stored.
Hypothesis healthy : reliable E cs.

(** With reliable collaborators [process] runs to its end: it parses
    [cs], every lookup answers, and either nothing is new or the sink
    takes the whole batch and every record of it is saved. *)
Lemma reliable_process_shape (s : St W) :
  exists sid bs de,
    try_wf false (Filtered cs bs de) /\
    (process E clippings_file false s).1 = Ok (try_stats (Filtered cs bs de))
    /\
    events_of (process E clippings_file false) s =
      process_events clippings_file
        (Ran (Some sid) (Filtered cs bs de) (Ok tt)) /\
    (forall c, c ∈ new_clippings_of cs bs ->
       EvSave c "success" (Ok tt)
         ∈ events_of (process E clippings_file false) s).
Proof.
  destruct healthy as [Hparse Hsend Hsave Hstart Hcomplete].
  pose proof (possible_exec false Process s) as Hposs. simpl in Hposs.
  destruct (process_shape E clippings_file false s)
    as (pe & Hwf & Hst & Hr & Hlog).
  apply events_of_app in Hlog. rewrite Hlog in *. rewrite Hr. clear Hr Hlog.
  destruct pe as [e | [sid |] te rc]; simpl in Hst.
  { destruct (Hstart clippings_file (world s)) as [sid Hsid]. congruence. }
  2:{ destruct Hwf as [[_ Hn] _]. by specialize (Hn eq_refl). }
  destruct Hwf as [_ Hwf]. simpl in Hposs.
  apply Forall_cons in Hposs as [_ Hposs].
  apply Forall_app in Hposs as [Hte Hrc].
  apply Forall_cons in Hrc as [[w0 Hrc] _]. rewrite Hcomplete in Hrc.
  subst rc.
  destruct te as [e | cs' pre c bs e | cs' bs de]; simpl in Hte.
  - apply Forall_cons in Hte as [[w Hw] _]. by rewrite Hparse in Hw.
  - apply Forall_cons in Hte as [_ Hte].
    apply Forall_app in Hte as [_ Hte].
    apply Forall_cons in Hte as [[w Hw] _].
    by rewrite (lc_exists _ _ contract) in Hw.
  - apply Forall_cons in Hte as [[w Hw] Hte]. rewrite Hparse in Hw.
    injection Hw as <-. apply Forall_app in Hte as [_ Hde].
    destruct de as [| e | d rs]; simpl in Hde.
    + exists sid, bs, NotSent. split; [done |]. split; [done |].
      split; [done |]. intros c Hc. destruct Hwf as [_ [[=] | Hnil]].
      rewrite Hnil in Hc. by apply elem_of_nil in Hc.
    + apply Forall_cons in Hde as [[w2 Hw2] _].
      destruct (Hsend (new_clippings_of cs bs) w2) as (d & Hd & _).
      congruence.
    + exists sid, bs, (Sent d rs). split; [done |]. split; [done |].
      split; [done |]. intros c Hc.
      apply Forall_cons in Hde as [[w2 Hw2] Hsaves].
      destruct (Hsend (new_clippings_of cs bs) w2) as (d' & Hd & Hk & _).
      rewrite Hd in Hw2. injection Hw2 as ->.
      destruct Hwf as (_ & _ & _ & Hrs).
      unfold saved_slice_process in *. rewrite Hk in *.
      rewrite slice_to_take in * by (unfold len; lia).
      unfold len in *. rewrite Nat2Z.id, firstn_all in *.
      destruct (save_event_of _ rs c Hrs Hc) as [r Hr].
      assert (r = Ok tt) as ->.
      { rewrite Forall_forall in Hsaves.
        destruct (Hsaves _ Hr) as [w' Hw']. by rewrite Hsave in Hw'. }
      simpl. unfold saved_slice_process. rewrite Hk.
      rewrite slice_to_take by lia. rewrite Nat2Z.id, firstn_all.
      right. right. apply elem_of_app. left.
      apply elem_of_app. right. by right.
Qed.

(** C9: run [process] twice outside preview mode on a source that parses
    to the same records both times, with a sink that accepts every record
    it is sent, saves and session calls that return, and a ledger whose
    lookups reflect completed saves.  Both runs return, and the second
    reports [new_sent = 0] and [duplicates_skipped] equal to
    [total_processed] minus the number of records without content. *)
Theorem C9_second_run_sends_nothing (s : St W) :
  exists st1 st2,
    (process E clippings_file false s).1 = Ok st1 /\
    (process E clippings_file false
       (process E clippings_file false s).2).1 = Ok st2 /\
    new_sent st2 = 0 /\
    duplicates_skipped st2 =
      total_processed st2 - len (invalid_clippings cs).
Proof.
  destruct (reliable_process_shape s)
    as (sid1 & bs1 & de1 & Hwf1 & Hr1 & Hev1 & Hsaved1).
  set (s1 := (process E clippings_file false s).2) in *.
  destruct (reliable_process_shape s1)
    as (sid2 & bs2 & de2 & Hwf2 & Hr2 & Hev2 & _).
  destruct (ledger_after_run E clippings_file stored contract false
              Process s) as (_ & Hs & Hf & _).
  destruct (ledger_after_run E clippings_file stored contract false
              Process s1) as (_ & _ & _ & Ha).
  simpl in Hs, Hf, Ha. fold s1 in Hs, Hf.
  assert (Hknown : forall c, c ∈ valid_clippings cs ->
                             stored (world s1) (key_of c) = true).
  { intros c Hc. destruct Hwf1 as [Hlen1 _].
    destruct (lookup_or_absent _ bs1 c Hlen1 Hc) as [Hin | Hin].
    - apply Hf. rewrite Hev1. simpl.
      rewrite !elem_of_cons, !elem_of_app. tauto.
    - by apply Hs, Hsaved1. }
  assert (Hnone : new_clippings_of cs bs2 = []).
  { destruct (new_clippings_of cs bs2) as [| c l] eqn:Hnew; [done |].
    assert (Hc : c ∈ new_clippings_of cs bs2) by (rewrite Hnew; by left).
    pose proof (Hc' := Hc). apply absent_lookup_event in Hc.
    eapply elem_of_sublist in Hc'; [| apply absent_of_sublist].
    apply Hknown in Hc'. rewrite Ha in Hc'; [done |].
    rewrite Hev2. simpl. rewrite !elem_of_cons, !elem_of_app. tauto. }
  destruct Hwf2 as [Hlen2 Hdw2].
  assert (de2 = NotSent) as ->.
  { destruct de2 as [| e | d rs]; [done | |]; simpl in Hdw2.
    - by destruct Hdw2 as [_ ?].
    - by destruct Hdw2 as (_ & ? & _). }
  eexists _, _. split; [exact Hr1 |]. split; [exact Hr2 |]. simpl.
  rewrite Hnone. split; [done |].
  pose proof (absent_of_count _ _ Hlen2) as Hcount.
  fold (new_clippings_of cs bs2) in Hcount. rewrite Hnone in Hcount.
  rewrite valid_invalid_length in Hcount. unfold len in *. simpl in *. lia.
Qed.

End Idempotence.

(** ** Records without content *)

Section EmptyContent.
Context {W : Type}.
Variable E : Env W.
Variable clippings_file : string.
Variable dry_run : bool.

Lemma session_free_process_events ev sid te rc :
  is_session ev = false ->
  ev ∈ process_events clippings_file (Ran sid te rc) -> ev ∈ try_events te.
Proof.
  intros Hns. destruct sid as [sid |]; simpl; [| done].
  rewrite elem_of_cons, elem_of_app, list_elem_of_singleton.
  intros [-> | [? | ->]]; done.
Qed.

Lemma answered_of_lookup_events cs : forall bs,
  omap answered_of (lookup_events cs bs) = zip (key_of <$> cs) bs.
Proof.
  induction cs as [| c cs IH]; intros [| b bs]; simpl; try done.
  f_equal. apply IH.
Qed.

Lemma answered_of_save_events cs rs :
  omap answered_of (save_events cs rs) = [].
Proof.
  revert rs. induction cs as [| c cs IH]; intros [| r rs]; simpl; auto.
Qed.

Lemma parsed_of_lookup_events cs bs : omap parsed_of (lookup_events cs bs) = [].
Proof.
  revert bs. induction cs as [| c cs IH]; intros [| b bs]; simpl; auto.
Qed.

Lemma parsed_of_save_events cs rs : omap parsed_of (save_events cs rs) = [].
Proof.
  revert rs. induction cs as [| c cs IH]; intros [| r rs]; simpl; auto.
Qed.

(** What the [try] clause of [process] does with the records it parsed:
    only records with content are looked up, sent or saved. *)
Lemma try_events_valid te cs :
  try_wf dry_run te -> EvParse (Ok cs) ∈ try_events te ->
  (forall k r, EvExists k r ∈ try_events te ->
     exists c, c ∈ valid_clippings cs /\ k = key_of c) /\
  (forall b r, EvSend b r ∈ try_events te ->
     b `sublist_of` valid_clippings cs) /\
  (forall c st r, EvSave c st r ∈ try_events te -> c ∈ valid_clippings cs).
Proof.
  destruct te as [e | cs' pre c0 bs e | cs' bs de]; simpl.
  - by intros _ [=]%list_elem_of_singleton.
  - intros [[post Hv] Hlen] Hparse.
    assert (cs' = cs) as ->.
    { revert Hparse. rewrite elem_of_cons, elem_of_app.
      intros [[=] | [Hin | Hin]]; [done | |].
      - by apply elem_of_lookup_events in Hin as (? & ? & [=] & _).
      - by apply list_elem_of_singleton in Hin. }
    rewrite Hv. split; [| split].
    + intros k r. rewrite elem_of_cons, elem_of_app.
      intros [[=] | [Hin | Hin]].
      * apply elem_of_lookup_events in Hin as (c & b & [= -> _] & Hc).
        exists c. split; [| done]. apply elem_of_app. by left.
      * apply list_elem_of_singleton in Hin. injection Hin as -> _.
        exists c0. split; [| done]. apply elem_of_app. right. by left.
    + intros b r. rewrite elem_of_cons, elem_of_app.
      intros [[=] | [Hin | Hin]].
      * by apply elem_of_lookup_events in Hin as (? & ? & [=] & _).
      * by apply list_elem_of_singleton in Hin.
    + intros c st r. rewrite elem_of_cons, elem_of_app.
      intros [[=] | [Hin | Hin]].
      * by apply elem_of_lookup_events in Hin as (? & ? & [=] & _).
      * by apply list_elem_of_singleton in Hin.
  - intros [Hlen Hdw] Hparse.
    assert (cs' = cs) as ->.
    { revert Hparse. rewrite elem_of_cons, elem_of_app.
      intros [[=] | [Hin | Hin]]; [done | |].
      - by apply elem_of_lookup_events in Hin as (? & ? & [=] & _).
      - destruct de as [| e | d rs]; simpl in Hin.
        + by apply elem_of_nil in Hin.
        + by apply list_elem_of_singleton in Hin.
        + apply elem_of_cons in Hin as [[=] | Hin].
          by apply elem_of_save_events in Hin as (? & ? & [=] & _). }
    split; [| split].
    + intros k r. rewrite elem_of_cons, elem_of_app.
      intros [[=] | [Hin | Hin]].
      * apply elem_of_lookup_events in Hin as (c & b & [= -> _] & Hc).
        by exists c.
      * destruct de as [| e | d rs]; simpl in Hin.
        -- by apply elem_of_nil in Hin.
        -- by apply list_elem_of_singleton in Hin.
        -- apply elem_of_cons in Hin as [[=] | Hin].
           by apply elem_of_save_events in Hin as (? & ? & [=] & _).
    + intros b r. rewrite elem_of_cons, elem_of_app.
      intros [[=] | [Hin | Hin]].
      * by apply elem_of_lookup_events in Hin as (? & ? & [=] & _).
      * assert (b = new_clippings_of cs bs) as ->.
        { destruct de as [| e | d rs]; simpl in Hin.
          - by apply elem_of_nil in Hin.
          - apply list_elem_of_singleton in Hin. by injection Hin.
          - apply elem_of_cons in Hin as [[= -> _] | Hin]; [done |].
            by apply elem_of_save_events in Hin as (? & ? & [=] & _). }
        apply absent_of_sublist.
    + intros c st r. rewrite elem_of_cons, elem_of_app.
      intros [[=] | [Hin | Hin]].
      * by apply elem_of_lookup_events in Hin as (? & ? & [=] & _).
      * destruct de as [| e | d rs]; simpl in Hin.
        -- by apply elem_of_nil in Hin.
        -- by apply list_elem_of_singleton in Hin.
        -- apply elem_of_cons in Hin as [[=] | Hin].
           apply elem_of_save_events in Hin as (c' & r' & [= -> _ _] & Hc).
           eapply elem_of_sublist; [exact Hc |].
           etrans; [apply slice_to_sublist | apply absent_of_sublist].
Qed.

(** C8, as amended: in [process], in either mode, a parsed record without
    content is discarded before dedup and export: every lookup, every batch
    sent and every save is about parsed records with content.  When
    [process] returns, [total_processed] counts every parsed record,
    [duplicates_skipped] counts the lookups answered "found", and
    [new_sent] and [failed_to_send] are the size of the batch of records
    with content that were looked up and found absent, with 0 failures, or
    the two counts the sink answered for that batch: a record without
    content adds to [total_processed] only.  When an exception aborts
    [process], the session records every parsed record as failed. *)
Theorem C8_process_drops_empty_content (s : St W) :
  let evs := events_of (process E clippings_file dry_run) s in
  (forall cs, EvParse (Ok cs) ∈ evs ->
     (forall k r, EvExists k r ∈ evs ->
        exists c, c ∈ valid_clippings cs /\ k = key_of c) /\
     (forall b r, EvSend b r ∈ evs -> b `sublist_of` valid_clippings cs) /\
     (forall c st r, EvSave c st r ∈ evs -> c ∈ valid_clippings cs)) /\
  (forall st, (process E clippings_file dry_run s).1 = Ok st ->
     exists cs bs,
       omap parsed_of evs = [cs] /\
       omap answered_of evs = zip (key_of <$> valid_clippings cs) bs /\
       length bs = length (valid_clippings cs) /\
       total_processed st = len cs /\
       duplicates_skipped st = count_found bs /\
       (new_sent st = len (absent_of (valid_clippings cs) bs) /\
        failed_to_send st = 0 /\
        Forall (fun ev => is_send ev = false) evs
        \/
        exists d,
          EvSend (absent_of (valid_clippings cs) bs) (Ok d) ∈ evs /\
          new_sent st = dict_get0 d "sent" /\
          failed_to_send st = dict_get0 d "failed")) /\
  (forall final,
     (final, "error") ∈ omap recorded_of evs ->
     ss_failed final = ss_total_processed final).
Proof.
  intros evs. subst evs.
  destruct (process_shape E clippings_file dry_run s)
    as (pe & Hwf & _ & Hr & Hlog).
  apply events_of_app in Hlog. rewrite Hlog, Hr. clear Hlog Hr.
  destruct pe as [e | sid te rc].
  { simpl. split; [| split].
    - by intros cs [=]%list_elem_of_singleton.
    - done.
    - by intros ? ?%elem_of_nil. }
  destruct Hwf as [_ Hwf]. split; [| split].
  - intros cs Hparse%session_free_process_events; [| done].
    destruct (try_events_valid te cs Hwf Hparse) as (Hq & Hs & Hv).
    split; [| split].
    + intros k r Hin%session_free_process_events; [| done]. by eapply Hq.
    + intros b r Hin%session_free_process_events; [| done]. by eapply Hs.
    + intros c st r Hin%session_free_process_events; [| done]. by eapply Hv.
  - intros st Hst.
    assert (Hres : try_result te = Ok st).
    { destruct sid as [sid |]; [destruct rc |]; simpl in Hst; done. }
    unfold try_result in Hres.
    destruct te as [e | cs pre c bs e | cs bs [| e | d rs]]; simpl in Hres;
      try done; injection Hres as <-; destruct Hwf as [Hlen Hdw];
      exists cs, bs.
    + split.
      { destruct sid; simpl; refold_omap;
          rewrite ?omap_app, parsed_of_lookup_events; done. }
      split.
      { destruct sid; simpl; refold_omap;
          rewrite ?omap_app, answered_of_lookup_events; simpl;
          by rewrite ?app_nil_r. }
      split; [done |]. split; [done |]. split; [done |]. left.
      split; [done |]. split; [done |].
      destruct sid; simpl; rewrite ?app_nil_r;
        repeat first
          [ apply Forall_cons_2; [done |]
          | apply Forall_app_2
          | apply Forall_nil_2
          | by apply (Forall_lookup_events
                        (fun ev => is_send ev = false)) ].
    + split.
      { destruct sid; simpl; refold_omap;
          rewrite ?omap_app, parsed_of_lookup_events; simpl; refold_omap;
          rewrite ?omap_app, parsed_of_save_events; done. }
      split.
      { destruct sid; simpl; refold_omap;
          rewrite ?omap_app, answered_of_lookup_events; simpl; refold_omap;
          rewrite ?omap_app, answered_of_save_events; simpl;
          by rewrite ?app_nil_r. }
      split; [done |]. split; [done |]. split; [done |]. right.
      exists d. split; [| done].
      destruct sid; simpl; rewrite ?elem_of_cons, !elem_of_app, elem_of_cons;
        tauto.
  - intros final. destruct sid as [sid |]; simpl.
    + rewrite omap_app, recorded_of_try_events. simpl.
      intros Hin%list_elem_of_singleton. injection Hin as -> Hstatus.
      symmetry in Hstatus. apply try_status_error in Hstatus as [e Herr].
      by apply try_stats_error in Herr as (_ & _ & ?).
    + rewrite recorded_of_try_events. by intros ?%elem_of_nil.
Qed.

End EmptyContent.

(** * Concrete runs in the in-memory world *)

(** Decides a closed proposition by evaluation. *)
Ltac by_compute := apply (bool_decide_unpack _); vm_compute; exact I.

Module Concrete.
Import InMemory.

Lemma in_memory_contract cfg : ledger_contract (env cfg) known.
Proof.
  split; simpl; unfold known.
  - done.
  - intros c w w'. destruct (save_fails cfg c); [done |].
    intros [= <-]. simpl. apply bool_decide_eq_true, elem_of_app.
    right. by left.
  - intros c w k Hk. destruct (save_fails cfg c); [done |]. simpl.
    apply bool_decide_eq_true, elem_of_app. left.
    by apply bool_decide_eq_true in Hk.
  - done.
  - done.
  - done.
  - done.
Qed.

Lemma in_memory_reliable cs : reliable (env (config_of cs accept_all)) cs.
Proof.
  split; simpl; try done.
  - intros b w. eexists. split; [reflexivity |]. split; reflexivity.
  - intros src w. by eexists.
Qed.

(** C1 fails as stated: a source that holds the same new highlight twice
    has it saved twice, under one key, in one run. *)
Lemma C1_counterexample :
  ~ NoDup (saved_keys
             (events_of (process (env (config_of [cA; cA] accept_all))
                                 my_clippings false)
                        (start_with []))).
Proof.
  assert (saved_keys
            (events_of (process (env (config_of [cA; cA] accept_all))
                                my_clippings false)
                       (start_with []))
          = [key_of cA; key_of cA]) as -> by (vm_compute; reflexivity).
  intros [Hn _]%NoDup_cons. apply Hn. by left.
Defined.

Lemma C1_witness :
  let E := env (config_of [cA; cB] (accept_first 1)) in
  let s := start_with [] in
  let evs1 := events_of (process E my_clippings false) s in
  let s1 := (process E my_clippings false s).2 in
  let evs2 := events_of (process E my_clippings false) s1 in
  distinct_input Process evs1 /\ ledger_contract E known /\
  EvSave cA "success" (Ok tt) ∈ evs1 /\
  EvSave cB "success" (Ok tt) ∈ evs2 /\
  NoDup (saved_keys evs1) /\ key_of cA <> key_of cB.
Proof.
  intros E s evs1 s1 evs2.
  destruct (C1_at_most_one_save E my_clippings false known Process Process s)
    as (_ & Hwithin & Hacross).
  assert (Hd : distinct_input Process evs1).
  { unfold distinct_input.
    assert (omap parsed_of evs1 = [[cA; cB]]) as ->
      by (vm_compute; reflexivity).
    constructor; [by_compute | constructor]. }
  assert (H1 : EvSave cA "success" (Ok tt) ∈ evs1).
  { vm_compute. repeat constructor. }
  assert (H2 : EvSave cB "success" (Ok tt) ∈ evs2).
  { vm_compute. repeat constructor. }
  split; [exact Hd |]. split; [apply in_memory_contract |].
  split; [exact H1 |]. split; [exact H2 |].
  split; [exact (Hwithin Hd) |].
  exact (Hacross (in_memory_contract _) cA cB "success" (Ok tt) H1 H2).
Defined.

(** C2 fails as stated: [process_selected] submits the selection in the
    order of the ids it is given, here against parse order. *)
Lemma C2_counterexample :
  let E := env (config_of [cA; cB] accept_all) in
  let evs := events_of (process_selected E false [2; 1]) (start_with []) in
  EvParse (Ok [cA; cB]) ∈ evs /\
  EvSend [cB; cA] (Ok (answer_first 2 [cB; cA])) ∈ evs /\
  counts_ok (EvSend [cB; cA] (Ok (answer_first 2 [cB; cA]))) = true /\
  ~ [cB; cA] `sublist_of` [cA; cB].
Proof.
  intros E evs.
  split; [vm_compute; repeat constructor |].
  split; [vm_compute; repeat constructor |].
  split; [vm_compute; reflexivity |].
  intros (k1 & k2 & Heq & Hsub)%sublist_cons_l.
  destruct k1 as [| x [| y k1]]; simpl in Heq.
  - by injection Heq.
  - injection Heq as _ <-. by apply sublist_nil_r in Hsub.
  - injection Heq as _ _ Heq. by destruct k1.
Defined.

Lemma C2_witness :
  let E := env (config_of [cA; cB; cC] (accept_first 1)) in
  let s := start_with [key_of cA] in
  let evs := events_of (exec E my_clippings false Process) s in
  let d := answer_first 1 [cB; cC] in
  EvSend [cB; cC] (Ok d) ∈ evs /\
  counts_ok (EvSend [cB; cC] (Ok d)) = true /\
  omap saved_of evs = [(cB, "success")] /\
  [cB; cC] `sublist_of` [cA; cB; cC].
Proof.
  intros E s evs d.
  assert (H1 : EvSend [cB; cC] (Ok d) ∈ evs)
    by (vm_compute; repeat constructor).
  assert (H2 : counts_ok (EvSend [cB; cC] (Ok d)) = true)
    by (vm_compute; reflexivity).
  destruct (C2_first_k_saved E my_clippings Process s [cB; cC] d H1 H2)
    as [Hsaved Horder].
  split; [exact H1 |]. split; [exact H2 |]. split; [exact Hsaved |].
  apply Horder. vm_compute. repeat constructor.
Defined.

(** C3 fails as stated: in preview mode [process_selected] reports the
    size of the selection, here 1, while the pending view holds 2
    records. *)
Lemma C3_counterexample :
  let E := env (config_of [cA; cB] accept_all) in
  exists st s' pending,
    process_selected E true [1] (start_with []) = (Ok st, s') /\
    pending_view_in E (start_with []) = Some pending /\
    len pending = 2 /\ new_sent st = 1 /\ new_sent st <> len pending.
Proof.
  intros E. eexists _, _, _. split; [vm_compute; reflexivity |].
  split; [vm_compute; reflexivity |]. by repeat split.
Defined.

Lemma C3_witness :
  let E := env (config_of [cA; cB; cC] accept_all) in
  let s := start_with [key_of cB] in
  (exec E my_clippings true Process s).1 = Ok (mkStats 3 2 1 0) /\
  failed_to_send (mkStats 3 2 1 0) = 0 /\
  new_sent (mkStats 3 2 1 0) =
    len (filter (fun ev => is_absent ev = true)
                (events_of (exec E my_clippings true Process) s)).
Proof.
  intros E s.
  assert (H : (exec E my_clippings true Process s).1 = Ok (mkStats 3 2 1 0))
    by (vm_compute; reflexivity).
  split; [exact H |].
  exact (proj2 (C3_preview_makes_no_change E my_clippings Process s) _ H).
Defined.

(** C4 fails as stated.  When the completion call itself raises, the
    exception that reaches the caller is that one and no
    [ProcessingError]: here the sink cannot be reached, the session is
    completed with status "error", and the database fails to close it.
    And when the sink answers a batch with a negative count of failures,
    the session records "success" with [failed_to_send] other than 0. *)
Lemma C4_counterexample :
  let s := start_with [] in
  let down := Faulty.no_session_end (env (config_of [cA] unreachable)) in
  let odd := env (config_of [cA; cB] (accept_first 3)) in
  (start_export_session down my_clippings (world s)).1 = Ok 1 /\
  EvSend [cA] (unreachable [cA])
    ∈ events_of (process down my_clippings false) s /\
  EvCompleteSession 1 (mkSessionStats 1 0 0 1) "error" (Raise Faulty.locked)
    ∈ events_of (process down my_clippings false) s /\
  (process down my_clippings false s).1 = Raise Faulty.locked /\
  (forall msg cause,
     (process down my_clippings false s).1 <>
     Raise (ProcessingError msg cause)) /\
  (start_export_session odd my_clippings (world s)).1 = Ok 1 /\
  Forall (fun ev => is_abort ev = false)
         (events_of (process odd my_clippings false) s) /\
  (mkSessionStats 2 3 0 (-1), "success")
    ∈ omap recorded_of (events_of (process odd my_clippings false) s) /\
  ss_failed (mkSessionStats 2 3 0 (-1)) <> 0.
Proof.
  intros s down odd.
  assert (H : (process down my_clippings false s).1 = Raise Faulty.locked)
    by (vm_compute; reflexivity).
  split; [reflexivity |].
  split; [vm_compute; repeat constructor |].
  split; [vm_compute; repeat constructor |].
  split; [exact H |].
  split.
  { intros msg cause Heq. rewrite H in Heq. unfold Faulty.locked in Heq.
    discriminate Heq. }
  split; [reflexivity |].
  split; [vm_compute; repeat constructor |].
  split; [vm_compute; repeat constructor |].
  simpl. lia.
Defined.

Lemma C4_witness :
  let E := env (config_of [cA; cB; cC] (accept_first 1)) in
  let s := start_with [key_of cA] in
  start_export_session E my_clippings (world s) =
    (Ok 1, mkWorld [key_of cA] [(1, None)]) /\
  exists evs final rc,
    events_of (process E my_clippings false) s =
      EvStartSession my_clippings (Ok 1) :: evs ++
      [EvCompleteSession 1 final "partial" rc] /\
    Forall (fun ev => is_complete ev = false) evs /\
    ~ Exists (fun ev => is_abort ev = true) evs /\ 0 < ss_failed final.
Proof.
  intros E s.
  assert (H1 : start_export_session E my_clippings (world s) =
               (Ok 1, mkWorld [key_of cA] [(1, None)]))
    by (vm_compute; reflexivity).
  destruct (C4_session_completed_once E my_clippings s 1 _ H1)
    as (evs & final & status & rc & Hev & Hone & _ & Hpartial & _).
  split; [exact H1 |].
  assert (status = "partial") as ->.
  { assert (Hlast : last (events_of (process E my_clippings false) s) =
                    Some (EvCompleteSession 1
                            (mkSessionStats 3 1 1 1) "partial" (Ok tt)))
      by (vm_compute; reflexivity).
    rewrite Hev in Hlast.
    change (EvStartSession my_clippings (Ok 1) :: evs ++
            [EvCompleteSession 1 final status rc])
      with ((EvStartSession my_clippings (Ok 1) :: evs) ++
            [EvCompleteSession 1 final status rc]) in Hlast.
    rewrite last_snoc in Hlast. by injection Hlast. }
  exists evs, final, rc. split; [exact Hev |]. split; [exact Hone |].
  by apply Hpartial.
Defined.

Lemma C5_witness :
  let E := env (mkConfig false true (Ok [cA]) accept_all (fun _ => false)) in
  let s := start_with [] in
  (file_exists E (world s) = false \/
   (false = false /\ (validate_token E (world s)).1 = Ok false)) /\
  exists msg s',
    run E my_clippings false Process s = (Raise (ValidationError msg), s') /\
    Forall (fun ev => is_session ev = false /\ is_send ev = false /\
                      is_save ev = false)
           (events_of (run E my_clippings false Process) s).
Proof.
  intros E s.
  assert (H : file_exists E (world s) = false \/
              (false = false /\ (validate_token E (world s)).1 = Ok false))
    by (left; reflexivity).
  destruct (C5_validation_precedes_run E my_clippings false Process s H)
    as (msg & s' & Hrun & _ & _ & Hev).
  split; [exact H |]. by exists msg, s'.
Defined.

(** C6 fails as stated: when the sink cannot be reached after one
    duplicate was counted, the session records 2 failures for 2 records
    of which 1 was skipped. *)
Lemma C6_counterexample :
  let E := env (config_of [cA; cB] unreachable) in
  let s := start_with [key_of cA] in
  (mkSessionStats 2 0 1 2, "error")
    ∈ omap recorded_of (events_of (process E my_clippings false) s) /\
  ~ session_stats_ok (mkSessionStats 2 0 1 2).
Proof.
  intros E s. split; [vm_compute; repeat constructor |].
  unfold session_stats_ok, stats_bound. simpl. lia.
Defined.

Lemma C6_witness :
  let E := env (config_of [cA; cB; cC] (accept_first 1)) in
  let s := start_with [key_of cA] in
  Forall (fun ev => counts_ok ev = true)
         (events_of (exec E my_clippings false Process) s) /\
  (exec E my_clippings false Process s).1 = Ok (mkStats 3 1 1 1) /\
  stats_ok (mkStats 3 1 1 1) /\
  session_stats_ok (mkSessionStats 3 1 1 1).
Proof.
  intros E s.
  assert (H1 : Forall (fun ev => counts_ok ev = true)
                      (events_of (exec E my_clippings false Process) s))
    by (vm_compute; repeat constructor).
  assert (H2 : (exec E my_clippings false Process s).1 =
               Ok (mkStats 3 1 1 1)) by (vm_compute; reflexivity).
  destruct (C6_stats_bound E my_clippings false Process s H1 I)
    as [Hret Hrec].
  split; [exact H1 |]. split; [exact H2 |]. split; [exact (Hret _ H2) |].
  apply (Hrec (mkSessionStats 3 1 1 1) "partial");
    [vm_compute; repeat constructor | done].
Defined.

(** C7 fails as stated: with the first of 3 records stored, the 2
    pending descriptors carry the ids 2 and 3. *)
Lemma C7_counterexample :
  let E := env (config_of [cA; cB; cC] accept_all) in
  exists pending s',
    get_pending_highlights E (start_with [key_of cA]) = (Ok pending, s') /\
    length pending = 2%nat /\
    ph_id <$> pending = [2; 3] /\ ph_id <$> pending <> [1; 2].
Proof.
  intros E. eexists _, _. split; [vm_compute; reflexivity |].
  by repeat split.
Defined.

Lemma C7_witness :
  let E := env (config_of [cA; cB; cC] accept_all) in
  let s := start_with [key_of cC] in
  parse E (world s) = (Ok [cA; cB; cC], world s) /\
  (forall k, highlight_exists E k (world s) = (Ok (known (world s) k), world s))
  /\
  exists pending s',
    get_pending_highlights E s = (Ok pending, s') /\
    original_clipping <$> pending = [cA; cB] /\
    ph_id <$> pending = [1; 2].
Proof.
  intros E s.
  assert (H1 : parse E (world s) = (Ok [cA; cB; cC], world s))
    by reflexivity.
  assert (H2 : forall k, highlight_exists E k (world s) =
                         (Ok (known (world s) k), world s))
    by (intros k; reflexivity).
  destruct (C7_pending_ids_are_parse_positions E (known (world s)) s _ _
              H1 H2) as (pending & s' & Hrun & Horig & _ & _ & Hthree).
  split; [exact H1 |]. split; [exact H2 |].
  exists pending, s'. split; [exact Hrun |]. split.
  - rewrite Horig. vm_compute. reflexivity.
  - destruct (Hthree cA cB cC eq_refl) as [_ Hids];
      [vm_compute; reflexivity |].
    rewrite Hids. vm_compute. reflexivity.
Defined.

(** C8 fails as stated.  By design, when an exception aborts [process]
    the session records every parsed record as failed, the one without
    content included.  And the preview and the selective export do not drop
    a record without content: [get_pending_highlights] looks it up and
    lists it under id 1, and [process_selected] then sends it, saves it and
    counts it in [new_sent]. *)
Lemma C8_counterexample :
  let s := start_with [] in
  let down := env (config_of [cEmpty; cB] unreachable) in
  let E := env (config_of [cEmpty] accept_all) in
  truthy_str (content cEmpty) = false /\
  (mkSessionStats 2 0 0 2, "error")
    ∈ omap recorded_of (events_of (process down my_clippings false) s) /\
  (get_pending_highlights E s).1 = Ok [highlight_dict_of 0 cEmpty] /\
  omap queried_of (events_of (get_pending_highlights E) s) = [key_of cEmpty]
  /\
  (process_selected E false [1] s).1 = Ok (mkStats 1 1 0 0) /\
  EvSend [cEmpty] (accept_all [cEmpty])
    ∈ events_of (process_selected E false [1]) s /\
  omap saved_of (events_of (process_selected E false [1]) s) =
    [(cEmpty, "success")].
Proof.
  intros s down E.
  repeat split; try (vm_compute; reflexivity); vm_compute; repeat constructor.
Defined.

Lemma C8_witness :
  let E := env (config_of [cA; cEmpty; cB] (accept_first 1)) in
  let s := start_with [] in
  let evs := events_of (process E my_clippings false) s in
  EvParse (Ok [cA; cEmpty; cB]) ∈ evs /\
  (process E my_clippings false s).1 = Ok (mkStats 3 1 0 1) /\
  (forall k r, EvExists k r ∈ evs ->
     exists c, c ∈ valid_clippings [cA; cEmpty; cB] /\ k = key_of c) /\
  exists cs bs,
    omap parsed_of evs = [cs] /\
    omap answered_of evs = zip (key_of <$> valid_clippings cs) bs /\
    total_processed (mkStats 3 1 0 1) = len cs /\
    duplicates_skipped (mkStats 3 1 0 1) = count_found bs.
Proof.
  intros E s evs.
  assert (H1 : EvParse (Ok [cA; cEmpty; cB]) ∈ evs)
    by (vm_compute; repeat constructor).
  assert (H2 : (process E my_clippings false s).1 = Ok (mkStats 3 1 0 1))
    by (vm_compute; reflexivity).
  destruct (C8_process_drops_empty_content E my_clippings false s)
    as (Hvalid & Hstats & _).
  destruct (Hvalid _ H1) as (Hq & _ & _).
  destruct (Hstats _ H2) as (cs & bs & Hp & Ha & _ & Ht & Hd & _).
  split; [exact H1 |]. split; [exact H2 |]. split; [exact Hq |].
  by exists cs, bs.
Defined.

Lemma C9_witness :
  let E := env (config_of [cA; cEmpty; cB] accept_all) in
  let s := start_with [] in
  ledger_contract E known /\ reliable E [cA; cEmpty; cB] /\
  exists st1 st2,
    (process E my_clippings false s).1 = Ok st1 /\
    (process E my_clippings false
       (process E my_clippings false s).2).1 = Ok st2 /\
    new_sent st2 = 0 /\
    duplicates_skipped st2 =
      total_processed st2 - len (invalid_clippings [cA; cEmpty; cB]).
Proof.
  intros E s.
  split; [apply in_memory_contract |].
  split; [apply in_memory_reliable |].
  exact (C9_second_run_sends_nothing E my_clippings known [cA; cEmpty; cB]
           (in_memory_contract _) (in_memory_reliable _) s).
Defined.

End Concrete.

(** * Further properties of the pipeline *)

(** ** The helpers of [process] *)

Section Helpers.
Context {W : Type}.
Variable E : Env W.

Lemma queried_of_lookup_events cs : forall bs,
  length bs = length cs ->
  omap queried_of (lookup_events cs bs) = key_of <$> cs.
Proof.
  induction cs as [| c cs IH]; intros [| b bs] Hlen; simpl in *; try done.
  f_equal. apply IH. lia.
Qed.

(** X1: [_filter_duplicates] splits the records with content in two: when it
    returns [(new, d)], it has looked up the key of every record with
    content once, in input order, and of no other record; [new] holds
    the records whose lookup answered "absent", in input order, and [d]
    counts the lookups that answered "found".  So [new] and the
    duplicates add up to the records with content, and a record without
    content is in neither.  The statistics are not touched. *)
Theorem filter_duplicates_partition cs (s : St W) new d s' :
  _filter_duplicates E cs s = (Ok (new, d), s') ->
  exists bs,
    length bs = length (valid_clippings cs) /\
    events_of (_filter_duplicates E cs) s =
      lookup_events (valid_clippings cs) bs /\
    omap queried_of (events_of (_filter_duplicates E cs) s) =
      key_of <$> valid_clippings cs /\
    new = absent_of (valid_clippings cs) bs /\
    d = count_found bs /\
    new `sublist_of` cs /\
    0 <= d /\
    len new + d = len cs - len (invalid_clippings cs) /\
    same_locals s s'.
Proof.
  intros Hrun. pose proof (filter_loop_locals E cs [] 0 s) as Hloc.
  unfold _filter_duplicates in *. rewrite Hrun in Hloc. simpl in Hloc.
  pose proof Hrun as Hok.
  apply filter_loop_ok in Hok as (bs & Hlen & Hlog & -> & ->).
  exists bs. rewrite app_nil_l, Z.add_0_l.
  assert (Hev : events_of (_filter_duplicates_loop E cs [] 0) s =
                lookup_events (valid_clippings cs) bs).
  { apply events_of_app. by rewrite Hrun. }
  rewrite Hev. split; [done |]. split; [done |].
  split; [by apply queried_of_lookup_events |].
  split; [done |]. split; [done |].
  split; [apply new_clippings_sublist |].
  split; [unfold count_found, len; lia |].
  split; [| done].
  rewrite <- valid_invalid_length. by apply absent_of_count.
Qed.

(** X2: [_save_exported_highlights] never raises, whatever [save_highlight]
    does: it calls [save_highlight] once for every record it is given,
    in order and with status "success", also after an earlier save has
    raised; it makes no other call and leaves the statistics alone. *)
Theorem save_exported_highlights_keeps_going cs (s : St W) :
  (_save_exported_highlights E cs s).1 = Ok tt /\
  omap saved_of (events_of (_save_exported_highlights E cs) s) =
    with_success <$> cs /\
  Forall (fun ev => is_save ev = true)
         (events_of (_save_exported_highlights E cs) s) /\
  length (events_of (_save_exported_highlights E cs) s) = length cs /\
  same_locals s (_save_exported_highlights E cs s).2.
Proof.
  destruct (save_exported_highlights_spec E cs s)
    as (rs & s' & Hrun & Hlen & Hlog & Hloc).
  assert (Hev : events_of (_save_exported_highlights E cs) s =
                save_events cs rs).
  { apply events_of_app. by rewrite Hrun. }
  rewrite Hev, Hrun. split; [done |].
  split; [by apply saved_of_save_events |].
  split; [by apply Forall_save_events |].
  split; [| done].
  unfold save_events. rewrite length_zip_with. lia.
Qed.

End Helpers.

(** ** Validating the setup *)

Section ValidateSetup.
Context {W : Type}.
Variable E : Env W.
Variable clippings_file : string.
Variable dry_run : bool.

(** X3: [validate_setup] returns exactly when the clippings file exists and,
    outside preview mode, [validate_token] answers true.  Besides
    checking that the file exists, it calls nothing but [validate_token],
    and that at most once; in preview mode, or when the file is missing,
    it calls nothing and changes nothing.  An exception of
    [validate_token] leaves [validate_setup] as it is: it is not turned
    into a [ValidationError]. *)
Theorem validate_setup_returns_iff (s : St W) :
  ((validate_setup E clippings_file dry_run s).1 = Ok tt <->
   file_exists E (world s) = true /\
   (dry_run = true \/ (validate_token E (world s)).1 = Ok true)) /\
  (dry_run = true \/ file_exists E (world s) = false ->
   (validate_setup E clippings_file dry_run s).2 = s) /\
  (dry_run = false -> file_exists E (world s) = true ->
   events_of (validate_setup E clippings_file dry_run) s =
     [EvValidateToken (validate_token E (world s)).1] /\
   forall e, (validate_token E (world s)).1 = Raise e ->
     (validate_setup E clippings_file dry_run s).1 = Raise e).
Proof.
  unfold events_of, validate_setup, bind, get, call.
  destruct (file_exists E (world s)) eqn:Hfile; cbn [negb].
  - destruct dry_run; simpl.
    + split; [| by split]. split; [intros _; split; auto | done].
    + destruct (validate_token E (world s)) as [[[|] | e] w'] eqn:Hv;
        simpl; rewrite ?drop_app_length.
      * split; [| split; [by intros [|] | by split]].
        split; [intros _; split; auto | done].
      * split; [| split; [by intros [|] | by split]].
        split; [done | by intros [_ [|]]].
      * split; [| split; [by intros [|] |]].
        -- split; [done | by intros [_ [|]]].
        -- intros _ _. split; [done |]. by intros e0 [= ->].
  - simpl. split; [| by split]. split; [done | by intros []].
Qed.

End ValidateSetup.

(** ** How a run ends *)

Section Endings.
Context {W : Type}.
Variable E : Env W.
Variable clippings_file : string.
Variable dry_run : bool.

Lemma no_fatal_lookup_events cs bs :
  Forall (fun ev => is_fatal ev = false) (lookup_events cs bs).
Proof. by apply Forall_lookup_events. Qed.

Lemma no_fatal_save_events cs rs :
  Forall (fun ev => is_fatal ev = false) (save_events cs rs).
Proof. by apply Forall_save_events. Qed.

Lemma no_fatal_dispatch_events slice batch de :
  Forall (fun ev => is_fatal ev = false) (dispatch_events slice batch de) <->
  match de with SendRaised _ => False | _ => True end.
Proof.
  destruct de as [| e | d rs]; simpl.
  - split; [done | constructor].
  - split; [| done]. by intros [? _]%Forall_cons.
  - split; [done |]. intros _. constructor; [done |].
    apply no_fatal_save_events.
Qed.

Lemma no_fatal_try_events te :
  Forall (fun ev => is_fatal ev = false) (try_events te) <->
  try_error te = None.
Proof.
  destruct te as [e | cs pre c bs e | cs bs de]; simpl.
  - split; [| done]. by intros [? _]%Forall_cons.
  - split; [| done]. intros [_ [_ H]%Forall_app]%Forall_cons.
    by apply Forall_cons in H as [? _].
  - rewrite Forall_cons, Forall_app, no_fatal_dispatch_events.
    destruct de; simpl; split; try done.
    + intros _. split; [done |]. split; [apply no_fatal_lookup_events | done].
    + by intros (_ & _ & ?).
    + intros _. split; [done |]. split; [apply no_fatal_lookup_events | done].
Qed.

Lemma try_result_ok te :
  (exists st, try_result te = Ok st) <-> try_error te = None.
Proof.
  unfold try_result. destruct (try_error te); split; try done.
  - by intros [st ?].
  - intros _. by eexists.
Qed.

Lemma no_complete_try_events te :
  Forall (fun ev => is_session ev = false) (try_events te).
Proof. by apply Forall_try_events. Qed.

(** X4: When [start_export_session] raises, [process] raises that very
    exception, not a [ProcessingError]: the call stands before the [try]
    statement.  It is the only call of the run, so nothing is parsed, no
    session is completed, and the statistics stay as they were. *)
Theorem process_start_failure (s : St W) e :
  (start_export_session E clippings_file (world s)).1 = Raise e ->
  (process E clippings_file false s).1 = Raise e /\
  events_of (process E clippings_file false) s =
    [EvStartSession clippings_file (Raise e)] /\
  same_locals s (process E clippings_file false s).2.
Proof.
  intros H. unfold events_of, process, bind, call. cbn [negb].
  destruct (start_export_session E clippings_file (world s)) as [r w'].
  simpl in H. subst r. simpl. rewrite drop_app_length. by repeat split.
Qed.

(** X5: When [complete_export_session] raises, [process] raises that very
    exception: raised in the [finally] clause, it replaces the statistics
    that [process] was about to return and the [ProcessingError] that was
    on its way to the caller alike.  The completion call is the last call
    of the run. *)
Theorem process_completion_failure (s : St W) sid final status e :
  EvCompleteSession sid final status (Raise e)
    ∈ events_of (process E clippings_file dry_run) s ->
  (process E clippings_file dry_run s).1 = Raise e /\
  last (events_of (process E clippings_file dry_run) s) =
    Some (EvCompleteSession sid final status (Raise e)).
Proof.
  destruct (process_shape E clippings_file dry_run s)
    as (pe & Hwf & Hst & Hres & Hlog).
  rewrite (events_of_app _ _ _ Hlog), Hres.
  assert (Hno : forall te,
            EvCompleteSession sid final status (Raise e) ∈ try_events te ->
            False).
  { intros te Hin. pose proof (no_complete_try_events te) as Hall.
    rewrite Forall_forall in Hall. by apply Hall in Hin. }
  destruct pe as [e0 | [sid0 |] te rc]; simpl.
  - by intros [=]%list_elem_of_singleton.
  - rewrite elem_of_cons, elem_of_app.
    intros [[=] | [Hin | Hin%list_elem_of_singleton]];
      [by apply Hno in Hin |].
    injection Hin as <- <- <- <-. split; [done |].
    by rewrite app_comm_cons, last_snoc.
  - intros Hin. by apply Hno in Hin.
Qed.

(** X6: A run, [process] or [process_selected], returns its statistics
    exactly when no call other than [save_highlight] raised.  A failure
    of [save_highlight] never fails the run, and any other failure
    always does. *)
Theorem run_returns_iff_no_call_failed rk (s : St W) :
  (exists st, (exec E clippings_file dry_run rk s).1 = Ok st) <->
  Forall (fun ev => is_fatal ev = false)
         (events_of (exec E clippings_file dry_run rk) s).
Proof.
  destruct rk as [| ids]; simpl.
  - destruct (process_shape E clippings_file dry_run s)
      as (pe & Hwf & Hst & Hres & Hlog).
    rewrite (events_of_app _ _ _ Hlog), Hres.
    destruct pe as [e0 | [sid0 |] te rc]; simpl.
    + split; [by intros [st ?] | by intros [? _]%Forall_cons].
    + rewrite Forall_cons, Forall_app, Forall_singleton, no_fatal_try_events,
        <- try_result_ok.
      destruct rc as [u | e]; simpl.
      * split; [by intros ? | by intros (_ & ? & _)].
      * split; [by intros [st ?] | by intros (_ & _ & ?)].
    + rewrite no_fatal_try_events, <- try_result_ok.
      by destruct rc.
  - destruct (process_selected_shape E dry_run ids s)
      as (se & Hwf & Hpv & Hres & Hlog).
    rewrite (events_of_app _ _ _ Hlog), Hres.
    destruct se as [e | cs0 e | cs0 cs pre c bs e | cs0 cs bs de]; simpl.
    + split; [by intros [st ?] | by intros [? _]%Forall_cons].
    + split; [by intros [st ?] |].
      by intros [_ [? _]%Forall_cons]%Forall_cons.
    + split; [by intros [st ?] |].
      intros [_ [_ [_ H]%Forall_app]%Forall_cons]%Forall_cons.
      by apply Forall_cons in H as [? _].
    + rewrite !Forall_cons, Forall_app, no_fatal_dispatch_events.
      destruct de as [| e | d rs]; simpl.
      * split; [| by eexists]. intros _.
        repeat split; try done. apply no_fatal_lookup_events.
      * split; [by intros [st ?] | by intros (_ & _ & _ & ?)].
      * split; [| by eexists]. intros _.
        repeat split; try done. apply no_fatal_lookup_events.
Qed.

(** X7: When [process] raises, it raises one of two things.  Either a
    [ProcessingError] whose message is "Processing failed: " followed by
    the text of the exception that aborted the [try] clause, and whose
    cause is that exception: the one raised by the parser, by a lookup or
    by the sink, the only call of the run that aborted.  Or, outside
    preview mode only, the exception of a session call, as it is: the last
    call of the run was [start_export_session] or
    [complete_export_session], and it raised.  In preview mode [process]
    raises nothing but a [ProcessingError]. *)
Theorem process_raises_wrapped (s : St W) x :
  (process E clippings_file dry_run s).1 = Raise x ->
  (exists e,
     omap abort_cause (events_of (process E clippings_file dry_run) s) = [e]
     /\ x = ProcessingError ("Processing failed: " +:+ exn_str e) e) \/
  (dry_run = false /\
   exists ev,
     last (events_of (process E clippings_file dry_run) s) = Some ev /\
     is_session ev = true /\ raised_of ev = Some x).
Proof.
  destruct (process_shape E clippings_file dry_run s)
    as (pe & Hwf & Hst & Hres & Hlog).
  rewrite (events_of_app _ _ _ Hlog), Hres.
  assert (Hwrap : forall te,
            try_result te = Raise x ->
            exists e, omap abort_cause (try_events te) = [e] /\
              x = ProcessingError ("Processing failed: " +:+ exn_str e) e).
  { intros te. unfold try_result. rewrite abort_cause_try_events.
    destruct (try_error te) as [e |]; [| done].
    intros [= <-]. by exists e. }
  destruct pe as [e0 | [sid0 |] te rc]; simpl.
  - intros [= ->]. right. split; [done |]. eexists. by repeat split.
  - destruct rc as [u | e].
    + intros (e & Hc & ->)%Hwrap. left. exists e. split; [| done].
      refold_omap. rewrite omap_app, Hc. by rewrite app_nil_r.
    + intros [= ->]. right. destruct Hwf as [Hdry _].
      split.
      { destruct dry_run; [| done]. destruct Hdry as [Hd _].
        by specialize (Hd eq_refl). }
      eexists. rewrite app_comm_cons, last_snoc. by repeat split.
  - intros H. left. by apply Hwrap. 
Qed.

(** X8: When [process_selected] raises, the exception is the one the failing
    call raised, as it is: unlike [process], [process_selected] wraps
    nothing.  The failing call, to the parser, to a lookup or to the sink,
    is the last call of the run, no call before it failed, and nothing
    has been saved. *)
Theorem process_selected_raises_raw ids (s : St W) e :
  (process_selected E dry_run ids s).1 = Raise e ->
  (exists evs ev,
     events_of (process_selected E dry_run ids) s = evs ++ [ev] /\
     abort_cause ev = Some e /\
     Forall (fun ev => is_fatal ev = false) evs) /\
  Forall (fun ev => is_save ev = false)
         (events_of (process_selected E dry_run ids) s).
Proof.
  destruct (process_selected_shape E dry_run ids s)
    as (se & Hwf & Hpv & Hres & Hlog).
  rewrite (events_of_app _ _ _ Hlog), Hres.
  destruct se as [e0 | cs0 e0 | cs0 cs pre c bs e0 | cs0 cs bs de]; simpl.
  - intros [= ->]. split; [| by repeat constructor].
    exists [], (EvParse (Raise e)). by repeat split.
  - intros [= ->]. split; [| by repeat constructor].
    exists [EvParse (Ok cs0)], (EvParse (Raise e)).
    split; [done |]. split; [done |]. by repeat constructor.
  - intros [= ->]. split.
    + exists (EvParse (Ok cs0) :: EvParse (Ok cs) :: lookup_events pre bs),
        (EvExists (key_of c) (Raise e)).
      split; [done |]. split; [done |].
      repeat (constructor; [done |]). apply no_fatal_lookup_events.
    + repeat (constructor; [done |]). apply Forall_app. split.
      * by apply Forall_lookup_events.
      * by repeat constructor.
  - destruct de as [| e0 | d rs]; [done | | done].
    intros [= ->]. simpl. split.
    + exists (EvParse (Ok cs0) :: EvParse (Ok cs) :: lookup_events cs bs),
        (EvSend (selected_clippings_of (pending_view cs bs 0) ids) (Raise e)).
      split; [done |]. split; [done |].
      repeat (constructor; [done |]). apply no_fatal_lookup_events.
    + repeat (constructor; [done |]). apply Forall_app. split.
      * by apply Forall_lookup_events.
      * by repeat constructor.
Qed.

End Endings.

(** ** Dispatching *)

Section Dispatching.
Context {W : Type}.
Variable E : Env W.
Variable clippings_file : string.
Variable dry_run : bool.

(** Every run is a dispatch between two stretches of calls that neither
    send nor save; the records of the batch were all looked up and found
    absent before. *)
Lemma run_dispatch rk (s : St W) :
  exists pre batch de post,
    events_of (exec E clippings_file dry_run rk) s =
      pre ++ dispatch_events (saved_slice rk) batch de ++ post /\
    dispatch_wf (saved_slice rk) dry_run batch de /\
    Forall (fun ev => is_send ev = false /\ is_save ev = false) pre /\
    Forall (fun ev => is_send ev = false /\ is_save ev = false) post /\
    (forall c, c ∈ batch -> EvExists (key_of c) (Ok false) ∈ pre).
Proof.
  assert (Hlk : forall cs bs,
            Forall (fun ev => is_send ev = false /\ is_save ev = false)
                   (lookup_events cs bs))
    by (intros; by apply Forall_lookup_events).
  assert (Hnone : forall evs,
            Forall (fun ev => is_send ev = false /\ is_save ev = false) evs ->
            exists pre batch de post,
              evs = pre ++ dispatch_events (saved_slice rk) batch de ++ post /\
              dispatch_wf (saved_slice rk) dry_run batch de /\
              Forall (fun ev => is_send ev = false /\ is_save ev = false) pre
              /\
              Forall (fun ev => is_send ev = false /\ is_save ev = false) post
              /\
              (forall c, c ∈ batch -> EvExists (key_of c) (Ok false) ∈ pre)).
  { intros evs Hevs. exists evs, [], NotSent, []. simpl.
    rewrite app_nil_r. split; [done |]. split; [by right |].
    split; [done |]. split; [constructor |]. by intros c ?%elem_of_nil. }
  destruct rk as [| ids]; simpl.
  - destruct (process_shape E clippings_file dry_run s)
      as (pe & Hwf & _ & _ & Hlog).
    rewrite (events_of_app _ _ _ Hlog). clear Hlog.
    destruct pe as [e0 | sid te rc]; [apply Hnone; by repeat constructor |].
    destruct Hwf as [_ Hwf].
    destruct te as [e | cs pre c bs e | cs bs de].
    + apply Hnone. destruct sid; simpl; by repeat constructor.
    + apply Hnone. destruct sid; simpl; repeat (constructor; [done |]);
        repeat (apply Forall_app; split); auto; by repeat constructor.
    + destruct Hwf as [Hlen Hwf].
      assert (Habs : forall (pre : list event) c,
                c ∈ new_clippings_of cs bs ->
                EvExists (key_of c) (Ok false)
                  ∈ pre ++ lookup_events (valid_clippings cs) bs).
      { intros pre c Hc. apply elem_of_app. right.
        by apply absent_lookup_event. }
      destruct sid as [sid |]; simpl.
      * exists ([EvStartSession clippings_file (Ok sid); EvParse (Ok cs)] ++
                lookup_events (valid_clippings cs) bs),
          (new_clippings_of cs bs), de,
          [EvCompleteSession sid
             (session_of (try_stats (Filtered cs bs de)))
             (try_status (Filtered cs bs de)) rc].
        split; [by rewrite <- !app_assoc |]. split; [done |].
        split; [apply Forall_app; split; auto; by repeat constructor |].
        split; [by repeat constructor |]. apply Habs.
      * exists ([EvParse (Ok cs)] ++ lookup_events (valid_clippings cs) bs),
          (new_clippings_of cs bs), de, [].
        split; [by rewrite app_nil_r, <- !app_assoc |]. split; [done |].
        split; [apply Forall_app; split; auto; by repeat constructor |].
        split; [constructor |]. apply Habs.
  - destruct (process_selected_shape E dry_run ids s)
      as (se & Hwf & _ & _ & Hlog).
    rewrite (events_of_app _ _ _ Hlog). clear Hlog.
    destruct se as [e | cs0 e | cs0 cs pre c bs e | cs0 cs bs de]; simpl.
    + apply Hnone. by repeat constructor.
    + apply Hnone. by repeat constructor.
    + apply Hnone. repeat (constructor; [done |]).
      apply Forall_app; split; auto; by repeat constructor.
    + destruct Hwf as [Hlen Hwf].
      exists ([EvParse (Ok cs0); EvParse (Ok cs)] ++ lookup_events cs bs),
        (selected_clippings_of (pending_view cs bs 0) ids), de, [].
      split; [by rewrite app_nil_r, <- !app_assoc |]. split; [done |].
      split; [apply Forall_app; split; auto; by repeat constructor |].
      split; [constructor |].
      intros c (h & -> & Hh)%list_elem_of_fmap.
      apply select_highlights_elem_of, (pending_lookup_event cs bs 0) in Hh.
      apply elem_of_app. by right.
Qed.

Lemma filter_send_none (evs : list event) :
  Forall (fun ev => is_send ev = false /\ is_save ev = false) evs ->
  filter (fun ev => is_send ev = true) evs = [].
Proof.
  induction 1 as [| ev evs [Hev _] _ IH]; [done |].
  rewrite filter_cons, decide_False; [done | by rewrite Hev].
Qed.

Lemma filter_send_save_events cs rs :
  filter (fun ev => is_send ev = true) (save_events cs rs) = [].
Proof.
  revert rs. induction cs as [| c cs IH]; intros [| r rs]; simpl; try done.
  rewrite filter_cons, decide_False; [apply IH | done].
Qed.

Lemma saved_of_none (evs : list event) :
  Forall (fun ev => is_send ev = false /\ is_save ev = false) evs ->
  omap saved_of evs = [].
Proof.
  induction 1 as [| ev evs [_ Hev] _ IH]; [done |].
  simpl. refold_omap. rewrite IH. by destruct ev.
Qed.

Lemma send_not_in (evs : list event) b r :
  Forall (fun ev => is_send ev = false /\ is_save ev = false) evs ->
  EvSend b r ∈ evs -> False.
Proof.
  rewrite Forall_forall. intros H Hin. by destruct (H _ Hin).
Qed.

Lemma send_in_dispatch slice batch de b r :
  dispatch_wf slice dry_run batch de ->
  EvSend b r ∈ dispatch_events slice batch de ->
  dry_run = false /\ batch <> [] /\ b = batch.
Proof.
  destruct de as [| e | d rs]; simpl.
  - by intros _ ?%elem_of_nil.
  - intros [Hd Hne] [= -> ->]%list_elem_of_singleton. done.
  - intros (Hd & Hne & _) [[= -> ->] | Hin]%elem_of_cons; [done |].
    by apply elem_of_save_events in Hin as (c & r' & [=] & _).
Qed.

(** X9: A run, [process] or [process_selected], calls the sink at most once,
    never in preview mode and never with an empty batch; every record of
    the batch was looked up in this run and found absent. *)
Theorem at_most_one_send rk (s : St W) :
  (length (filter (fun ev => is_send ev = true)
                  (events_of (exec E clippings_file dry_run rk) s)) <= 1)%nat
  /\
  forall b r,
    EvSend b r ∈ events_of (exec E clippings_file dry_run rk) s ->
    dry_run = false /\ b <> [] /\
    forall c, c ∈ b ->
      EvExists (key_of c) (Ok false)
        ∈ events_of (exec E clippings_file dry_run rk) s.
Proof.
  destruct (run_dispatch rk s)
    as (pre & batch & de & post & -> & Hwf & Hpre & Hpost & Habs).
  split.
  - rewrite !filter_app, (filter_send_none pre), (filter_send_none post)
      by done.
    rewrite app_nil_l, app_nil_r.
    destruct de as [| e | d rs]; cbn [dispatch_events]; [simpl; lia | done |].
    rewrite filter_cons, decide_True by done.
    by rewrite filter_send_save_events.
  - intros b r [Hin | [Hin | Hin]%elem_of_app]%elem_of_app.
    + by apply send_not_in in Hin.
    + destruct (send_in_dispatch _ _ _ _ _ Hwf Hin) as (Hd & Hne & ->).
      split; [done |]. split; [done |].
      intros c Hc. apply elem_of_app. left. by apply Habs.
    + by apply send_not_in in Hin.
Qed.

(** X10: On a ledger whose lookups reflect completed saves, a run neither
    sends nor saves a record whose key the ledger held when the run
    started. *)
Theorem stored_records_are_not_sent (stored : W -> DedupKey -> bool) rk
    (s : St W) :
  ledger_contract E stored ->
  (forall b r c,
     EvSend b r ∈ events_of (exec E clippings_file dry_run rk) s ->
     c ∈ b -> stored (world s) (key_of c) = false) /\
  (forall c st r,
     EvSave c st r ∈ events_of (exec E clippings_file dry_run rk) s ->
     stored (world s) (key_of c) = false).
Proof.
  intros contract.
  destruct (ledger_after_run E clippings_file stored contract dry_run rk s)
    as (_ & _ & _ & Habsent).
  split.
  - intros b r c Hsend Hc. apply Habsent. clear Habsent. revert Hsend.
    destruct (run_dispatch rk s)
      as (pre & batch & de & post & -> & Hwf & Hpre & Hpost & Habs).
    intros [Hin | [Hin | Hin]%elem_of_app]%elem_of_app.
    + by apply send_not_in in Hin.
    + destruct (send_in_dispatch _ _ _ _ _ Hwf Hin) as (_ & _ & ->).
      apply elem_of_app. left. by apply Habs.
    + by apply send_not_in in Hin.
  - intros c st r Hsave. apply Habsent.
    by apply (save_follows_absent_lookup _ _ _ _ _ c st r).
Qed.

(** X11: What is saved once the sink has answered a batch [b] with a dict
    [d], whatever the dict holds: [process] saves [b[:sent]] and
    [process_selected] saves [b[:sent]] when [sent > 0], with
    [sent = d.get("sent", 0)].  So an answer without the key "sent" saves
    nothing; a count of [len(b)] or more saves every record of the batch
    once, and no more; and under a negative count [process], by Python's
    slicing, saves all but the last [-sent] records of the batch, while
    [process_selected] saves nothing. *)
Theorem saves_follow_python_slice rk (s : St W) b d :
  EvSend b (Ok d) ∈ events_of (exec E clippings_file dry_run rk) s ->
  omap saved_of (events_of (exec E clippings_file dry_run rk) s) =
    with_success <$> saved_slice rk b d /\
  (d !! "sent" = None -> saved_slice rk b d = []) /\
  (len b <= dict_get0 d "sent" -> saved_slice rk b d = b) /\
  (dict_get0 d "sent" < 0 ->
   saved_slice rk b d =
     match rk with
     | Process => take (Z.to_nat (len b + dict_get0 d "sent")) b
     | ProcessSelected _ => []
     end).
Proof.
  intros Hsend. split.
  - revert Hsend. destruct (run_dispatch rk s)
      as (pre & batch & de & post & -> & Hwf & Hpre & Hpost & Habs).
    intros [Hin | [Hin | Hin]%elem_of_app]%elem_of_app.
    + by apply send_not_in in Hin.
    + apply send_in_dispatch_events in Hin as (rs & -> & ->).
      rewrite !omap_app, (saved_of_none pre), (saved_of_none post) by done.
      rewrite app_nil_l, app_nil_r.
      by rewrite (saved_of_dispatch_events _ dry_run).
    + by apply send_not_in in Hin.
  - assert (Hmiss : d !! "sent" = None -> dict_get0 d "sent" = 0)
      by (unfold dict_get0; by intros ->).
    assert (Hb : b = [] \/ 0 < len b)
      by (destruct b; [by left | right; unfold len; simpl; lia]).
    unfold len in *.
    destruct rk; unfold saved_slice, saved_slice_process,
      saved_slice_selected, slice_to, len;
      set (k := dict_get0 d "sent") in *.
    + split; [| split].
      * intros Hk%Hmiss. by rewrite Hk.
      * intros Hk. rewrite (proj2 (Z.leb_le 0 k)) by lia.
        apply take_ge. lia.
      * intros Hk. by rewrite (proj2 (Z.leb_gt 0 k)) by lia.
    + split; [| split].
      * intros Hk%Hmiss. by rewrite Hk.
      * intros Hk. destruct Hb as [-> | Hb].
        -- destruct (0 <? k); [| done]. destruct (0 <=? k); by rewrite take_nil.
        -- rewrite (proj2 (Z.ltb_lt 0 k)), (proj2 (Z.leb_le 0 k)) by lia.
           apply take_ge. lia.
      * intros Hk. by rewrite (proj2 (Z.ltb_ge 0 k)) by lia.
Qed.

End Dispatching.

(** ** The order of the calls *)

Section Order.
Context {W : Type}.
Variable E : Env W.
Variable clippings_file : string.
Variable dry_run : bool.











End Order.

(** ** The pending view and the selection *)

Section Pending.
Context {W : Type}.
Variable E : Env W.
Variable clippings_file : string.
Variable dry_run : bool.

Lemma pending_view_absent cs : forall bs idx,
  original_clipping <$> pending_view cs bs idx = absent_of cs bs.
Proof.
  induction cs as [| c cs IH]; intros [| b bs] idx; simpl; try done.
  destruct b; simpl; by rewrite IH.
Qed.

Lemma sorted_ids_NoDup (l : list Z) : StronglySorted Z.lt l -> NoDup l.
Proof.
  induction 1 as [| x l _ IH Hx]; constructor; [| done].
  intros Hin. rewrite Forall_forall in Hx. apply Hx in Hin. lia.
Qed.

Lemma pending_view_NoDup cs bs idx : NoDup (ph_id <$> pending_view cs bs idx).
Proof. apply sorted_ids_NoDup, pending_view_sorted. Qed.

Lemma same_id_same_entry (pending : list PendingHighlight) h h' :
  NoDup (ph_id <$> pending) -> h ∈ pending -> h' ∈ pending ->
  ph_id h = ph_id h' -> h = h'.
Proof.
  intros Hnd (i & Hi)%list_elem_of_lookup (j & Hj)%list_elem_of_lookup Hid.
  assert (i = j).
  { eapply NoDup_lookup; [exact Hnd | |].
    - by rewrite list_lookup_fmap, Hi.
    - rewrite list_lookup_fmap, Hj. simpl. by rewrite Hid. }
  subst j. congruence.
Qed.

Lemma id_to_highlight_lookup_iff pending id h :
  NoDup (ph_id <$> pending) ->
  id_to_highlight_of pending !! id = Some h <-> h ∈ pending /\ ph_id h = id.
Proof.
  intros Hnd. split; [apply id_to_highlight_lookup |].
  intros [Hin <-].
  destruct (proj2 (id_to_highlight_is_Some pending (ph_id h))) as [h' Hh'].
  { apply list_elem_of_fmap. by exists h. }
  rewrite Hh'. f_equal.
  apply id_to_highlight_lookup in Hh' as [Hin' Hid].
  by apply (same_id_same_entry pending).
Qed.

Lemma select_all (pending : list PendingHighlight) :
  NoDup (ph_id <$> pending) ->
  select_highlights (id_to_highlight_of pending) (ph_id <$> pending) =
  pending.
Proof.
  intros Hnd. unfold select_highlights.
  assert (Hall : forall l : list PendingHighlight,
            (forall h, h ∈ l -> h ∈ pending) ->
            omap (fun id => id_to_highlight_of pending !! id) (ph_id <$> l)
            = l).
  { induction l as [| h l IH]; intros Hl; [done |].
    simpl. refold_omap.
    rewrite (proj2 (id_to_highlight_lookup_iff pending (ph_id h) h Hnd))
      by (split; [apply Hl; by left | done]).
    f_equal. apply IH. intros h' Hh'. apply Hl. by right. }
  by apply Hall.
Qed.

Lemma get_pending_highlights_ok (s : St W) pending :
  (get_pending_highlights E s).1 = Ok pending ->
  exists cs bs,
    length bs = length cs /\
    events_of (get_pending_highlights E) s =
      EvParse (Ok cs) :: lookup_events cs bs /\
    pending = pending_view cs bs 0.
Proof.
  unfold events_of, get_pending_highlights, bind.
  destruct (call EvParse (parse E) s) as [[cs | e] s1] eqn:Hparse;
    apply call_inv in Hparse as (w1 & _ & ->); [| done].
  match goal with
  | |- context [_pending_loop E cs 0 [] ?s0] =>
      destruct (_pending_loop E cs 0 [] s0) as [[pending' | e] s2] eqn:Hp
  end; [| done].
  apply pending_loop_ok in Hp as (bs & Hlen & Hlog & ->).
  simpl. intros [= <-]. exists cs, bs. split; [done |].
  split; [| done]. rewrite Hlog. simpl.
  by rewrite <- app_assoc, drop_app_length.
Qed.

(** X13: [get_pending_highlights] only reads: it parses the source and looks
    keys up, and it never opens a session, sends or saves, in any mode;
    the statistics of the pipeline object are not touched.  When it
    returns, it has parsed once and looked up the key of every parsed
    record once, in parse order, records without content included; the
    descriptors it returns are those of the records whose lookup answered
    "absent", so their number and the number of lookups answered "found"
    add up to the number of parsed records. *)
Theorem get_pending_highlights_reads_only (s : St W) :
  Forall (fun ev => is_lookup ev = true)
         (events_of (get_pending_highlights E) s) /\
  same_locals s (get_pending_highlights E s).2 /\
  forall pending,
    (get_pending_highlights E s).1 = Ok pending ->
    exists cs bs,
      length bs = length cs /\
      events_of (get_pending_highlights E) s =
        EvParse (Ok cs) :: lookup_events cs bs /\
      omap queried_of (events_of (get_pending_highlights E) s) =
        key_of <$> cs /\
      original_clipping <$> pending = absent_of cs bs /\
      len pending + count_found bs = len cs.
Proof.
  split; [| split].
  - apply events_of_extends, respects_get_pending_highlights; try apply _.
    + by apply extends_call.
    + intros k. by apply extends_call.
  - apply respects_get_pending_highlights; try apply _.
    + apply same_locals_call.
    + intros k. apply same_locals_call.
  - intros pending (cs & bs & Hlen & Hev & ->)%get_pending_highlights_ok.
    exists cs, bs. rewrite Hev. split; [done |]. split; [done |].
    split; [| split].
    + simpl. refold_omap. by rewrite queried_of_lookup_events.
    + apply pending_view_absent.
    + unfold len at 1. rewrite pending_view_length.
      by apply absent_of_count.
Qed.

(** X14: Insert and look up: in the dict that [process_selected] builds from
    the list [get_pending_highlights] returned, every id is the key of
    exactly the descriptor that carries it, since no two descriptors
    share an id.  Selecting the ids of the list, in its order, gives the
    list back. *)
Theorem select_all_round_trip (s : St W) pending :
  (get_pending_highlights E s).1 = Ok pending ->
  NoDup (ph_id <$> pending) /\
  (forall id h,
     id_to_highlight_of pending !! id = Some h <->
     h ∈ pending /\ ph_id h = id) /\
  select_highlights (id_to_highlight_of pending) (ph_id <$> pending) =
    pending.
Proof.
  intros (cs & bs & _ & _ & ->)%get_pending_highlights_ok.
  pose proof (pending_view_NoDup cs bs 0) as Hnd.
  split; [done |]. split; [| by apply select_all].
  intros id h. by apply id_to_highlight_lookup_iff.
Qed.

Lemma selected_shape_pending ids (s : St W) pending :
  pending_view_in E s = Some pending ->
  exists cs0 cs bs de,
    pending = pending_view cs bs 0 /\
    length bs = length cs /\
    dispatch_wf saved_slice_selected dry_run
      (selected_clippings_of pending ids) de /\
    (process_selected E dry_run ids s).1 =
      selected_result ids (SelPending cs0 cs bs de) /\
    events_of (process_selected E dry_run ids) s =
      selected_events ids (SelPending cs0 cs bs de).
Proof.
  intros Hpv.
  destruct (process_selected_shape E dry_run ids s)
    as (se & Hwf & Hse & Hres & Hlog).
  rewrite Hpv in Hse. apply events_of_app in Hlog.
  destruct se as [| | | cs0 cs bs de]; try done.
  injection Hse as ->. destruct Hwf as [Hlen Hwf].
  by exists cs0, cs, bs, de.
Qed.

Lemma selected_returns_pending ids (s : St W) st :
  (process_selected E dry_run ids s).1 = Ok st ->
  exists pending, pending_view_in E s = Some pending.
Proof.
  destruct (process_selected_shape E dry_run ids s)
    as (se & _ & Hse & -> & _).
  rewrite Hse. destruct se; try done. by eexists.
Qed.

(** X15: Selecting every id of the pending view exports the whole view: the
    batch [process_selected] sends holds the record of every pending
    descriptor, once, in the order of the view, which is parse order; in
    preview mode it returns [new_sent] equal to the size of the view. *)
Theorem process_selected_all_pending (s : St W) pending :
  pending_view_in E s = Some pending ->
  (forall b r,
     EvSend b r ∈ events_of (process_selected E dry_run (ph_id <$> pending)) s
     -> b = original_clipping <$> pending) /\
  (dry_run = true ->
   exists st,
     (process_selected E dry_run (ph_id <$> pending) s).1 = Ok st /\
     new_sent st = len pending /\
     total_processed st - duplicates_skipped st = len pending).
Proof.
  intros Hpv.
  destruct (selected_shape_pending (ph_id <$> pending) s pending Hpv)
    as (cs0 & cs & bs & de & Hp & Hlen & Hwf & Hres & Hev).
  assert (Hsel : selected_clippings_of pending (ph_id <$> pending) =
                 original_clipping <$> pending).
  { unfold selected_clippings_of. rewrite select_all; [done |].
    rewrite Hp. apply pending_view_NoDup. }
  rewrite Hev, Hres. subst pending. rewrite Hsel in *. split.
  - intros b r. simpl. rewrite !elem_of_cons, elem_of_app.
    intros [[=] | [[=] | [Hin | Hin]]].
    + by apply elem_of_lookup_events in Hin as (c & b' & [=] & _).
    + rewrite Hsel in Hin.
      by destruct (send_in_dispatch dry_run _ _ _ _ _ Hwf Hin) as (_ & _ & ->).
  - intros ->. destruct de as [| e | d rs]; simpl in Hwf.
    + eexists. split; [reflexivity |]. simpl. rewrite Hsel.
      unfold len. rewrite length_fmap. split; lia.
    + by destruct Hwf.
    + by destruct Hwf.
Qed.

Lemma no_pending_id view (ids : list Z) :
  Forall (fun id => is_pending_id view id = false) ids ->
  filter (fun id => is_pending_id view id = true) ids = [].
Proof.
  induction 1 as [| id ids Hid _ IH]; [done |].
  rewrite filter_cons, decide_False; [done | by rewrite Hid].
Qed.

(** X16: When no selected id is the id of a pending descriptor, and so when
    the selection is empty, [process_selected] exports nothing in either
    mode: it parses and looks keys up, calls neither the sink nor
    [save_highlight], and, when it returns, reports [new_sent = 0] and
    [failed_to_send = 0]. *)
Theorem process_selected_nothing_selected ids (s : St W) :
  Forall (fun id => is_pending_id (pending_view_in E s) id = false) ids ->
  Forall (fun ev => is_lookup ev = true)
         (events_of (process_selected E dry_run ids) s) /\
  forall st, (process_selected E dry_run ids s).1 = Ok st ->
    new_sent st = 0 /\ failed_to_send st = 0.
Proof.
  intros Hids.
  destruct (process_selected_shape E dry_run ids s)
    as (se & Hwf & Hse & Hres & Hlog).
  rewrite (events_of_app _ _ _ Hlog), Hres. rewrite Hse in Hids.
  destruct se as [e | cs0 e | cs0 cs pre c bs e | cs0 cs bs de]; simpl.
  - split; [by repeat constructor | done].
  - split; [by repeat constructor | done].
  - split; [| done]. repeat (constructor; [done |]).
    apply Forall_app. split; [by apply Forall_lookup_events |].
    by repeat constructor.
  - destruct Hwf as [Hlen Hwf]. simpl in Hids.
    assert (Hsel : selected_clippings_of (pending_view cs bs 0) ids = []).
    { apply length_zero_iff_nil. unfold selected_clippings_of.
      rewrite length_fmap, select_highlights_length.
      by rewrite no_pending_id. }
    rewrite Hsel in *.
    destruct de as [| e | d rs]; simpl in Hwf.
    + split.
      * repeat (constructor; [done |]). simpl. rewrite app_nil_r.
        by apply Forall_lookup_events.
      * by intros st [= <-].
    + by destruct Hwf.
    + by destruct Hwf as (_ & ? & _).
Qed.

Lemma found_lookup_events cs : forall bs,
  length bs = length cs ->
  len (filter (fun ev => is_found ev = true) (lookup_events cs bs)) =
  count_found bs.
Proof.
  induction cs as [| c cs IH]; intros [| b bs] Hlen; simpl in *; try done.
  rewrite count_found_cons, <- IH by lia.
  rewrite filter_cons. destruct b.
  - rewrite decide_True by done. unfold len. simpl. lia.
  - rewrite decide_False by done. lia.
Qed.

Lemma found_dispatch_events slice batch de :
  filter (fun ev => is_found ev = true) (dispatch_events slice batch de) = [].
Proof.
  assert (Hs : forall cs rs,
            filter (fun ev => is_found ev = true) (save_events cs rs) = []).
  { induction cs as [| c cs IH]; intros [| r rs]; simpl; try done.
    rewrite filter_cons, decide_False; [apply IH | done]. }
  destruct de as [| e | d rs]; cbn [dispatch_events]; [done | done |].
  rewrite filter_cons, decide_False by done. apply Hs.
Qed.

(** X17: What [process_selected] counts: it parses the source twice, once by
    itself and once inside [get_pending_highlights].  [total_processed]
    is the number of records of the first parse, and [duplicates_skipped]
    is that number minus the size of the pending view, which comes from
    the second parse; a pending record that is not selected is counted
    as processed and nowhere else.  When both parses read the same
    number of records, [duplicates_skipped] is the number of lookups that
    answered "found". *)
Theorem process_selected_counts ids (s : St W) st :
  (process_selected E dry_run ids s).1 = Ok st ->
  exists cs0 cs pending,
    omap parsed_of (events_of (process_selected E dry_run ids) s) = [cs0; cs]
    /\
    pending_view_in E s = Some pending /\
    total_processed st = len cs0 /\
    duplicates_skipped st = len cs0 - len pending /\
    (len cs0 = len cs ->
     duplicates_skipped st =
       len (filter (fun ev => is_found ev = true)
                   (events_of (process_selected E dry_run ids) s))).
Proof.
  intros Hst.
  destruct (selected_returns_pending ids s st Hst) as [pending Hpv].
  destruct (selected_shape_pending ids s pending Hpv)
    as (cs0 & cs & bs & de & Hp & Hlen & Hwf & Hres & Hev).
  exists cs0, cs, pending. rewrite Hev. rewrite Hres in Hst. split.
  { simpl. refold_omap. rewrite omap_app, parsed_of_lookup_events.
    destruct de as [| e | d rs]; simpl; [done | done |].
    refold_omap. by rewrite parsed_of_save_events. }
  split; [done |].
  assert (Hcount : len cs0 = len cs ->
            len cs0 - len pending =
            len (filter (fun ev => is_found ev = true)
                   (selected_events ids (SelPending cs0 cs bs de)))).
  { intros Heq. cbn [selected_events].
    rewrite !filter_cons, !decide_False by done.
    rewrite filter_app, found_dispatch_events, app_nil_r.
    rewrite found_lookup_events by done.
    rewrite Hp. unfold len at 2. rewrite pending_view_length.
    pose proof (absent_of_count cs bs Hlen). unfold len in *. lia. }
  subst pending.
  destruct de as [| e | d rs]; simpl in Hst; [| done |];
    injection Hst as <-; simpl; by repeat split.
Qed.

End Pending.

(** ** The preview and the pending view *)

Section PreviewAndPending.
Context {W : Type}.
Variable E : Env W.
Variable clippings_file : string.

(** While the ledger stands still, the loop of [_filter_duplicates]
    computes the records with content that the ledger does not hold, and
    counts those that it holds. *)
Lemma filter_loop_fixed_ledger (ex : DedupKey -> bool) w cs :
  (forall k, highlight_exists E k w = (Ok (ex k), w)) ->
  forall new d (s : St W),
    world s = w ->
    exists s',
      _filter_duplicates_loop E cs new d s =
        (Ok (new ++ filter (fun c => ex (key_of c) = false)
                           (valid_clippings cs),
             d + len (filter (fun c => ex (key_of c) = true)
                             (valid_clippings cs))), s') /\
      world s' = w /\ same_locals s s'.
Proof.
  intros Hex. induction cs as [| c cs IH]; intros new d s Hw.
  - exists s. simpl. rewrite app_nil_r, Z.add_0_r. by repeat split.
  - cbn [_filter_duplicates_loop].
    destruct (truthy_str (content c)) eqn:Hc; cbn [negb].
    + rewrite (valid_clippings_cons_true _ _ Hc), !filter_cons.
      unfold bind, call. rewrite Hw, Hex.
      destruct (ex (key_of c)) eqn:Hk.
      * rewrite decide_False, decide_True by done.
        edestruct (IH new (d + 1)) as (s' & -> & Hw' & Hl); [done |].
        exists s'. split; [| by split].
        do 2 f_equal. f_equal. unfold len. simpl. lia.
      * rewrite decide_True, decide_False by done.
        edestruct (IH (new ++ [c]) d) as (s' & -> & Hw' & Hl); [done |].
        exists s'. split; [| by split].
        by rewrite <- app_assoc.
    + rewrite (valid_clippings_cons_false _ _ Hc). by apply IH.
Qed.

Lemma pending_with_content (f : KindleClipping -> bool) cs : forall idx,
  original_clipping <$>
    filter (fun h => truthy_str (ph_highlight h) = true)
           (pending_view cs (f <$> cs) idx) =
  filter (fun c => f c = false) (valid_clippings cs).
Proof.
  induction cs as [| c cs IH]; intros idx; [done |].
  simpl. destruct (truthy_str (content c)) eqn:Hc.
  - rewrite (valid_clippings_cons_true _ _ Hc), filter_cons.
    destruct (f c) eqn:Hf.
    + rewrite decide_False by done. apply IH.
    + rewrite decide_True by done. rewrite filter_cons, decide_True by done.
      simpl. f_equal. apply IH.
  - rewrite (valid_clippings_cons_false _ _ Hc).
    destruct (f c) eqn:Hf; [apply IH |].
    rewrite filter_cons, decide_False; [apply IH |]. simpl. by rewrite Hc.
Qed.

(** X18: The preview of [process] and the pending view agree up to the records
    without content.  Take a source that parses to [cs] and a ledger that
    answers [ex] and stands still.  Then [get_pending_highlights] and
    [process] in preview mode both return, and [new_sent], the number of
    records [process] would send, is the number of pending descriptors
    with a non-empty highlight text: the batch [process] would send is
    the pending view without its records without content.  The preview
    reports every parsed record as processed and every stored record
    with content as a duplicate. *)
Theorem preview_agrees_with_pending_view (ex : DedupKey -> bool) (s : St W)
    cs w :
  parse E (world s) = (Ok cs, w) ->
  (forall k, highlight_exists E k w = (Ok (ex k), w)) ->
  exists pending st,
    (get_pending_highlights E s).1 = Ok pending /\
    (process E clippings_file true s).1 = Ok st /\
    new_sent st =
      len (filter (fun h => truthy_str (ph_highlight h) = true) pending) /\
    total_processed st = len cs /\
    duplicates_skipped st =
      len (filter (fun c => ex (key_of c) = true) (valid_clippings cs)) /\
    failed_to_send st = 0.
Proof.
  intros Hparse Hex.
  exists (pending_view cs ((fun c => ex (key_of c)) <$> cs) 0).
  exists (mkStats
            (len cs)
            (len (filter (fun h => truthy_str (ph_highlight h) = true)
                    (pending_view cs ((fun c => ex (key_of c)) <$> cs) 0)))
            (len (filter (fun c => ex (key_of c) = true)
                    (valid_clippings cs)))
            0).
  split.
  { unfold get_pending_highlights, bind, call. rewrite Hparse.
    edestruct (pending_loop_fixed_ledger E ex w cs Hex 0 [])
      as (s' & -> & _); [reflexivity |]. done. }
  unfold process. cbn [negb]. unfold bind at 1. cbn [ret].
  unfold bind, try_except_finally, process_try, bind. st_simpl.
  unfold call. st_simpl. rewrite Hparse. st_simpl.
  unfold _process_clippings, _filter_duplicates, bind.
  match goal with
  | |- context [_filter_duplicates_loop E cs [] 0 ?s0] =>
      destruct (filter_loop_fixed_ledger ex w cs Hex [] 0 s0 eq_refl)
        as (s2 & Hrun & _ & Hs & Hr & Hss & Ha)
  end.
  rewrite Hrun. st_simpl. rewrite app_nil_l, Z.add_0_l.
  rewrite <- (pending_with_content (fun c => ex (key_of c)) cs 0).
  set (sel := filter (fun h => truthy_str (ph_highlight h) = true)
                (pending_view cs ((fun c => ex (key_of c)) <$> cs) 0)).
  rewrite Hs. split; [| done].
  destruct sel as [| h sel']; simpl; [done |].
  unfold len. simpl. by rewrite length_fmap.
Qed.

End PreviewAndPending.

(** ** After a run *)

Section AfterRun.
Context {W : Type}.
Variable E : Env W.
Variable clippings_file : string.
Variable dry_run : bool.
Variable stored : W -> DedupKey -> bool.
Hypothesis contract : ledger_contract E stored.

Lemma ledger_step_get_pending_highlights :
  respects (ledger_step stored) (get_pending_highlights E).
Proof.
  destruct contract as [Hex Hsave Hsk Hpk Hsendk Hstk Hck].
  apply respects_get_pending_highlights; try apply _.
  - intros s r w' Hf. apply ledger_step_call; try done.
    intros k Hk. apply (Hpk _ k) in Hk. by rewrite Hf in Hk.
  - intros k s r w' Hf. rewrite Hex in Hf. injection Hf as <- <-.
    apply ledger_step_call; try done.
    + by intros k' [= <- ->].
    + by intros k' [= <- ->].
Qed.

(** X19: On a ledger whose lookups reflect completed saves, a record that a
    run has saved is not pending any more: the list that
    [get_pending_highlights] returns after the run holds no descriptor
    under the key of a record the run saved with success.  And no
    descriptor of that list has a key the ledger held before. *)
Theorem saved_is_never_pending_again rk (s : St W) pending h :
  (get_pending_highlights E (exec E clippings_file dry_run rk s).2).1 =
    Ok pending ->
  h ∈ pending ->
  stored (world (exec E clippings_file dry_run rk s).2)
         (key_of (original_clipping h)) = false /\
  forall c,
    EvSave c "success" (Ok tt)
      ∈ events_of (exec E clippings_file dry_run rk) s ->
    key_of (original_clipping h) <> key_of c.
Proof.
  intros Hp Hh.
  destruct (ledger_after_run E clippings_file stored contract dry_run rk s)
    as (_ & Hsaved & _ & _).
  set (s1 := (exec E clippings_file dry_run rk s).2) in *.
  assert (Hfalse : stored (world s1) (key_of (original_clipping h)) = false).
  { destruct (ledger_step_get_pending_highlights s1)
      as (_ & evs & Hlog & _ & _ & Habsent).
    apply Habsent. apply events_of_app in Hlog. rewrite <- Hlog.
    apply get_pending_highlights_ok in Hp as (cs & bs & _ & -> & ->).
    right. by apply (pending_lookup_event cs bs 0). }
  split; [done |].
  intros c Hc%Hsaved Heq. rewrite Heq in Hfalse. congruence.
Qed.

End AfterRun.

(** ** A full export *)

Section FullExport.
Context {W : Type}.
Variable E : Env W.
Variable clippings_file : string.
Variable stored : W -> DedupKey -> bool.
Variable cs : list KindleClipping.
Hypothesis contract : ledger_contract E stored.
Hypothesis healthy : reliable E cs.

Lemma pending_loop_returns l : forall idx acc (s : St W),
  exists pending s', _pending_loop E l idx acc s = (Ok pending, s').
Proof.
  induction l as [| c l IH]; intros idx acc s; [by eexists _, _ |].
  cbn [_pending_loop]. unfold bind, call.
  rewrite (lc_exists _ _ contract). destruct (stored (world s) (key_of c));
    apply IH.
Qed.

Lemma get_pending_highlights_returns (s : St W) :
  exists bs,
    length bs = length cs /\
    (get_pending_highlights E s).1 = Ok (pending_view cs bs 0) /\
    events_of (get_pending_highlights E) s =
      EvParse (Ok cs) :: lookup_events cs bs.
Proof.
  assert (exists pending, (get_pending_highlights E s).1 = Ok pending)
    as [pending Hp].
  { unfold get_pending_highlights, bind, call.
    pose proof (rl_parse _ _ healthy (world s)) as Hparse.
    destruct (parse E (world s)) as [r w']. simpl in Hparse. subst r.
    match goal with
    | |- context [_pending_loop E cs 0 [] ?s0] =>
        destruct (pending_loop_returns cs 0 [] s0) as (p & s' & ->)
    end.
    by exists p. }
  pose proof Hp as (cs' & bs & Hlen & Hev & ->)%get_pending_highlights_ok.
  assert (cs' = cs) as ->.
  { assert (Hposs : possible E (EvParse (Ok cs'))).
    { assert (Hall : Forall (possible E)
                       (events_of (get_pending_highlights E) s)).
      { apply events_of_extends, respects_get_pending_highlights;
          try apply _.
        - apply possible_call. intros w. by exists w.
        - intros k. apply possible_call. intros w. by exists w. }
      rewrite Hev in Hall. by apply Forall_cons in Hall as [? _]. }
    destruct Hposs as [w Hw]. rewrite (rl_parse _ _ healthy) in Hw.
    by injection Hw. }
  by exists bs.
Qed.

(** X20: A full export leaves nothing with content pending.  Run [process]
    outside preview mode with a source that parses to [cs], a sink that
    accepts every record, saves and session calls that return, and a
    ledger whose lookups reflect completed saves.  Afterwards the ledger
    holds the key of every parsed record with content, and the list that
    [get_pending_highlights] then returns holds only descriptors with an
    empty highlight text: records without content, which [process] never
    exports. *)
Theorem full_export_fills_ledger (s : St W) :
  (forall c, c ∈ valid_clippings cs ->
     stored (world (process E clippings_file false s).2) (key_of c) = true)
  /\
  exists pending,
    (get_pending_highlights E (process E clippings_file false s).2).1 =
      Ok pending /\
    forall h, h ∈ pending -> truthy_str (ph_highlight h) = false.
Proof.
  destruct (ledger_after_run E clippings_file stored contract false
              Process s) as (_ & Hsaved & Hfound & _).
  simpl in Hsaved, Hfound.
  set (s1 := (process E clippings_file false s).2) in *.
  assert (Hall : forall c, c ∈ valid_clippings cs ->
            stored (world s1) (key_of c) = true).
  { intros c Hc.
    destruct (reliable_process_shape E clippings_file stored cs contract
                healthy s) as (sid & bs & de & [Hlen _] & _ & Hev & Hnew).
    destruct (lookup_or_absent (valid_clippings cs) bs c Hlen Hc)
      as [Hin | Hin].
    - apply Hfound. rewrite Hev. simpl.
      rewrite !elem_of_cons, !elem_of_app. tauto.
    - apply Hsaved. by apply Hnew. }
  split; [exact Hall |].
  destruct (get_pending_highlights_returns s1) as (bs & Hlen & Hp & Hev).
  exists (pending_view cs bs 0). split; [done |].
  intros h Hh.
  destruct (truthy_str (ph_highlight h)) eqn:Hcontent; [| done].
  assert (Hfalse : stored (world s1) (key_of (original_clipping h)) = false).
  { destruct (ledger_step_get_pending_highlights E stored contract s1)
      as (_ & evs & Hlog & _ & _ & Habsent).
    apply Habsent. apply events_of_app in Hlog. rewrite <- Hlog, Hev.
    right. by apply (pending_lookup_event cs bs 0). }
  apply pending_view_positions in Hh as (i & Hi & _ & Hdict).
  rewrite Hdict in Hcontent. simpl in Hcontent.
  rewrite Hall in Hfalse; [done |].
  apply list_elem_of_filter. split; [done |].
  by eapply list_elem_of_lookup_2.
Qed.

End FullExport.

(** ** A source with nothing to export *)

Section NothingToExport.
Context {W : Type}.
Variable E : Env W.
Variable clippings_file : string.
Variable dry_run : bool.

(** X21: When the source parses to no record with content, and so when it is
    empty, [process] looks nothing up, sends nothing and saves nothing:
    apart from the session calls, parsing is its only call.  It reports
    every parsed record as processed and every other counter as 0, and
    the session, when there is one, records these counts with status
    "success". *)
Theorem process_nothing_with_content (s : St W) cs :
  EvParse (Ok cs) ∈ events_of (process E clippings_file dry_run) s ->
  valid_clippings cs = [] ->
  filter (fun ev => is_session ev = false)
         (events_of (process E clippings_file dry_run) s) =
    [EvParse (Ok cs)] /\
  (forall st, (process E clippings_file dry_run s).1 = Ok st ->
     st = mkStats (len cs) 0 0 0) /\
  (forall final status,
     (final, status)
       ∈ omap recorded_of (events_of (process E clippings_file dry_run) s) ->
     final = mkSessionStats (len cs) 0 0 0 /\ status = "success").
Proof.
  destruct (process_shape E clippings_file dry_run s)
    as (pe & Hwf & _ & Hres & Hlog).
  rewrite (events_of_app _ _ _ Hlog), Hres. clear Hres Hlog.
  intros Hparse Hvalid.
  assert (Hte : exists sid rc, pe = Ran sid (Filtered cs [] NotSent) rc).
  { destruct pe as [e | sid te rc].
    { by apply list_elem_of_singleton in Hparse. }
    assert (Hin : EvParse (Ok cs) ∈ try_events te).
    { apply (session_free_process_events clippings_file _ sid te rc);
        [done | exact Hparse]. }
    exists sid, rc. f_equal. destruct Hwf as [_ Hwf]. clear Hparse.
    destruct te as [e | cs' pre c bs e | cs' bs de]; simpl in Hin.
    - by apply list_elem_of_singleton in Hin.
    - apply elem_of_cons in Hin as [[= <-] | Hin].
      + destruct Hwf as [[post Hpost] _]. rewrite Hvalid in Hpost.
        by destruct pre.
      + apply elem_of_app in Hin as [Hin | Hin%list_elem_of_singleton];
          [| done].
        by apply elem_of_lookup_events in Hin as (? & ? & [=] & _).
    - apply elem_of_cons in Hin as [[= <-] | Hin].
      + destruct Hwf as [Hlen Hwf]. rewrite Hvalid in Hlen.
        destruct bs; [| done].
        unfold new_clippings_of in Hwf. rewrite Hvalid in Hwf.
        destruct de as [| e | d rs]; simpl in Hwf; [done | |].
        * by destruct Hwf.
        * by destruct Hwf as (_ & ? & _).
      + exfalso. apply elem_of_app in Hin as [Hin | Hin].
        * by apply elem_of_lookup_events in Hin as (? & ? & [=] & _).
        * destruct de as [| e | d rs]; simpl in Hin.
          -- by apply elem_of_nil in Hin.
          -- by apply list_elem_of_singleton in Hin.
          -- apply elem_of_cons in Hin as [[=] | Hin].
             by apply elem_of_save_events in Hin as (? & ? & [=] & _). }
  destruct Hte as (sid & rc & ->).
  unfold process_result, try_result, process_events.
  cbn [try_events try_error try_stats try_status dispatch_events
       lookup_events]. unfold new_clippings_of. rewrite Hvalid.
  destruct sid as [sid |]; simpl.
  - split; [done |]. split.
    + destruct rc; [by intros st [= <-] | done].
    + intros final status Hin%list_elem_of_singleton.
      by injection Hin as -> ->.
  - split; [done |].
    split; [by intros st [= <-] |]. by intros final status ?%elem_of_nil.
Qed.

End NothingToExport.

(** * Worked examples in the in-memory world *)

Module Examples.
Import InMemory Faulty.

(** Three records, the first stored and the second without content: the
    third is new and the first is the one duplicate. *)
Lemma partition_example :
  let E := env (config_of [cA; cEmpty; cB] accept_all) in
  let s := start_with [key_of cA] in
  _filter_duplicates E [cA; cEmpty; cB] s =
    (Ok ([cB], 1), (_filter_duplicates E [cA; cEmpty; cB] s).2) /\
  omap queried_of (events_of (_filter_duplicates E [cA; cEmpty; cB]) s) =
    key_of <$> valid_clippings [cA; cEmpty; cB] /\
  len [cB] + 1 =
    len [cA; cEmpty; cB] - len (invalid_clippings [cA; cEmpty; cB]).
Proof.
  intros E s.
  assert (H : _filter_duplicates E [cA; cEmpty; cB] s =
              (Ok ([cB], 1), (_filter_duplicates E [cA; cEmpty; cB] s).2))
    by (vm_compute; reflexivity).
  destruct (filter_duplicates_partition E _ s _ _ _ H)
    as (bs & _ & _ & Hq & _ & _ & _ & _ & Hsum & _).
  by split; [| split].
Defined.

(** A database that cannot open a session fails [process] with its own
    error, after that one call. *)
Lemma start_failure_example :
  let E := no_session_start (env (config_of [cA] accept_all)) in
  let s := start_with [] in
  (start_export_session E my_clippings (world s)).1 = Raise locked /\
  (process E my_clippings false s).1 = Raise locked /\
  events_of (process E my_clippings false) s =
    [EvStartSession my_clippings (Raise locked)].
Proof.
  intros E s.
  assert (H : (start_export_session E my_clippings (world s)).1 =
              Raise locked) by reflexivity.
  destruct (process_start_failure E my_clippings s locked H)
    as (Hr & Hev & _).
  by split; [| split].
Defined.

(** A database that cannot close the session fails a [process] that has
    sent and saved its one record and was about to report success. *)
Lemma completion_failure_example :
  let E := no_session_end (env (config_of [cA] accept_all)) in
  let s := start_with [] in
  EvSave cA "success" (Ok tt) ∈ events_of (process E my_clippings false) s /\
  EvCompleteSession 1 (mkSessionStats 1 1 0 0) "success" (Raise locked)
    ∈ events_of (process E my_clippings false) s /\
  (process E my_clippings false s).1 = Raise locked.
Proof.
  intros E s.
  assert (H : EvCompleteSession 1 (mkSessionStats 1 1 0 0) "success"
                (Raise locked)
              ∈ events_of (process E my_clippings false) s)
    by (vm_compute; repeat constructor).
  destruct (process_completion_failure E my_clippings false s _ _ _ _ H)
    as [Hr _].
  split; [vm_compute; repeat constructor |]. by split.
Defined.

(** A source that cannot be parsed fails the preview of [process] with a
    [ProcessingError] that wraps the parser's error. *)
Lemma wrapped_example :
  let bad := External "ParsingError" "not a clippings file" in
  let E := env (mkConfig true true (Raise bad) accept_all (fun _ => false)) in
  let s := start_with [] in
  let x := ProcessingError "Processing failed: not a clippings file" bad in
  (process E my_clippings true s).1 = Raise x /\
  exists e,
    omap abort_cause (events_of (process E my_clippings true) s) = [e] /\
    x = ProcessingError ("Processing failed: " +:+ exn_str e) e.
Proof.
  intros bad E s x.
  assert (H : (process E my_clippings true s).1 = Raise x)
    by (vm_compute; reflexivity).
  split; [exact H |].
  destruct (process_raises_wrapped E my_clippings true s x H)
    as [Hwrapped | [Hdry _]]; [exact Hwrapped | discriminate Hdry].
Defined.

(** A sink that cannot be reached fails [process_selected] with the
    sink's own error, and nothing is saved. *)
Lemma raw_example :
  let E := env (config_of [cA] unreachable) in
  let s := start_with [] in
  let e := External "DeliveryError" "connection refused" in
  (process_selected E false [1] s).1 = Raise e /\
  Forall (fun ev => is_save ev = false)
         (events_of (process_selected E false [1]) s).
Proof.
  intros E s e.
  assert (H : (process_selected E false [1] s).1 = Raise e)
    by (vm_compute; reflexivity).
  split; [exact H |].
  exact (proj2 (process_selected_raises_raw E false [1] s e H)).
Defined.

(** With the first of two records stored, the batch holds the second
    only. *)
Lemma not_sent_example :
  let E := env (config_of [cA; cB] accept_all) in
  let s := start_with [key_of cA] in
  ledger_contract E known /\
  EvSend [cB] (accept_all [cB])
    ∈ events_of (exec E my_clippings false Process) s /\
  known (world s) (key_of cB) = false.
Proof.
  intros E s.
  assert (H : EvSend [cB] (accept_all [cB])
              ∈ events_of (exec E my_clippings false Process) s)
    by (vm_compute; repeat constructor).
  split; [apply Concrete.in_memory_contract |]. split; [exact H |].
  refine (proj1 (stored_records_are_not_sent E my_clippings false known
                   Process s (Concrete.in_memory_contract _))
                [cB] (accept_all [cB]) cB H _).
  by left.
Defined.

(** A sink that answers [sent = -1] to a batch of two makes [process]
    save the first record of the batch. *)
Lemma negative_count_example :
  let E := env (config_of [cA; cB] (accept_first (-1))) in
  let s := start_with [] in
  let d := answer_first (-1) [cA; cB] in
  EvSend [cA; cB] (Ok d) ∈ events_of (exec E my_clippings false Process) s /\
  dict_get0 d "sent" = -1 /\
  omap saved_of (events_of (exec E my_clippings false Process) s) =
    with_success <$> saved_slice Process [cA; cB] d /\
  saved_slice Process [cA; cB] d = [cA].
Proof.
  intros E s d.
  assert (H : EvSend [cA; cB] (Ok d)
              ∈ events_of (exec E my_clippings false Process) s)
    by (vm_compute; repeat constructor).
  assert (Hk : dict_get0 d "sent" = -1) by (vm_compute; reflexivity).
  destruct (saves_follow_python_slice E my_clippings false Process s _ d H)
    as (Hsaved & _ & _ & Hneg).
  split; [exact H |]. split; [exact Hk |]. split; [exact Hsaved |].
  rewrite Hneg by (rewrite Hk; lia). vm_compute. reflexivity.
Defined.

(** Three records with the second stored: the pending view holds the
    first and the third, under the ids 1 and 3. *)
Lemma round_trip_example :
  let E := env (config_of [cA; cB; cC] accept_all) in
  let s := start_with [key_of cB] in
  let pending := [highlight_dict_of 0 cA; highlight_dict_of 2 cC] in
  (get_pending_highlights E s).1 = Ok pending /\
  ph_id <$> pending = [1; 3] /\
  select_highlights (id_to_highlight_of pending) (ph_id <$> pending) =
    pending.
Proof.
  intros E s pending.
  assert (H : (get_pending_highlights E s).1 = Ok pending)
    by (vm_compute; reflexivity).
  destruct (select_all_round_trip E s pending H) as (_ & _ & Hsel).
  by split; [| split].
Defined.

Lemma all_pending_example :
  let E := env (config_of [cA; cB; cC] accept_all) in
  let s := start_with [key_of cB] in
  let pending := [highlight_dict_of 0 cA; highlight_dict_of 2 cC] in
  pending_view_in E s = Some pending /\
  (forall b r,
     EvSend b r ∈ events_of (process_selected E false (ph_id <$> pending)) s
     -> b = [cA; cC]) /\
  EvSend [cA; cC] (accept_all [cA; cC])
    ∈ events_of (process_selected E false (ph_id <$> pending)) s.
Proof.
  intros E s pending.
  assert (H : pending_view_in E s = Some pending)
    by (vm_compute; reflexivity).
  destruct (process_selected_all_pending E false s pending H) as [Hb _].
  split; [exact H |]. split; [exact Hb |]. vm_compute. repeat constructor.
Defined.

(** Selecting the position of a stored record and a position beyond the
    source selects nothing. *)
Lemma nothing_selected_example :
  let E := env (config_of [cA; cB; cC] accept_all) in
  let s := start_with [key_of cB] in
  Forall (fun id => is_pending_id (pending_view_in E s) id = false) [2; 7] /\
  (process_selected E false [2; 7] s).1 = Ok (mkStats 3 0 1 0) /\
  Forall (fun ev => is_lookup ev = true)
         (events_of (process_selected E false [2; 7]) s).
Proof.
  intros E s.
  assert (H : Forall (fun id => is_pending_id (pending_view_in E s) id = false)
                     [2; 7])
    by (repeat constructor; vm_compute; reflexivity).
  destruct (process_selected_nothing_selected E false [2; 7] s H)
    as [Hev _].
  split; [exact H |]. split; [vm_compute; reflexivity | exact Hev].
Defined.

(** One of two pending records is selected: the other one is counted as
    processed and nowhere else. *)
Lemma counts_example :
  let E := env (config_of [cA; cB; cC] accept_all) in
  let s := start_with [key_of cB] in
  (process_selected E false [1] s).1 = Ok (mkStats 3 1 1 0) /\
  exists cs0 cs pending,
    omap parsed_of (events_of (process_selected E false [1]) s) = [cs0; cs] /\
    pending_view_in E s = Some pending /\
    total_processed (mkStats 3 1 1 0) = len cs0 /\
    duplicates_skipped (mkStats 3 1 1 0) = len cs0 - len pending.
Proof.
  intros E s.
  assert (H : (process_selected E false [1] s).1 = Ok (mkStats 3 1 1 0))
    by (vm_compute; reflexivity).
  destruct (process_selected_counts E false [1] s _ H)
    as (cs0 & cs & pending & Hp & Hv & Ht & Hd & _).
  split; [exact H |]. by exists cs0, cs, pending.
Defined.

(** Of three records, one is stored and one has no content: the pending
    view holds two descriptors and the preview counts one record. *)
Lemma preview_example :
  let E := env (config_of [cA; cEmpty; cB] accept_all) in
  let s := start_with [key_of cA] in
  parse E (world s) = (Ok [cA; cEmpty; cB], world s) /\
  (forall k,
     highlight_exists E k (world s) = (Ok (known (world s) k), world s)) /\
  exists pending st,
    (get_pending_highlights E s).1 = Ok pending /\
    (process E my_clippings true s).1 = Ok st /\
    new_sent st =
      len (filter (fun h => truthy_str (ph_highlight h) = true) pending) /\
    total_processed st = 3.
Proof.
  intros E s.
  assert (H1 : parse E (world s) = (Ok [cA; cEmpty; cB], world s))
    by reflexivity.
  assert (H2 : forall k, highlight_exists E k (world s) =
                         (Ok (known (world s) k), world s))
    by (intros k; reflexivity).
  destruct (preview_agrees_with_pending_view E my_clippings
              (known (world s)) s _ _ H1 H2)
    as (pending & st & Hp & Hst & Hn & Ht & _).
  split; [exact H1 |]. split; [exact H2 |]. by exists pending, st.
Defined.

(** After the first of two records has been exported by selection, the
    pending view holds the second one only. *)
Lemma never_pending_again_example :
  let E := env (config_of [cA; cB] accept_all) in
  let s := start_with [] in
  let s1 := (exec E my_clippings false (ProcessSelected [1]) s).2 in
  ledger_contract E known /\
  (get_pending_highlights E s1).1 = Ok [highlight_dict_of 1 cB] /\
  EvSave cA "success" (Ok tt)
    ∈ events_of (exec E my_clippings false (ProcessSelected [1])) s /\
  key_of (original_clipping (highlight_dict_of 1 cB)) <> key_of cA.
Proof.
  intros E s s1.
  assert (H1 : (get_pending_highlights E s1).1 = Ok [highlight_dict_of 1 cB])
    by (vm_compute; reflexivity).
  assert (H2 : EvSave cA "success" (Ok tt)
               ∈ events_of (exec E my_clippings false (ProcessSelected [1])) s)
    by (vm_compute; repeat constructor).
  assert (H3 : highlight_dict_of 1 cB ∈ [highlight_dict_of 1 cB])
    by (by left).
  split; [apply Concrete.in_memory_contract |]. split; [exact H1 |].
  split; [exact H2 |].
  exact (proj2 (saved_is_never_pending_again E my_clippings false known
                  (Concrete.in_memory_contract _) (ProcessSelected [1]) s
                  _ _ H1 H3) cA H2).
Defined.

(** After a full export of three records, one of them without content,
    that one is all that is pending. *)
Lemma full_export_example :
  let E := env (config_of [cA; cEmpty; cB] accept_all) in
  let s := start_with [] in
  ledger_contract E known /\ reliable E [cA; cEmpty; cB] /\
  (forall c, c ∈ valid_clippings [cA; cEmpty; cB] ->
     known (world (process E my_clippings false s).2) (key_of c) = true) /\
  (get_pending_highlights E (process E my_clippings false s).2).1 =
    Ok [highlight_dict_of 1 cEmpty].
Proof.
  intros E s.
  destruct (full_export_fills_ledger E my_clippings known [cA; cEmpty; cB]
              (Concrete.in_memory_contract _) (Concrete.in_memory_reliable _)
              s) as [Hall _].
  split; [apply Concrete.in_memory_contract |].
  split; [apply Concrete.in_memory_reliable |].
  split; [exact Hall |]. vm_compute. reflexivity.
Defined.

(** A source whose only record has no content. *)
Lemma nothing_to_export_example :
  let E := env (config_of [cEmpty] accept_all) in
  let s := start_with [] in
  EvParse (Ok [cEmpty]) ∈ events_of (process E my_clippings false) s /\
  valid_clippings [cEmpty] = [] /\
  (process E my_clippings false s).1 = Ok (mkStats 1 0 0 0) /\
  filter (fun ev => is_session ev = false)
         (events_of (process E my_clippings false) s) =
    [EvParse (Ok [cEmpty])].
Proof.
  intros E s.
  assert (H1 : EvParse (Ok [cEmpty])
               ∈ events_of (process E my_clippings false) s)
    by (vm_compute; repeat constructor).
  assert (H2 : valid_clippings [cEmpty] = []) by (vm_compute; reflexivity).
  destruct (process_nothing_with_content E my_clippings false s _ H1 H2)
    as (Hev & _ & _).
  split; [exact H1 |]. split; [exact H2 |].
  split; [vm_compute; reflexivity | exact Hev].
Defined.

End Examples.
